(** * AirControlX: the scheduling core of [source.cpp], embedded in Rocq

    The development follows the C++ program class by class: the enums and
    configuration constants, the notice record [AVN], the [Aircraft] base
    class with its two subclasses [ArrivalFlight] and [DepartureFlight], and
    the [FlightScheduler] with its three runways.

    Conventions of the embedding.
    - [int] and [time_t] values are integers of [Z]; every quantity of the
      core is bounded by the simulation length, far from the 32-bit range.
    - [double] values are IEEE-754 binary64 numbers, computed with the
      reference operations of [SpecFloat] (precision 53, maximal exponent
      1024), so that rounding is the rounding of the machine.
    - The generator [gen] (an [mt19937]) and the two clocks
      ([system_clock::now()], [time(nullptr)]) are inputs of the program: they
      are read from streams held in the process state [Globals].
    - Objects behind a [shared_ptr<Aircraft>] live in a store; since every
      aircraft is pushed on [allFlights] when it is created and never
      removed, the store is that vector and a pointer is an index in it. *)

From Stdlib Require Import ZArith QArith Floats.SpecFloat.
From stdpp Require Import base decidable option list gmap strings pretty.

#[local] Open Scope string_scope.
#[local] Open Scope Z_scope.
#[local] Open Scope list_scope.

(** ** Global definitions and enums *)

Inductive FlightType := COMMERCIAL | CARGO | EMERGENCY.

Module ArrivalState.
Inductive t := HOLDING | APPROACH | LANDING | TAXI | AT_GATE.
End ArrivalState.

Module DepartureState.
Inductive t := AT_GATE | TAXI | TAKEOFF_ROLL | CLIMB | CRUISE.
End DepartureState.

Inductive Direction := NORTH | SOUTH | EAST | WEST.

Inductive Runway := RWY_A | RWY_B | RWY_C | NONE.

Inductive PaymentStatus := UNPAID | PAID | OVERDUE.

Inductive MessageType :=
  AVN_CREATED | PAYMENT_REQUEST | PAYMENT_CONFIRMATION | QUERY_AVN | QUERY_AIRLINE.

#[global] Instance FlightType_eq_dec : EqDecision FlightType.
Proof. solve_decision. Defined.
#[global] Instance ArrivalState_eq_dec : EqDecision ArrivalState.t.
Proof. solve_decision. Defined.
#[global] Instance DepartureState_eq_dec : EqDecision DepartureState.t.
Proof. solve_decision. Defined.
#[global] Instance Direction_eq_dec : EqDecision Direction.
Proof. solve_decision. Defined.
#[global] Instance Runway_eq_dec : EqDecision Runway.
Proof. solve_decision. Defined.
#[global] Instance PaymentStatus_eq_dec : EqDecision PaymentStatus.
Proof. solve_decision. Defined.

(** ** System configuration *)

Definition SIMULATION_TIME : Z := 300.
Definition ARRIVAL_NORTH_INTERVAL : Z := 180.
Definition ARRIVAL_SOUTH_INTERVAL : Z := 120.
Definition DEPARTURE_EAST_INTERVAL : Z := 150.
Definition DEPARTURE_WEST_INTERVAL : Z := 240.

Definition NORTH_EMERGENCY_PROBABILITY : Z := 10.
Definition SOUTH_EMERGENCY_PROBABILITY : Z := 5.
Definition EAST_EMERGENCY_PROBABILITY : Z := 15.
Definition WEST_EMERGENCY_PROBABILITY : Z := 20.

Definition HOLDING_MIN_SPEED : Z := 400.
Definition HOLDING_MAX_SPEED : Z := 600.
Definition APPROACH_MIN_SPEED : Z := 240.
Definition APPROACH_MAX_SPEED : Z := 290.
Definition LANDING_START_SPEED : Z := 240.
Definition LANDING_END_SPEED : Z := 30.
Definition TAXI_MIN_SPEED : Z := 15.
Definition TAXI_MAX_SPEED : Z := 30.
Definition GATE_MAX_SPEED : Z := 5.

Definition TAKEOFF_MAX_SPEED : Z := 290.
Definition CLIMB_MIN_SPEED : Z := 250.
Definition CLIMB_MAX_SPEED : Z := 463.
Definition CRUISE_MIN_SPEED : Z := 800.
Definition CRUISE_MAX_SPEED : Z := 900.

Definition COMMERCIAL_FINE : Z := 500000.
Definition CARGO_FINE : Z := 700000.

Definition VIOLATION_PROBABILITY : Z := 15.
Definition MAX_VIOLATION_SPEED_EXCESS : Z := 40.

(** ** Machine numbers *)

(** [double]: binary64. *)
Module Double.
Definition prec : Z := 53.
Definition emax : Z := 1024.
Definition t := spec_float.

Definition mul : t -> t -> t := SFmul prec emax.
Definition add : t -> t -> t := SFadd prec emax.

(** Conversion [int -> double]. *)
Definition of_int (n : Z) : t := binary_normalize prec emax n 0 false.

(** The decimal literal [n / d], correctly rounded. *)
Definition literal (n d : Z) : t := SFdiv prec emax (of_int n) (of_int d).

(** The real number a finite [double] stands for. *)
Definition to_Q (x : t) : Q :=
  match x with
  | S754_finite s m e =>
      let v := if s then Z.neg m else Z.pos m in
      if (0 <=? e)%Z then inject_Z (v * 2 ^ e) else (v # (2 ^ Z.to_pos (- e)))%Q
  | _ => 0%Q
  end.

(** What [fixed << setprecision(2)] shows, in hundredths: the value
    rounded to the nearest hundredth. *)
Definition cents (x : t) : Z :=
  let q := (to_Q x * inject_Z 100 + (1 # 2))%Q in
  (Qnum q / Z.pos (Qden q))%Z.
(** [0.0]. *)
Definition zero : t := S754_zero false.

(** [x >= y], which is false as soon as one of the two is a NaN. *)
Definition geb (x y : t) : bool := SFleb y x.

(** [static_cast<int>(x)]: the value without its fraction. The language
    leaves the conversion undefined when the result does not fit an [int];
    the conversion instruction of the machine then gives [INT_MIN], and so
    does this function. *)
Definition to_int (x : t) : Z :=
  match x with
  | S754_zero _ => 0
  | S754_finite s m e =>
      let n := if 0 <=? e then Z.pos m * 2 ^ e else Z.pos m / 2 ^ (- e) in
      let v := if s then - n else n in
      if (- 2 ^ 31 <=? v) && (v <? 2 ^ 31) then v else - 2 ^ 31
  | _ => - 2 ^ 31
  end.

(** The magnitude [m * 2^e] in hundredths, rounded to the nearest integer
    and to the even one on a tie, as the conversion to decimal rounds. *)
Definition hundredths (m : positive) (e : Z) : Z :=
  let num := if 0 <=? e then Z.pos m * 2 ^ e * 100 else Z.pos m * 100 in
  let den := if 0 <=? e then 1 else 2 ^ (- e) in
  let q := num / den in
  let r := num mod den in
  if 2 * r <? den then q
  else if den <? 2 * r then q + 1
  else if Z.even q then q else q + 1.

(** What [<< fixed << setprecision(2) << x] writes; a NaN is written
    without the sign that [spec_float] does not keep. *)
Definition fixed2 (x : t) : string :=
  let sign (s : bool) := if s then "-" else "" in
  match x with
  | S754_nan => "nan"
  | S754_infinity s => sign s +:+ "inf"
  | S754_zero s => sign s +:+ "0.00"
  | S754_finite s m e =>
      let c := hundredths m e in
      sign s +:+ pretty (c / 100) +:+ "."
        +:+ (if c mod 100 <? 10 then "0" else "") +:+ pretty (c mod 100)
  end.
End Double.

(** [float]: binary32. *)
Module Float.
Definition prec : Z := 24.
Definition emax : Z := 128.

(** Conversion [double -> float], rounding to nearest. *)
Definition of_double (x : Double.t) : spec_float :=
  match x with
  | S754_finite s m e => binary_round prec emax s m e
  | _ => x
  end.

(** Promotion [float -> double]. *)
Definition to_double (x : spec_float) : Double.t :=
  match x with
  | S754_finite s m e => binary_round Double.prec Double.emax s m e
  | _ => x
  end.
End Float.

(** [const float SERVICE_FEE_PERCENTAGE = 0.15]: the [double] literal
    [0.15], converted to [float]. *)
Definition SERVICE_FEE_PERCENTAGE : spec_float :=
  Float.of_double (Double.literal 15 100).

(** ** Process state and inputs *)

(** What the program reads from outside: the values still to come out of
    the generator [gen], and the readings still to come from
    [chrono::system_clock::now()] and from [time(nullptr)]. *)
Record Inputs := {
  gen : list Z;
  system_clock : list Z;
  time_t : list Z
}.

(** The static variables: [Aircraft::nextId] and the two function-local
    [static int avnIdCounter], one in [ArrivalFlight::checkViolation] and one
    in [DepartureFlight::checkViolation]. *)
Record Globals := {
  inputs : Inputs;
  Aircraft_nextId : Z;
  ArrivalFlight_avnIdCounter : Z;
  DepartureFlight_avnIdCounter : Z
}.

Definition set_inputs (i : Inputs) (g : Globals) : Globals :=
  {| inputs := i; Aircraft_nextId := Aircraft_nextId g;
     ArrivalFlight_avnIdCounter := ArrivalFlight_avnIdCounter g;
     DepartureFlight_avnIdCounter := DepartureFlight_avnIdCounter g |}.

(** The state of a freshly started process. *)
Definition start (i : Inputs) : Globals :=
  {| inputs := i; Aircraft_nextId := 1000;
     ArrivalFlight_avnIdCounter := 1000;
     DepartureFlight_avnIdCounter := 1000 |}.

(** Code that touches the process state. *)
Definition M (A : Type) : Type := Globals -> A * Globals.

Definition ret {A} (x : A) : M A := fun g => (x, g).
Definition bind {A B} (m : M A) (k : A -> M B) : M B :=
  fun g => let (x, g') := m g in k x g'.

Notation "'do' x <- m ;; k" := (bind m (fun x => k))
  (at level 10, x name, m at level 99, k at level 200,
   format "'[v' 'do'  x  <-  m ;; '/' k ']'").

(** [uniform_int_distribution<>(a, b)(gen)]: one value of the generator,
    brought into [a .. b]. *)
Definition uniform_int (a b : Z) : M Z := fun g =>
  match gen (inputs g) with
  | [] => (a, g)
  | r :: rs =>
      (a + r mod (b - a + 1),
       set_inputs {| gen := rs; system_clock := system_clock (inputs g);
                     time_t := time_t (inputs g) |} g)
  end.

(** [chrono::system_clock::now()]. *)
Definition system_clock_now : M Z := fun g =>
  match system_clock (inputs g) with
  | [] => (0, g)
  | t :: ts =>
      (t, set_inputs {| gen := gen (inputs g); system_clock := ts;
                        time_t := time_t (inputs g) |} g)
  end.

(** [time(nullptr)]. *)
Definition time_nullptr : M Z := fun g =>
  match time_t (inputs g) with
  | [] => (0, g)
  | t :: ts =>
      (t, set_inputs {| gen := gen (inputs g);
                        system_clock := system_clock (inputs g);
                        time_t := ts |} g)
  end.

(** [Aircraft::nextId++]. *)
Definition next_Aircraft_id : M Z := fun g =>
  (Aircraft_nextId g,
   {| inputs := inputs g; Aircraft_nextId := Aircraft_nextId g + 1;
      ArrivalFlight_avnIdCounter := ArrivalFlight_avnIdCounter g;
      DepartureFlight_avnIdCounter := DepartureFlight_avnIdCounter g |}).

(** [avnIdCounter++] in [ArrivalFlight::checkViolation]. *)
Definition next_arrival_avnId : M Z := fun g =>
  (ArrivalFlight_avnIdCounter g,
   {| inputs := inputs g; Aircraft_nextId := Aircraft_nextId g;
      ArrivalFlight_avnIdCounter := ArrivalFlight_avnIdCounter g + 1;
      DepartureFlight_avnIdCounter := DepartureFlight_avnIdCounter g |}).

(** [avnIdCounter++] in [DepartureFlight::checkViolation]. *)
Definition next_departure_avnId : M Z := fun g =>
  (DepartureFlight_avnIdCounter g,
   {| inputs := inputs g; Aircraft_nextId := Aircraft_nextId g;
      ArrivalFlight_avnIdCounter := ArrivalFlight_avnIdCounter g;
      DepartureFlight_avnIdCounter := DepartureFlight_avnIdCounter g + 1 |}).

(** ** Airspace Violation Notice *)

Module AVN.
Record t := {
  id : Z;
  airline : string;
  flightNumber : string;
  aircraftType : FlightType;
  recordedSpeed : Z;
  permissibleSpeedMin : Z;
  permissibleSpeedMax : Z;
  issueTime : Z;
  dueDate : Z;
  fineAmount : Double.t;
  serviceFee : Double.t;
  totalAmount : Double.t;
  status : PaymentStatus
}.

(** The constructor [AVN::AVN]. *)
Definition new (id : Z) (airline flightNumber : string) (type : FlightType)
    (recordedSpeed permissibleSpeedMin permissibleSpeedMax : Z) : M t :=
  do issueTime <- time_nullptr;;
  let dueDate := issueTime + 3 * 24 * 60 * 60 in
  let fineAmount :=
    if decide (type = COMMERCIAL) then Double.of_int COMMERCIAL_FINE
    else Double.of_int CARGO_FINE in
  let serviceFee :=
    Double.mul fineAmount (Float.to_double SERVICE_FEE_PERCENTAGE) in
  let totalAmount := Double.add fineAmount serviceFee in
  ret {| id := id; airline := airline; flightNumber := flightNumber;
         aircraftType := type; recordedSpeed := recordedSpeed;
         permissibleSpeedMin := permissibleSpeedMin;
         permissibleSpeedMax := permissibleSpeedMax;
         issueTime := issueTime; dueDate := dueDate;
         fineAmount := fineAmount; serviceFee := serviceFee;
         totalAmount := totalAmount; status := UNPAID |}.
(** [status = v]. *)
Definition set_status (v : PaymentStatus) (a : t) : t :=
  {| id := id a; airline := airline a; flightNumber := flightNumber a;
     aircraftType := aircraftType a; recordedSpeed := recordedSpeed a;
     permissibleSpeedMin := permissibleSpeedMin a;
     permissibleSpeedMax := permissibleSpeedMax a;
     issueTime := issueTime a; dueDate := dueDate a;
     fineAmount := fineAmount a; serviceFee := serviceFee a;
     totalAmount := totalAmount a; status := v |}.
End AVN.

(** ** Airline *)

Module Airline.
Record t := {
  name : string;
  totalAircrafts : Z;
  activeFlights : Z;
  violations : list AVN.t
}.

Definition new (name : string) (totalAircrafts activeFlights : Z) : t :=
  {| name := name; totalAircrafts := totalAircrafts;
     activeFlights := activeFlights; violations := [] |}.

Definition addViolation (violation : AVN.t) (a : t) : t :=
  {| name := name a; totalAircrafts := totalAircrafts a;
     activeFlights := activeFlights a;
     violations := violations a ++ [violation] |}.
End Airline.

(** ** Aircraft, the base class *)

Module Aircraft.
Record t := {
  id : Z;
  flightNumber : string;
  airline : string;
  type : FlightType;
  direction : Direction;
  priority : Z;
  currentSpeed : Z;
  hasActiveViolation : bool;
  currentViolation : option AVN.t;
  scheduledTime : Z;
  assignedRunway : Runway;
  isEmergency : bool;
  violatedStates : gset string;
  maintainViolationSpeed : bool;
  violationSpeed : Z
}.

Definition set_currentSpeed (v : Z) (a : t) : t :=
  {| id := id a; flightNumber := flightNumber a; airline := airline a;
     type := type a; direction := direction a; priority := priority a;
     currentSpeed := v; hasActiveViolation := hasActiveViolation a;
     currentViolation := currentViolation a;
     scheduledTime := scheduledTime a; assignedRunway := assignedRunway a;
     isEmergency := isEmergency a; violatedStates := violatedStates a;
     maintainViolationSpeed := maintainViolationSpeed a;
     violationSpeed := violationSpeed a |}.

Definition set_hasActiveViolation (v : bool) (a : t) : t :=
  {| id := id a; flightNumber := flightNumber a; airline := airline a;
     type := type a; direction := direction a; priority := priority a;
     currentSpeed := currentSpeed a; hasActiveViolation := v;
     currentViolation := currentViolation a;
     scheduledTime := scheduledTime a; assignedRunway := assignedRunway a;
     isEmergency := isEmergency a; violatedStates := violatedStates a;
     maintainViolationSpeed := maintainViolationSpeed a;
     violationSpeed := violationSpeed a |}.

Definition set_currentViolation (v : option AVN.t) (a : t) : t :=
  {| id := id a; flightNumber := flightNumber a; airline := airline a;
     type := type a; direction := direction a; priority := priority a;
     currentSpeed := currentSpeed a;
     hasActiveViolation := hasActiveViolation a; currentViolation := v;
     scheduledTime := scheduledTime a; assignedRunway := assignedRunway a;
     isEmergency := isEmergency a; violatedStates := violatedStates a;
     maintainViolationSpeed := maintainViolationSpeed a;
     violationSpeed := violationSpeed a |}.

Definition set_assignedRunway (v : Runway) (a : t) : t :=
  {| id := id a; flightNumber := flightNumber a; airline := airline a;
     type := type a; direction := direction a; priority := priority a;
     currentSpeed := currentSpeed a;
     hasActiveViolation := hasActiveViolation a;
     currentViolation := currentViolation a;
     scheduledTime := scheduledTime a; assignedRunway := v;
     isEmergency := isEmergency a; violatedStates := violatedStates a;
     maintainViolationSpeed := maintainViolationSpeed a;
     violationSpeed := violationSpeed a |}.

Definition set_isEmergency (v : bool) (a : t) : t :=
  {| id := id a; flightNumber := flightNumber a; airline := airline a;
     type := type a; direction := direction a; priority := priority a;
     currentSpeed := currentSpeed a;
     hasActiveViolation := hasActiveViolation a;
     currentViolation := currentViolation a;
     scheduledTime := scheduledTime a; assignedRunway := assignedRunway a;
     isEmergency := v; violatedStates := violatedStates a;
     maintainViolationSpeed := maintainViolationSpeed a;
     violationSpeed := violationSpeed a |}.

Definition set_violatedStates (v : gset string) (a : t) : t :=
  {| id := id a; flightNumber := flightNumber a; airline := airline a;
     type := type a; direction := direction a; priority := priority a;
     currentSpeed := currentSpeed a;
     hasActiveViolation := hasActiveViolation a;
     currentViolation := currentViolation a;
     scheduledTime := scheduledTime a; assignedRunway := assignedRunway a;
     isEmergency := isEmergency a; violatedStates := v;
     maintainViolationSpeed := maintainViolationSpeed a;
     violationSpeed := violationSpeed a |}.

Definition set_maintainViolationSpeed (v : bool) (a : t) : t :=
  {| id := id a; flightNumber := flightNumber a; airline := airline a;
     type := type a; direction := direction a; priority := priority a;
     currentSpeed := currentSpeed a;
     hasActiveViolation := hasActiveViolation a;
     currentViolation := currentViolation a;
     scheduledTime := scheduledTime a; assignedRunway := assignedRunway a;
     isEmergency := isEmergency a; violatedStates := violatedStates a;
     maintainViolationSpeed := v; violationSpeed := violationSpeed a |}.

Definition set_violationSpeed (v : Z) (a : t) : t :=
  {| id := id a; flightNumber := flightNumber a; airline := airline a;
     type := type a; direction := direction a; priority := priority a;
     currentSpeed := currentSpeed a;
     hasActiveViolation := hasActiveViolation a;
     currentViolation := currentViolation a;
     scheduledTime := scheduledTime a; assignedRunway := assignedRunway a;
     isEmergency := isEmergency a; violatedStates := violatedStates a;
     maintainViolationSpeed := maintainViolationSpeed a;
     violationSpeed := v |}.

(** The constructor [Aircraft::Aircraft]. *)
Definition new (flightNumber airline : string) (type : FlightType)
    (direction : Direction) (priority scheduledTime : Z) : M t :=
  do id <- next_Aircraft_id;;
  ret {| id := id; flightNumber := flightNumber; airline := airline;
         type := type; direction := direction; priority := priority;
         currentSpeed := 0; hasActiveViolation := false;
         currentViolation := None; scheduledTime := scheduledTime;
         assignedRunway := NONE; isEmergency := false;
         violatedStates := ∅; maintainViolationSpeed := false;
         violationSpeed := 0 |}.
End Aircraft.

(** ** Arrival flights *)

Module ArrivalFlight.
Import ArrivalState.

Record t := {
  base : Aircraft.t;
  state : ArrivalState.t;
  stateTime : Z
}.

Definition HOLDING_TIME : Z := 20.
Definition APPROACH_TIME : Z := 15.
Definition LANDING_TIME : Z := 10.
Definition TAXI_TIME : Z := 15.

Definition with_base (b : Aircraft.t) (f : t) : t :=
  {| base := b; state := state f; stateTime := stateTime f |}.

(** Assignments to members of the base class. *)
Definition set_currentSpeed (v : Z) (f : t) : t :=
  with_base (Aircraft.set_currentSpeed v (base f)) f.
Definition set_maintainViolationSpeed (v : bool) (f : t) : t :=
  with_base (Aircraft.set_maintainViolationSpeed v (base f)) f.
Definition set_violationSpeed (v : Z) (f : t) : t :=
  with_base (Aircraft.set_violationSpeed v (base f)) f.

(** [state = s; stateTime = 0;] *)
Definition enter (s : ArrivalState.t) (f : t) : t :=
  {| base := base f; state := s; stateTime := 0 |}.

(** The constructor. *)
Definition new (flightNumber airline : string) (type : FlightType)
    (direction : Direction) (priority scheduledTime : Z) : M t :=
  do b <- Aircraft.new flightNumber airline type direction priority
            scheduledTime;;
  do v <- uniform_int HOLDING_MIN_SPEED HOLDING_MAX_SPEED;;
  ret {| base := Aircraft.set_currentSpeed v b; state := HOLDING;
         stateTime := 0 |}.

Definition getStateString (f : t) : string :=
  match state f with
  | HOLDING => "Holding"
  | APPROACH => "Approach"
  | LANDING => "Landing"
  | TAXI => "Taxi"
  | AT_GATE => "At Gate"
  end.

(** [checkViolation]. *)
Definition checkViolation (f : t) : M t :=
  let currentStateStr := getStateString f in
  if decide (currentStateStr ∈ Aircraft.violatedStates (base f)) then ret f
  else
    let currentSpeed := Aircraft.currentSpeed (base f) in
    let '(violation, minSpeed, maxSpeed) :=
      match state f with
      | HOLDING =>
          if currentSpeed >? HOLDING_MAX_SPEED
          then (true, HOLDING_MIN_SPEED, HOLDING_MAX_SPEED)
          else (false, 0, 0)
      | APPROACH =>
          if (currentSpeed <? APPROACH_MIN_SPEED)
             || (currentSpeed >? APPROACH_MAX_SPEED)
          then (true, APPROACH_MIN_SPEED, APPROACH_MAX_SPEED)
          else (false, 0, 0)
      | LANDING =>
          if (currentSpeed >? LANDING_START_SPEED)
             || ((stateTime f >=? LANDING_TIME)
                 && (currentSpeed >? LANDING_END_SPEED))
          then (true, 0, LANDING_START_SPEED)
          else (false, 0, 0)
      | TAXI =>
          if currentSpeed >? TAXI_MAX_SPEED
          then (true, TAXI_MIN_SPEED, TAXI_MAX_SPEED)
          else (false, 0, 0)
      | AT_GATE =>
          if currentSpeed >? GATE_MAX_SPEED
          then (true, 0, GATE_MAX_SPEED)
          else (false, 0, 0)
      end in
    if violation then
      let b := Aircraft.set_hasActiveViolation true (base f) in
      do avnId <- next_arrival_avnId;;
      do avn <- AVN.new avnId (Aircraft.airline b) (Aircraft.flightNumber b)
                  (Aircraft.type b) currentSpeed minSpeed maxSpeed;;
      let b := Aircraft.set_currentViolation (Some avn) b in
      let b := Aircraft.set_violatedStates
                 ({[ currentStateStr ]} ∪ Aircraft.violatedStates b) b in
      ret (with_base b f)
    else ret f.

(** The [switch] of [updateStatus] that moves the aircraft through its
    phases and sets the speed of the phase. *)
Definition advance (f : t) : M t :=
  match state f with
  | HOLDING =>
      if (stateTime f >=? HOLDING_TIME)
         && bool_decide (Aircraft.assignedRunway (base f) ≠ NONE)
      then
        let f := set_maintainViolationSpeed false (enter APPROACH f) in
        if negb (Aircraft.maintainViolationSpeed (base f)) then
          do v <- uniform_int APPROACH_MIN_SPEED APPROACH_MAX_SPEED;;
          ret (set_currentSpeed v f)
        else ret f
      else ret f
  | APPROACH =>
      if stateTime f >=? APPROACH_TIME then
        let f := set_maintainViolationSpeed false (enter LANDING f) in
        if negb (Aircraft.maintainViolationSpeed (base f)) then
          ret (set_currentSpeed LANDING_START_SPEED f)
        else ret f
      else ret f
  | LANDING =>
      let f :=
        if negb (Aircraft.maintainViolationSpeed (base f)) then
          set_currentSpeed
            (Z.max LANDING_END_SPEED
               (LANDING_START_SPEED
                - ((LANDING_START_SPEED - LANDING_END_SPEED) * stateTime f)
                    ÷ LANDING_TIME)) f
        else f in
      if stateTime f >=? LANDING_TIME then
        let f := set_maintainViolationSpeed false (enter TAXI f) in
        if negb (Aircraft.maintainViolationSpeed (base f)) then
          do v <- uniform_int TAXI_MIN_SPEED TAXI_MAX_SPEED;;
          ret (set_currentSpeed v f)
        else ret f
      else ret f
  | TAXI =>
      if stateTime f >=? TAXI_TIME then
        let f := set_maintainViolationSpeed false (enter AT_GATE f) in
        ret (set_currentSpeed 0 f)
      else ret f
  | AT_GATE =>
      ret (set_currentSpeed 0 (set_maintainViolationSpeed false f))
  end.

(** [currentSpeed = v; maintainViolationSpeed = true;
     violationSpeed = currentSpeed;] *)
Definition pin (v : Z) (f : t) : t :=
  set_violationSpeed v (set_maintainViolationSpeed true (set_currentSpeed v f)).

(** The part of [updateStatus] that randomly introduces a speed
    violation, or maintains the one introduced earlier in the phase. *)
Definition injectViolation (f : t) : M t :=
  if negb (Aircraft.hasActiveViolation (base f))
     && negb (Aircraft.isEmergency (base f))
     && negb (Aircraft.maintainViolationSpeed (base f))
  then
    do chance <- uniform_int 1 100;;
    if chance <=? VIOLATION_PROBABILITY ÷ 3 then
      do roll <- uniform_int 1 100;;
      if roll <=? VIOLATION_PROBABILITY then
        match state f with
        | HOLDING =>
            do excessSpeed <- uniform_int 5 MAX_VIOLATION_SPEED_EXCESS;;
            ret (pin (HOLDING_MAX_SPEED + excessSpeed) f)
        | APPROACH =>
            do excessSpeed <- uniform_int 5 MAX_VIOLATION_SPEED_EXCESS;;
            ret (pin (APPROACH_MAX_SPEED + excessSpeed) f)
        | LANDING =>
            if stateTime f >? LANDING_TIME ÷ 2 then
              do excessSpeed <- uniform_int 5 MAX_VIOLATION_SPEED_EXCESS;;
              ret (pin (Aircraft.currentSpeed (base f) + excessSpeed) f)
            else ret f
        | TAXI =>
            do excess <- uniform_int 5 MAX_VIOLATION_SPEED_EXCESS;;
            let excessSpeed := excess ÷ 2 in
            ret (pin (TAXI_MAX_SPEED + excessSpeed) f)
        | AT_GATE => ret f
        end
      else ret f
    else ret f
  else if Aircraft.maintainViolationSpeed (base f) then
    ret (set_currentSpeed (Aircraft.violationSpeed (base f)) f)
  else ret f.

(** [updateStatus]. *)
Definition updateStatus (simulationTime : Z) (f : t) : M t :=
  let f := {| base := base f; state := state f;
              stateTime := stateTime f + 1 |} in
  let previousState := state f in
  do f <- advance f;;
  let f := if decide (previousState ≠ state f)
           then set_maintainViolationSpeed false f else f in
  do f <- injectViolation f;;
  checkViolation f.

Definition isCompleted (f : t) : bool := bool_decide (state f = AT_GATE).
End ArrivalFlight.

(** ** Departure flights *)

Module DepartureFlight.
Import DepartureState.

Record t := {
  base : Aircraft.t;
  state : DepartureState.t;
  stateTime : Z
}.

Definition TAXI_TIME : Z := 15.
Definition TAKEOFF_TIME : Z := 10.
Definition CLIMB_TIME : Z := 20.

Definition with_base (b : Aircraft.t) (f : t) : t :=
  {| base := b; state := state f; stateTime := stateTime f |}.

Definition set_currentSpeed (v : Z) (f : t) : t :=
  with_base (Aircraft.set_currentSpeed v (base f)) f.
Definition set_maintainViolationSpeed (v : bool) (f : t) : t :=
  with_base (Aircraft.set_maintainViolationSpeed v (base f)) f.
Definition set_violationSpeed (v : Z) (f : t) : t :=
  with_base (Aircraft.set_violationSpeed v (base f)) f.

Definition enter (s : DepartureState.t) (f : t) : t :=
  {| base := base f; state := s; stateTime := 0 |}.

(** The constructor. *)
Definition new (flightNumber airline : string) (type : FlightType)
    (direction : Direction) (priority scheduledTime : Z) : M t :=
  do b <- Aircraft.new flightNumber airline type direction priority
            scheduledTime;;
  ret {| base := Aircraft.set_currentSpeed 0 b; state := AT_GATE;
         stateTime := 0 |}.

Definition getStateString (f : t) : string :=
  match state f with
  | AT_GATE => "At Gate"
  | TAXI => "Taxi"
  | TAKEOFF_ROLL => "Takeoff Roll"
  | CLIMB => "Climb"
  | CRUISE => "Cruise"
  end.

(** [checkViolation]. *)
Definition checkViolation (f : t) : M t :=
  let currentStateStr := getStateString f in
  if decide (currentStateStr ∈ Aircraft.violatedStates (base f)) then ret f
  else
    let currentSpeed := Aircraft.currentSpeed (base f) in
    let '(violation, minSpeed, maxSpeed) :=
      match state f with
      | AT_GATE =>
          if currentSpeed >? GATE_MAX_SPEED
          then (true, 0, GATE_MAX_SPEED)
          else (false, 0, 0)
      | TAXI =>
          if currentSpeed >? TAXI_MAX_SPEED
          then (true, TAXI_MIN_SPEED, TAXI_MAX_SPEED)
          else (false, 0, 0)
      | TAKEOFF_ROLL =>
          if currentSpeed >? TAKEOFF_MAX_SPEED
          then (true, 0, TAKEOFF_MAX_SPEED)
          else (false, 0, 0)
      | CLIMB =>
          if currentSpeed >? CLIMB_MAX_SPEED
          then (true, CLIMB_MIN_SPEED, CLIMB_MAX_SPEED)
          else (false, 0, 0)
      | CRUISE =>
          if (currentSpeed <? CRUISE_MIN_SPEED)
             || (currentSpeed >? CRUISE_MAX_SPEED)
          then (true, CRUISE_MIN_SPEED, CRUISE_MAX_SPEED)
          else (false, 0, 0)
      end in
    if violation then
      let b := Aircraft.set_hasActiveViolation true (base f) in
      do avnId <- next_departure_avnId;;
      do avn <- AVN.new avnId (Aircraft.airline b) (Aircraft.flightNumber b)
                  (Aircraft.type b) currentSpeed minSpeed maxSpeed;;
      let b := Aircraft.set_currentViolation (Some avn) b in
      let b := Aircraft.set_violatedStates
                 ({[ currentStateStr ]} ∪ Aircraft.violatedStates b) b in
      ret (with_base b f)
    else ret f.

(** The [switch] of [updateStatus] over the phases. *)
Definition advance (f : t) : M t :=
  match state f with
  | AT_GATE =>
      if bool_decide (Aircraft.assignedRunway (base f) ≠ NONE) then
        let f := set_maintainViolationSpeed false (enter TAXI f) in
        if negb (Aircraft.maintainViolationSpeed (base f)) then
          do v <- uniform_int TAXI_MIN_SPEED TAXI_MAX_SPEED;;
          ret (set_currentSpeed v f)
        else ret f
      else ret (set_currentSpeed 0 f)
  | TAXI =>
      if stateTime f >=? TAXI_TIME then
        let f := set_maintainViolationSpeed false (enter TAKEOFF_ROLL f) in
        if negb (Aircraft.maintainViolationSpeed (base f)) then
          ret (set_currentSpeed 0 f)
        else ret f
      else ret f
  | TAKEOFF_ROLL =>
      let f :=
        if negb (Aircraft.maintainViolationSpeed (base f)) then
          set_currentSpeed
            (Z.min TAKEOFF_MAX_SPEED
               ((TAKEOFF_MAX_SPEED * stateTime f) ÷ TAKEOFF_TIME)) f
        else f in
      if stateTime f >=? TAKEOFF_TIME then
        let f := set_maintainViolationSpeed false (enter CLIMB f) in
        if negb (Aircraft.maintainViolationSpeed (base f)) then
          do v <- uniform_int CLIMB_MIN_SPEED CLIMB_MAX_SPEED;;
          ret (set_currentSpeed v f)
        else ret f
      else ret f
  | CLIMB =>
      if stateTime f >=? CLIMB_TIME then
        let f := set_maintainViolationSpeed false (enter CRUISE f) in
        if negb (Aircraft.maintainViolationSpeed (base f)) then
          do v <- uniform_int CRUISE_MIN_SPEED CRUISE_MAX_SPEED;;
          ret (set_currentSpeed v f)
        else ret f
      else ret f
  | CRUISE => ret f
  end.

Definition pin (v : Z) (f : t) : t :=
  set_violationSpeed v (set_maintainViolationSpeed true (set_currentSpeed v f)).

(** The violation-injection part of [updateStatus]. *)
Definition injectViolation (f : t) : M t :=
  if negb (Aircraft.hasActiveViolation (base f))
     && negb (Aircraft.isEmergency (base f))
     && negb (Aircraft.maintainViolationSpeed (base f))
  then
    do chance <- uniform_int 1 100;;
    if chance <=? VIOLATION_PROBABILITY ÷ 3 then
      do roll <- uniform_int 1 100;;
      if roll <=? VIOLATION_PROBABILITY then
        match state f with
        | TAXI =>
            do excess <- uniform_int 5 MAX_VIOLATION_SPEED_EXCESS;;
            let excessSpeed := excess ÷ 2 in
            ret (pin (TAXI_MAX_SPEED + excessSpeed) f)
        | TAKEOFF_ROLL =>
            if stateTime f >? TAKEOFF_TIME ÷ 2 then
              do excessSpeed <- uniform_int 5 MAX_VIOLATION_SPEED_EXCESS;;
              ret (pin (TAKEOFF_MAX_SPEED + excessSpeed) f)
            else ret f
        | CLIMB =>
            do excessSpeed <- uniform_int 5 MAX_VIOLATION_SPEED_EXCESS;;
            ret (pin (CLIMB_MAX_SPEED + excessSpeed) f)
        | CRUISE =>
            do side <- uniform_int 1 100;;
            do excessSpeed <- uniform_int 5 MAX_VIOLATION_SPEED_EXCESS;;
            if side >? 50
            then ret (pin (CRUISE_MAX_SPEED + excessSpeed) f)
            else ret (pin (CRUISE_MIN_SPEED - excessSpeed) f)
        | AT_GATE => ret f
        end
      else ret f
    else ret f
  else if Aircraft.maintainViolationSpeed (base f) then
    ret (set_currentSpeed (Aircraft.violationSpeed (base f)) f)
  else ret f.

(** [updateStatus]. *)
Definition updateStatus (simulationTime : Z) (f : t) : M t :=
  let f := {| base := base f; state := state f;
              stateTime := stateTime f + 1 |} in
  let previousState := state f in
  do f <- advance f;;
  let f := if decide (previousState ≠ state f)
           then set_maintainViolationSpeed false f else f in
  do f <- injectViolation f;;
  checkViolation f.

Definition isCompleted (f : t) : bool := bool_decide (state f = CRUISE).
End DepartureFlight.

(** ** Objects of class [Aircraft] *)

(** An object is an [ArrivalFlight] or a [DepartureFlight]; the virtual
    methods dispatch on which. *)
Inductive Flight :=
| Arr (f : ArrivalFlight.t)
| Dep (f : DepartureFlight.t).

Definition base (x : Flight) : Aircraft.t :=
  match x with
  | Arr f => ArrivalFlight.base f
  | Dep f => DepartureFlight.base f
  end.

Definition with_base (b : Aircraft.t) (x : Flight) : Flight :=
  match x with
  | Arr f => Arr (ArrivalFlight.with_base b f)
  | Dep f => Dep (DepartureFlight.with_base b f)
  end.

Definition updateStatus (simulationTime : Z) (x : Flight) : M Flight :=
  match x with
  | Arr f => do f <- ArrivalFlight.updateStatus simulationTime f;; ret (Arr f)
  | Dep f => do f <- DepartureFlight.updateStatus simulationTime f;; ret (Dep f)
  end.

Definition isCompleted (x : Flight) : bool :=
  match x with
  | Arr f => ArrivalFlight.isCompleted f
  | Dep f => DepartureFlight.isCompleted f
  end.

(** ** Messages to the notice generator *)

Module IPCMessage.
Record t := {
  type : MessageType;
  avnId : Z;
  airline : string;
  flightNumber : string;
  amount : Double.t;
  details : string;
  minSpeed : Z;
  maxSpeed : Z
}.

(** [strncpy(dst, src, n - 1); dst[n - 1] = 0] into a buffer of [n]
    characters. *)
Definition copy (n : nat) (src : string) : string :=
  String.substring 0 (n - 1) src.
(** The constructor [IPCMessage::IPCMessage]: the three buffers hold the
    empty string. *)
Definition new : t :=
  {| type := AVN_CREATED; avnId := 0; airline := ""; flightNumber := "";
     amount := Double.zero; details := ""; minSpeed := 0; maxSpeed := 0 |}.
End IPCMessage.

(** ** [std::map<string, shared_ptr<Airline>>] *)

(** The map is kept as the list of its entries in the order of the keys,
    which is the order in which the program iterates over it. *)
Module AirlineMap.
Definition t := list (string * Airline.t).

Fixpoint find (k : string) (m : t) : option Airline.t :=
  match m with
  | [] => None
  | (k', v) :: m' => if String.eqb k k' then Some v else find k m'
  end.

(** [m[k] = v]. *)
Fixpoint insert (k : string) (v : Airline.t) (m : t) : t :=
  match m with
  | [] => [(k, v)]
  | (k', v') :: m' =>
      if String.eqb k k' then (k, v) :: m'
      else if String.ltb k k' then (k, v) :: (k', v') :: m'
      else (k', v') :: insert k v m'
  end.

(** A change of the object an entry points to. *)
Fixpoint update (k : string) (f : Airline.t -> Airline.t) (m : t) : t :=
  match m with
  | [] => []
  | (k', v) :: m' =>
      if String.eqb k k' then (k', f v) :: m' else (k', v) :: update k f m'
  end.
End AirlineMap.

(** ** The flight scheduler *)

Module FlightScheduler.

(** The store of aircraft is [allFlights]; a [shared_ptr<Aircraft>] is
    an index in it. The queues are the contents of the three
    [priority_queue]s; [avnWritePipe] is what has been written to the pipe. *)
Record t := {
  allFlights : list Flight;
  activeFlights : list nat;
  completedFlights : list nat;
  airlines : list (string * Airline.t);
  allAVNs : list AVN.t;
  currentSimulationTime : Z;
  lastNorthArrival : Z;
  lastSouthArrival : Z;
  lastEastDeparture : Z;
  lastWestDeparture : Z;
  runwayAAvailable : bool;
  runwayBAvailable : bool;
  runwayCAvailable : bool;
  runwayAQueue : list nat;
  runwayBQueue : list nat;
  runwayCQueue : list nat;
  runwayAOccupant : option nat;
  runwayBOccupant : option nat;
  runwayCOccupant : option nat;
  runwayAFreeTime : Z;
  runwayBFreeTime : Z;
  runwayCFreeTime : Z;
  avnWritePipe : list IPCMessage.t
}.

Definition set_allFlights (v : list Flight) (s : t) : t :=
  {| allFlights := v; activeFlights := activeFlights s;
     completedFlights := completedFlights s; airlines := airlines s;
     allAVNs := allAVNs s;
     currentSimulationTime := currentSimulationTime s;
     lastNorthArrival := lastNorthArrival s;
     lastSouthArrival := lastSouthArrival s;
     lastEastDeparture := lastEastDeparture s;
     lastWestDeparture := lastWestDeparture s;
     runwayAAvailable := runwayAAvailable s;
     runwayBAvailable := runwayBAvailable s;
     runwayCAvailable := runwayCAvailable s;
     runwayAQueue := runwayAQueue s; runwayBQueue := runwayBQueue s;
     runwayCQueue := runwayCQueue s; runwayAOccupant := runwayAOccupant s;
     runwayBOccupant := runwayBOccupant s;
     runwayCOccupant := runwayCOccupant s;
     runwayAFreeTime := runwayAFreeTime s;
     runwayBFreeTime := runwayBFreeTime s;
     runwayCFreeTime := runwayCFreeTime s;
     avnWritePipe := avnWritePipe s |}.

Definition set_activeFlights (v : list nat) (s : t) : t :=
  {| allFlights := allFlights s; activeFlights := v;
     completedFlights := completedFlights s; airlines := airlines s;
     allAVNs := allAVNs s;
     currentSimulationTime := currentSimulationTime s;
     lastNorthArrival := lastNorthArrival s;
     lastSouthArrival := lastSouthArrival s;
     lastEastDeparture := lastEastDeparture s;
     lastWestDeparture := lastWestDeparture s;
     runwayAAvailable := runwayAAvailable s;
     runwayBAvailable := runwayBAvailable s;
     runwayCAvailable := runwayCAvailable s;
     runwayAQueue := runwayAQueue s; runwayBQueue := runwayBQueue s;
     runwayCQueue := runwayCQueue s; runwayAOccupant := runwayAOccupant s;
     runwayBOccupant := runwayBOccupant s;
     runwayCOccupant := runwayCOccupant s;
     runwayAFreeTime := runwayAFreeTime s;
     runwayBFreeTime := runwayBFreeTime s;
     runwayCFreeTime := runwayCFreeTime s;
     avnWritePipe := avnWritePipe s |}.

Definition set_completedFlights (v : list nat) (s : t) : t :=
  {| allFlights := allFlights s; activeFlights := activeFlights s;
     completedFlights := v; airlines := airlines s; allAVNs := allAVNs s;
     currentSimulationTime := currentSimulationTime s;
     lastNorthArrival := lastNorthArrival s;
     lastSouthArrival := lastSouthArrival s;
     lastEastDeparture := lastEastDeparture s;
     lastWestDeparture := lastWestDeparture s;
     runwayAAvailable := runwayAAvailable s;
     runwayBAvailable := runwayBAvailable s;
     runwayCAvailable := runwayCAvailable s;
     runwayAQueue := runwayAQueue s; runwayBQueue := runwayBQueue s;
     runwayCQueue := runwayCQueue s; runwayAOccupant := runwayAOccupant s;
     runwayBOccupant := runwayBOccupant s;
     runwayCOccupant := runwayCOccupant s;
     runwayAFreeTime := runwayAFreeTime s;
     runwayBFreeTime := runwayBFreeTime s;
     runwayCFreeTime := runwayCFreeTime s;
     avnWritePipe := avnWritePipe s |}.

Definition set_airlines (v : list (string * Airline.t)) (s : t) : t :=
  {| allFlights := allFlights s; activeFlights := activeFlights s;
     completedFlights := completedFlights s; airlines := v;
     allAVNs := allAVNs s;
     currentSimulationTime := currentSimulationTime s;
     lastNorthArrival := lastNorthArrival s;
     lastSouthArrival := lastSouthArrival s;
     lastEastDeparture := lastEastDeparture s;
     lastWestDeparture := lastWestDeparture s;
     runwayAAvailable := runwayAAvailable s;
     runwayBAvailable := runwayBAvailable s;
     runwayCAvailable := runwayCAvailable s;
     runwayAQueue := runwayAQueue s; runwayBQueue := runwayBQueue s;
     runwayCQueue := runwayCQueue s; runwayAOccupant := runwayAOccupant s;
     runwayBOccupant := runwayBOccupant s;
     runwayCOccupant := runwayCOccupant s;
     runwayAFreeTime := runwayAFreeTime s;
     runwayBFreeTime := runwayBFreeTime s;
     runwayCFreeTime := runwayCFreeTime s;
     avnWritePipe := avnWritePipe s |}.

Definition set_allAVNs (v : list AVN.t) (s : t) : t :=
  {| allFlights := allFlights s; activeFlights := activeFlights s;
     completedFlights := completedFlights s; airlines := airlines s;
     allAVNs := v; currentSimulationTime := currentSimulationTime s;
     lastNorthArrival := lastNorthArrival s;
     lastSouthArrival := lastSouthArrival s;
     lastEastDeparture := lastEastDeparture s;
     lastWestDeparture := lastWestDeparture s;
     runwayAAvailable := runwayAAvailable s;
     runwayBAvailable := runwayBAvailable s;
     runwayCAvailable := runwayCAvailable s;
     runwayAQueue := runwayAQueue s; runwayBQueue := runwayBQueue s;
     runwayCQueue := runwayCQueue s; runwayAOccupant := runwayAOccupant s;
     runwayBOccupant := runwayBOccupant s;
     runwayCOccupant := runwayCOccupant s;
     runwayAFreeTime := runwayAFreeTime s;
     runwayBFreeTime := runwayBFreeTime s;
     runwayCFreeTime := runwayCFreeTime s;
     avnWritePipe := avnWritePipe s |}.

Definition set_currentSimulationTime (v : Z) (s : t) : t :=
  {| allFlights := allFlights s; activeFlights := activeFlights s;
     completedFlights := completedFlights s; airlines := airlines s;
     allAVNs := allAVNs s; currentSimulationTime := v;
     lastNorthArrival := lastNorthArrival s;
     lastSouthArrival := lastSouthArrival s;
     lastEastDeparture := lastEastDeparture s;
     lastWestDeparture := lastWestDeparture s;
     runwayAAvailable := runwayAAvailable s;
     runwayBAvailable := runwayBAvailable s;
     runwayCAvailable := runwayCAvailable s;
     runwayAQueue := runwayAQueue s; runwayBQueue := runwayBQueue s;
     runwayCQueue := runwayCQueue s; runwayAOccupant := runwayAOccupant s;
     runwayBOccupant := runwayBOccupant s;
     runwayCOccupant := runwayCOccupant s;
     runwayAFreeTime := runwayAFreeTime s;
     runwayBFreeTime := runwayBFreeTime s;
     runwayCFreeTime := runwayCFreeTime s;
     avnWritePipe := avnWritePipe s |}.

Definition set_lastNorthArrival (v : Z) (s : t) : t :=
  {| allFlights := allFlights s; activeFlights := activeFlights s;
     completedFlights := completedFlights s; airlines := airlines s;
     allAVNs := allAVNs s;
     currentSimulationTime := currentSimulationTime s;
     lastNorthArrival := v; lastSouthArrival := lastSouthArrival s;
     lastEastDeparture := lastEastDeparture s;
     lastWestDeparture := lastWestDeparture s;
     runwayAAvailable := runwayAAvailable s;
     runwayBAvailable := runwayBAvailable s;
     runwayCAvailable := runwayCAvailable s;
     runwayAQueue := runwayAQueue s; runwayBQueue := runwayBQueue s;
     runwayCQueue := runwayCQueue s; runwayAOccupant := runwayAOccupant s;
     runwayBOccupant := runwayBOccupant s;
     runwayCOccupant := runwayCOccupant s;
     runwayAFreeTime := runwayAFreeTime s;
     runwayBFreeTime := runwayBFreeTime s;
     runwayCFreeTime := runwayCFreeTime s;
     avnWritePipe := avnWritePipe s |}.

Definition set_lastSouthArrival (v : Z) (s : t) : t :=
  {| allFlights := allFlights s; activeFlights := activeFlights s;
     completedFlights := completedFlights s; airlines := airlines s;
     allAVNs := allAVNs s;
     currentSimulationTime := currentSimulationTime s;
     lastNorthArrival := lastNorthArrival s; lastSouthArrival := v;
     lastEastDeparture := lastEastDeparture s;
     lastWestDeparture := lastWestDeparture s;
     runwayAAvailable := runwayAAvailable s;
     runwayBAvailable := runwayBAvailable s;
     runwayCAvailable := runwayCAvailable s;
     runwayAQueue := runwayAQueue s; runwayBQueue := runwayBQueue s;
     runwayCQueue := runwayCQueue s; runwayAOccupant := runwayAOccupant s;
     runwayBOccupant := runwayBOccupant s;
     runwayCOccupant := runwayCOccupant s;
     runwayAFreeTime := runwayAFreeTime s;
     runwayBFreeTime := runwayBFreeTime s;
     runwayCFreeTime := runwayCFreeTime s;
     avnWritePipe := avnWritePipe s |}.

Definition set_lastEastDeparture (v : Z) (s : t) : t :=
  {| allFlights := allFlights s; activeFlights := activeFlights s;
     completedFlights := completedFlights s; airlines := airlines s;
     allAVNs := allAVNs s;
     currentSimulationTime := currentSimulationTime s;
     lastNorthArrival := lastNorthArrival s;
     lastSouthArrival := lastSouthArrival s; lastEastDeparture := v;
     lastWestDeparture := lastWestDeparture s;
     runwayAAvailable := runwayAAvailable s;
     runwayBAvailable := runwayBAvailable s;
     runwayCAvailable := runwayCAvailable s;
     runwayAQueue := runwayAQueue s; runwayBQueue := runwayBQueue s;
     runwayCQueue := runwayCQueue s; runwayAOccupant := runwayAOccupant s;
     runwayBOccupant := runwayBOccupant s;
     runwayCOccupant := runwayCOccupant s;
     runwayAFreeTime := runwayAFreeTime s;
     runwayBFreeTime := runwayBFreeTime s;
     runwayCFreeTime := runwayCFreeTime s;
     avnWritePipe := avnWritePipe s |}.

Definition set_lastWestDeparture (v : Z) (s : t) : t :=
  {| allFlights := allFlights s; activeFlights := activeFlights s;
     completedFlights := completedFlights s; airlines := airlines s;
     allAVNs := allAVNs s;
     currentSimulationTime := currentSimulationTime s;
     lastNorthArrival := lastNorthArrival s;
     lastSouthArrival := lastSouthArrival s;
     lastEastDeparture := lastEastDeparture s; lastWestDeparture := v;
     runwayAAvailable := runwayAAvailable s;
     runwayBAvailable := runwayBAvailable s;
     runwayCAvailable := runwayCAvailable s;
     runwayAQueue := runwayAQueue s; runwayBQueue := runwayBQueue s;
     runwayCQueue := runwayCQueue s; runwayAOccupant := runwayAOccupant s;
     runwayBOccupant := runwayBOccupant s;
     runwayCOccupant := runwayCOccupant s;
     runwayAFreeTime := runwayAFreeTime s;
     runwayBFreeTime := runwayBFreeTime s;
     runwayCFreeTime := runwayCFreeTime s;
     avnWritePipe := avnWritePipe s |}.

Definition set_runwayAAvailable (v : bool) (s : t) : t :=
  {| allFlights := allFlights s; activeFlights := activeFlights s;
     completedFlights := completedFlights s; airlines := airlines s;
     allAVNs := allAVNs s;
     currentSimulationTime := currentSimulationTime s;
     lastNorthArrival := lastNorthArrival s;
     lastSouthArrival := lastSouthArrival s;
     lastEastDeparture := lastEastDeparture s;
     lastWestDeparture := lastWestDeparture s; runwayAAvailable := v;
     runwayBAvailable := runwayBAvailable s;
     runwayCAvailable := runwayCAvailable s;
     runwayAQueue := runwayAQueue s; runwayBQueue := runwayBQueue s;
     runwayCQueue := runwayCQueue s; runwayAOccupant := runwayAOccupant s;
     runwayBOccupant := runwayBOccupant s;
     runwayCOccupant := runwayCOccupant s;
     runwayAFreeTime := runwayAFreeTime s;
     runwayBFreeTime := runwayBFreeTime s;
     runwayCFreeTime := runwayCFreeTime s;
     avnWritePipe := avnWritePipe s |}.

Definition set_runwayBAvailable (v : bool) (s : t) : t :=
  {| allFlights := allFlights s; activeFlights := activeFlights s;
     completedFlights := completedFlights s; airlines := airlines s;
     allAVNs := allAVNs s;
     currentSimulationTime := currentSimulationTime s;
     lastNorthArrival := lastNorthArrival s;
     lastSouthArrival := lastSouthArrival s;
     lastEastDeparture := lastEastDeparture s;
     lastWestDeparture := lastWestDeparture s;
     runwayAAvailable := runwayAAvailable s; runwayBAvailable := v;
     runwayCAvailable := runwayCAvailable s;
     runwayAQueue := runwayAQueue s; runwayBQueue := runwayBQueue s;
     runwayCQueue := runwayCQueue s; runwayAOccupant := runwayAOccupant s;
     runwayBOccupant := runwayBOccupant s;
     runwayCOccupant := runwayCOccupant s;
     runwayAFreeTime := runwayAFreeTime s;
     runwayBFreeTime := runwayBFreeTime s;
     runwayCFreeTime := runwayCFreeTime s;
     avnWritePipe := avnWritePipe s |}.

Definition set_runwayCAvailable (v : bool) (s : t) : t :=
  {| allFlights := allFlights s; activeFlights := activeFlights s;
     completedFlights := completedFlights s; airlines := airlines s;
     allAVNs := allAVNs s;
     currentSimulationTime := currentSimulationTime s;
     lastNorthArrival := lastNorthArrival s;
     lastSouthArrival := lastSouthArrival s;
     lastEastDeparture := lastEastDeparture s;
     lastWestDeparture := lastWestDeparture s;
     runwayAAvailable := runwayAAvailable s;
     runwayBAvailable := runwayBAvailable s; runwayCAvailable := v;
     runwayAQueue := runwayAQueue s; runwayBQueue := runwayBQueue s;
     runwayCQueue := runwayCQueue s; runwayAOccupant := runwayAOccupant s;
     runwayBOccupant := runwayBOccupant s;
     runwayCOccupant := runwayCOccupant s;
     runwayAFreeTime := runwayAFreeTime s;
     runwayBFreeTime := runwayBFreeTime s;
     runwayCFreeTime := runwayCFreeTime s;
     avnWritePipe := avnWritePipe s |}.

Definition set_runwayAQueue (v : list nat) (s : t) : t :=
  {| allFlights := allFlights s; activeFlights := activeFlights s;
     completedFlights := completedFlights s; airlines := airlines s;
     allAVNs := allAVNs s;
     currentSimulationTime := currentSimulationTime s;
     lastNorthArrival := lastNorthArrival s;
     lastSouthArrival := lastSouthArrival s;
     lastEastDeparture := lastEastDeparture s;
     lastWestDeparture := lastWestDeparture s;
     runwayAAvailable := runwayAAvailable s;
     runwayBAvailable := runwayBAvailable s;
     runwayCAvailable := runwayCAvailable s; runwayAQueue := v;
     runwayBQueue := runwayBQueue s; runwayCQueue := runwayCQueue s;
     runwayAOccupant := runwayAOccupant s;
     runwayBOccupant := runwayBOccupant s;
     runwayCOccupant := runwayCOccupant s;
     runwayAFreeTime := runwayAFreeTime s;
     runwayBFreeTime := runwayBFreeTime s;
     runwayCFreeTime := runwayCFreeTime s;
     avnWritePipe := avnWritePipe s |}.

Definition set_runwayBQueue (v : list nat) (s : t) : t :=
  {| allFlights := allFlights s; activeFlights := activeFlights s;
     completedFlights := completedFlights s; airlines := airlines s;
     allAVNs := allAVNs s;
     currentSimulationTime := currentSimulationTime s;
     lastNorthArrival := lastNorthArrival s;
     lastSouthArrival := lastSouthArrival s;
     lastEastDeparture := lastEastDeparture s;
     lastWestDeparture := lastWestDeparture s;
     runwayAAvailable := runwayAAvailable s;
     runwayBAvailable := runwayBAvailable s;
     runwayCAvailable := runwayCAvailable s;
     runwayAQueue := runwayAQueue s; runwayBQueue := v;
     runwayCQueue := runwayCQueue s; runwayAOccupant := runwayAOccupant s;
     runwayBOccupant := runwayBOccupant s;
     runwayCOccupant := runwayCOccupant s;
     runwayAFreeTime := runwayAFreeTime s;
     runwayBFreeTime := runwayBFreeTime s;
     runwayCFreeTime := runwayCFreeTime s;
     avnWritePipe := avnWritePipe s |}.

Definition set_runwayCQueue (v : list nat) (s : t) : t :=
  {| allFlights := allFlights s; activeFlights := activeFlights s;
     completedFlights := completedFlights s; airlines := airlines s;
     allAVNs := allAVNs s;
     currentSimulationTime := currentSimulationTime s;
     lastNorthArrival := lastNorthArrival s;
     lastSouthArrival := lastSouthArrival s;
     lastEastDeparture := lastEastDeparture s;
     lastWestDeparture := lastWestDeparture s;
     runwayAAvailable := runwayAAvailable s;
     runwayBAvailable := runwayBAvailable s;
     runwayCAvailable := runwayCAvailable s;
     runwayAQueue := runwayAQueue s; runwayBQueue := runwayBQueue s;
     runwayCQueue := v; runwayAOccupant := runwayAOccupant s;
     runwayBOccupant := runwayBOccupant s;
     runwayCOccupant := runwayCOccupant s;
     runwayAFreeTime := runwayAFreeTime s;
     runwayBFreeTime := runwayBFreeTime s;
     runwayCFreeTime := runwayCFreeTime s;
     avnWritePipe := avnWritePipe s |}.

Definition set_runwayAOccupant (v : option nat) (s : t) : t :=
  {| allFlights := allFlights s; activeFlights := activeFlights s;
     completedFlights := completedFlights s; airlines := airlines s;
     allAVNs := allAVNs s;
     currentSimulationTime := currentSimulationTime s;
     lastNorthArrival := lastNorthArrival s;
     lastSouthArrival := lastSouthArrival s;
     lastEastDeparture := lastEastDeparture s;
     lastWestDeparture := lastWestDeparture s;
     runwayAAvailable := runwayAAvailable s;
     runwayBAvailable := runwayBAvailable s;
     runwayCAvailable := runwayCAvailable s;
     runwayAQueue := runwayAQueue s; runwayBQueue := runwayBQueue s;
     runwayCQueue := runwayCQueue s; runwayAOccupant := v;
     runwayBOccupant := runwayBOccupant s;
     runwayCOccupant := runwayCOccupant s;
     runwayAFreeTime := runwayAFreeTime s;
     runwayBFreeTime := runwayBFreeTime s;
     runwayCFreeTime := runwayCFreeTime s;
     avnWritePipe := avnWritePipe s |}.

Definition set_runwayBOccupant (v : option nat) (s : t) : t :=
  {| allFlights := allFlights s; activeFlights := activeFlights s;
     completedFlights := completedFlights s; airlines := airlines s;
     allAVNs := allAVNs s;
     currentSimulationTime := currentSimulationTime s;
     lastNorthArrival := lastNorthArrival s;
     lastSouthArrival := lastSouthArrival s;
     lastEastDeparture := lastEastDeparture s;
     lastWestDeparture := lastWestDeparture s;
     runwayAAvailable := runwayAAvailable s;
     runwayBAvailable := runwayBAvailable s;
     runwayCAvailable := runwayCAvailable s;
     runwayAQueue := runwayAQueue s; runwayBQueue := runwayBQueue s;
     runwayCQueue := runwayCQueue s; runwayAOccupant := runwayAOccupant s;
     runwayBOccupant := v; runwayCOccupant := runwayCOccupant s;
     runwayAFreeTime := runwayAFreeTime s;
     runwayBFreeTime := runwayBFreeTime s;
     runwayCFreeTime := runwayCFreeTime s;
     avnWritePipe := avnWritePipe s |}.

Definition set_runwayCOccupant (v : option nat) (s : t) : t :=
  {| allFlights := allFlights s; activeFlights := activeFlights s;
     completedFlights := completedFlights s; airlines := airlines s;
     allAVNs := allAVNs s;
     currentSimulationTime := currentSimulationTime s;
     lastNorthArrival := lastNorthArrival s;
     lastSouthArrival := lastSouthArrival s;
     lastEastDeparture := lastEastDeparture s;
     lastWestDeparture := lastWestDeparture s;
     runwayAAvailable := runwayAAvailable s;
     runwayBAvailable := runwayBAvailable s;
     runwayCAvailable := runwayCAvailable s;
     runwayAQueue := runwayAQueue s; runwayBQueue := runwayBQueue s;
     runwayCQueue := runwayCQueue s; runwayAOccupant := runwayAOccupant s;
     runwayBOccupant := runwayBOccupant s; runwayCOccupant := v;
     runwayAFreeTime := runwayAFreeTime s;
     runwayBFreeTime := runwayBFreeTime s;
     runwayCFreeTime := runwayCFreeTime s;
     avnWritePipe := avnWritePipe s |}.

Definition set_runwayAFreeTime (v : Z) (s : t) : t :=
  {| allFlights := allFlights s; activeFlights := activeFlights s;
     completedFlights := completedFlights s; airlines := airlines s;
     allAVNs := allAVNs s;
     currentSimulationTime := currentSimulationTime s;
     lastNorthArrival := lastNorthArrival s;
     lastSouthArrival := lastSouthArrival s;
     lastEastDeparture := lastEastDeparture s;
     lastWestDeparture := lastWestDeparture s;
     runwayAAvailable := runwayAAvailable s;
     runwayBAvailable := runwayBAvailable s;
     runwayCAvailable := runwayCAvailable s;
     runwayAQueue := runwayAQueue s; runwayBQueue := runwayBQueue s;
     runwayCQueue := runwayCQueue s; runwayAOccupant := runwayAOccupant s;
     runwayBOccupant := runwayBOccupant s;
     runwayCOccupant := runwayCOccupant s; runwayAFreeTime := v;
     runwayBFreeTime := runwayBFreeTime s;
     runwayCFreeTime := runwayCFreeTime s;
     avnWritePipe := avnWritePipe s |}.

Definition set_runwayBFreeTime (v : Z) (s : t) : t :=
  {| allFlights := allFlights s; activeFlights := activeFlights s;
     completedFlights := completedFlights s; airlines := airlines s;
     allAVNs := allAVNs s;
     currentSimulationTime := currentSimulationTime s;
     lastNorthArrival := lastNorthArrival s;
     lastSouthArrival := lastSouthArrival s;
     lastEastDeparture := lastEastDeparture s;
     lastWestDeparture := lastWestDeparture s;
     runwayAAvailable := runwayAAvailable s;
     runwayBAvailable := runwayBAvailable s;
     runwayCAvailable := runwayCAvailable s;
     runwayAQueue := runwayAQueue s; runwayBQueue := runwayBQueue s;
     runwayCQueue := runwayCQueue s; runwayAOccupant := runwayAOccupant s;
     runwayBOccupant := runwayBOccupant s;
     runwayCOccupant := runwayCOccupant s;
     runwayAFreeTime := runwayAFreeTime s; runwayBFreeTime := v;
     runwayCFreeTime := runwayCFreeTime s;
     avnWritePipe := avnWritePipe s |}.

Definition set_runwayCFreeTime (v : Z) (s : t) : t :=
  {| allFlights := allFlights s; activeFlights := activeFlights s;
     completedFlights := completedFlights s; airlines := airlines s;
     allAVNs := allAVNs s;
     currentSimulationTime := currentSimulationTime s;
     lastNorthArrival := lastNorthArrival s;
     lastSouthArrival := lastSouthArrival s;
     lastEastDeparture := lastEastDeparture s;
     lastWestDeparture := lastWestDeparture s;
     runwayAAvailable := runwayAAvailable s;
     runwayBAvailable := runwayBAvailable s;
     runwayCAvailable := runwayCAvailable s;
     runwayAQueue := runwayAQueue s; runwayBQueue := runwayBQueue s;
     runwayCQueue := runwayCQueue s; runwayAOccupant := runwayAOccupant s;
     runwayBOccupant := runwayBOccupant s;
     runwayCOccupant := runwayCOccupant s;
     runwayAFreeTime := runwayAFreeTime s;
     runwayBFreeTime := runwayBFreeTime s; runwayCFreeTime := v;
     avnWritePipe := avnWritePipe s |}.

Definition set_avnWritePipe (v : list IPCMessage.t) (s : t) : t :=
  {| allFlights := allFlights s; activeFlights := activeFlights s;
     completedFlights := completedFlights s; airlines := airlines s;
     allAVNs := allAVNs s;
     currentSimulationTime := currentSimulationTime s;
     lastNorthArrival := lastNorthArrival s;
     lastSouthArrival := lastSouthArrival s;
     lastEastDeparture := lastEastDeparture s;
     lastWestDeparture := lastWestDeparture s;
     runwayAAvailable := runwayAAvailable s;
     runwayBAvailable := runwayBAvailable s;
     runwayCAvailable := runwayCAvailable s;
     runwayAQueue := runwayAQueue s; runwayBQueue := runwayBQueue s;
     runwayCQueue := runwayCQueue s; runwayAOccupant := runwayAOccupant s;
     runwayBOccupant := runwayBOccupant s;
     runwayCOccupant := runwayCOccupant s;
     runwayAFreeTime := runwayAFreeTime s;
     runwayBFreeTime := runwayBFreeTime s;
     runwayCFreeTime := runwayCFreeTime s; avnWritePipe := v |}.

(** *** The store *)

(** [p->member = v] for a member of [Aircraft]: the object [p] points to
    is changed in the store, for every holder of the pointer. *)
Definition store (p : nat) (f : Aircraft.t -> Aircraft.t) (s : t) : t :=
  set_allFlights (alter (fun x => with_base (f (base x)) x) p (allFlights s)) s.

(** *** The priority queues *)

(** [CompareAircraftPriority]: [true] when [a] comes after [b]. *)
Definition CompareAircraftPriority (a b : Aircraft.t) : bool :=
  if bool_decide (Aircraft.priority a ≠ Aircraft.priority b)
  then Aircraft.priority a <? Aircraft.priority b
  else Aircraft.scheduledTime a >? Aircraft.scheduledTime b.

(** The comparator on the pointers held by a queue. *)
Definition comparePtr (heap : list Flight) (p q : nat) : bool :=
  match heap !! p, heap !! q with
  | Some a, Some b => CompareAircraftPriority (base a) (base b)
  | _, _ => false
  end.

(** [q.top()] together with [q.pop()]: an element that no other element
    of the queue comes before, and the queue without it. Among elements
    that the comparator does not order the standard leaves the choice to
    the implementation; here it is the one pushed last. *)
Fixpoint pq_pop (heap : list Flight) (q : list nat)
    : option (nat * list nat) :=
  match q with
  | [] => None
  | p :: q' =>
      match pq_pop heap q' with
      | None => Some (p, [])
      | Some (m, r) =>
          if comparePtr heap p m then Some (m, p :: r) else Some (p, q')
      end
  end.

(** [q.push(p)]. *)
Definition pq_push (p : nat) (q : list nat) : list nat := p :: q.

(** *** Construction *)

Definition new : t :=
  let airlines : AirlineMap.t := [] in
  let airlines := AirlineMap.insert "PIA" (Airline.new "PIA" 6 4) airlines in
  let airlines :=
    AirlineMap.insert "AirBlue" (Airline.new "AirBlue" 4 4) airlines in
  let airlines := AirlineMap.insert "FedEx" (Airline.new "FedEx" 3 2) airlines in
  let airlines :=
    AirlineMap.insert "Pakistan Airforce"
      (Airline.new "Pakistan Airforce" 2 1) airlines in
  let airlines :=
    AirlineMap.insert "Blue Dart" (Airline.new "Blue Dart" 2 2) airlines in
  let airlines :=
    AirlineMap.insert "AghaKhan Air Ambulance"
      (Airline.new "AghaKhan Air Ambulance" 2 1) airlines in
  {| allFlights := []; activeFlights := []; completedFlights := [];
     airlines := airlines; allAVNs := [];
     currentSimulationTime := 0;
     lastNorthArrival := 0; lastSouthArrival := 0;
     lastEastDeparture := 0; lastWestDeparture := 0;
     runwayAAvailable := true; runwayBAvailable := true;
     runwayCAvailable := true;
     runwayAQueue := []; runwayBQueue := []; runwayCQueue := [];
     runwayAOccupant := None; runwayBOccupant := None;
     runwayCOccupant := None;
     runwayAFreeTime := 0; runwayBFreeTime := 0; runwayCFreeTime := 0;
     avnWritePipe := [] |}.

(** *** [generateFlights] *)

(** The four blocks of [generateFlights] are the same code up to the
    probability of an emergency, the airline whose flights are typed
    [EMERGENCY] (none for the West departures), the base of the flight
    number, the direction with the class of the flight it implies, and the
    queue the flight is pushed on. [spawn] is that code. *)
Definition spawn (probability : Z) (emergencyAirline : option string)
    (numberBase : Z) (direction : Direction) (s : t) : M t :=
  do e <- uniform_int 1 100;;
  let isEmergency := e <=? probability in
  let airlineNames :=
    (filter (fun pair => 0 < Airline.activeFlights pair.2) (airlines s)).*1 in
  do k <- uniform_int 0 (Z.of_nat (length airlineNames) - 1);;
  let airline := default "" (airlineNames !! Z.to_nat k) in
  let type := COMMERCIAL in
  let type :=
    if String.eqb airline "FedEx" || String.eqb airline "Blue Dart"
    then CARGO else type in
  let type :=
    if isEmergency
       || from_option (String.eqb airline) false emergencyAirline
    then EMERGENCY else type in
  let flightNumber :=
    String.substring 0 2 airline +:+ "-"
      +:+ pretty (numberBase + Z.of_nat (length (allFlights s))) in
  let priority :=
    if isEmergency then 3 else if decide (type = CARGO) then 2 else 1 in
  do now <- system_clock_now;;
  do flight <-
    match direction with
    | NORTH | SOUTH =>
        do f <- ArrivalFlight.new flightNumber airline type direction
                  priority now;;
        ret (Arr f)
    | EAST | WEST =>
        do f <- DepartureFlight.new flightNumber airline type direction
                  priority now;;
        ret (Dep f)
    end;;
  let flight :=
    with_base (Aircraft.set_isEmergency isEmergency (base flight)) flight in
  let p := length (allFlights s) in
  let s := set_allFlights (allFlights s ++ [flight]) s in
  let s := set_activeFlights (activeFlights s ++ [p]) s in
  let s :=
    match direction with
    | NORTH | SOUTH => set_runwayAQueue (pq_push p (runwayAQueue s)) s
    | EAST | WEST => set_runwayBQueue (pq_push p (runwayBQueue s)) s
    end in
  ret s.

Definition generateFlights (s : t) : M t :=
  do s <-
    (if (currentSimulationTime s - lastNorthArrival s >=? ARRIVAL_NORTH_INTERVAL)
       || (currentSimulationTime s =? 1)
    then
      let s := set_lastNorthArrival (currentSimulationTime s) s in
      spawn NORTH_EMERGENCY_PROBABILITY (Some "Pakistan Airforce") 1000 NORTH s
    else ret s);;
  do s <-
    (if (currentSimulationTime s - lastSouthArrival s >=? ARRIVAL_SOUTH_INTERVAL)
       || (currentSimulationTime s =? 2)
    then
      let s := set_lastSouthArrival (currentSimulationTime s) s in
      spawn SOUTH_EMERGENCY_PROBABILITY (Some "AghaKhan Air Ambulance") 1000
        SOUTH s
    else ret s);;
  do s <-
    (if (currentSimulationTime s - lastEastDeparture s
          >=? DEPARTURE_EAST_INTERVAL)
       || (currentSimulationTime s =? 3)
    then
      let s := set_lastEastDeparture (currentSimulationTime s) s in
      spawn EAST_EMERGENCY_PROBABILITY (Some "Pakistan Airforce") 2000 EAST s
    else ret s);;
  if (currentSimulationTime s - lastWestDeparture s
        >=? DEPARTURE_WEST_INTERVAL)
     || (currentSimulationTime s =? 4)
  then
    let s := set_lastWestDeparture (currentSimulationTime s) s in
    spawn WEST_EMERGENCY_PROBABILITY None 2000 WEST s
  else ret s.

(** *** [assignRunways] *)

(** The three places where a runway is handed to [aircraft]. *)
Definition takeRunwayA (p : nat) (s : t) : t :=
  let s := set_runwayAAvailable false s in
  let s := set_runwayAOccupant (Some p) s in
  store p (Aircraft.set_assignedRunway RWY_A) s.

Definition takeRunwayB (p : nat) (s : t) : t :=
  let s := set_runwayBAvailable false s in
  let s := set_runwayBOccupant (Some p) s in
  store p (Aircraft.set_assignedRunway RWY_B) s.

Definition takeRunwayC (p : nat) (s : t) : t :=
  let s := set_runwayCAvailable false s in
  let s := set_runwayCOccupant (Some p) s in
  store p (Aircraft.set_assignedRunway RWY_C) s.

(** [if (runwayXAvailable && currentSimulationTime >= runwayXFreeTime)
    { ...; assigned = true; }] *)
Definition tryRunwayA (p : nat) (s : t) (assigned : bool) : t * bool :=
  if runwayAAvailable s && (currentSimulationTime s >=? runwayAFreeTime s)
  then (takeRunwayA p s, true) else (s, assigned).

Definition tryRunwayB (p : nat) (s : t) (assigned : bool) : t * bool :=
  if runwayBAvailable s && (currentSimulationTime s >=? runwayBFreeTime s)
  then (takeRunwayB p s, true) else (s, assigned).

Definition tryRunwayC (p : nat) (s : t) (assigned : bool) : t * bool :=
  if runwayCAvailable s && (currentSimulationTime s >=? runwayCFreeTime s)
  then (takeRunwayC p s, true) else (s, assigned).

(** The body of the loop over [runwayAQueue], for the aircraft [p] just
    popped; [tempAQueue] is the local queue of the flights left waiting. A
    pointer of a queue always refers to an aircraft of the store. *)
Definition processRunwayA (p : nat) (s : t) (tempAQueue : list nat)
    : t * list nat :=
  match allFlights s !! p with
  | None => (s, tempAQueue)
  | Some x =>
      let aircraft := base x in
      if decide (Aircraft.assignedRunway aircraft ≠ NONE)
      then (s, pq_push p tempAQueue)
      else
        let assigned := false in
        let '(s, assigned) :=
          if bool_decide (Aircraft.type aircraft = EMERGENCY)
             || bool_decide (Aircraft.type aircraft = CARGO)
          then tryRunwayC p s assigned else (s, assigned) in
        let '(s, assigned) :=
          if negb assigned
             && (bool_decide (Aircraft.direction aircraft = NORTH)
                 || bool_decide (Aircraft.direction aircraft = SOUTH))
          then tryRunwayA p s assigned else (s, assigned) in
        let '(s, assigned) :=
          if negb assigned && bool_decide (Aircraft.type aircraft ≠ CARGO)
          then tryRunwayC p s assigned else (s, assigned) in
        if negb assigned then (s, pq_push p tempAQueue) else (s, tempAQueue)
  end.

(** The body of the loop over [runwayBQueue]. *)
Definition processRunwayB (p : nat) (s : t) (tempBQueue : list nat)
    : t * list nat :=
  match allFlights s !! p with
  | None => (s, tempBQueue)
  | Some x =>
      let aircraft := base x in
      if decide (Aircraft.assignedRunway aircraft ≠ NONE)
      then (s, pq_push p tempBQueue)
      else
        let assigned := false in
        let '(s, assigned) :=
          if bool_decide (Aircraft.type aircraft = EMERGENCY)
             || bool_decide (Aircraft.type aircraft = CARGO)
          then tryRunwayC p s assigned else (s, assigned) in
        let '(s, assigned) :=
          if negb assigned
             && (bool_decide (Aircraft.direction aircraft = EAST)
                 || bool_decide (Aircraft.direction aircraft = WEST))
          then tryRunwayB p s assigned else (s, assigned) in
        let '(s, assigned) :=
          if negb assigned && bool_decide (Aircraft.type aircraft ≠ CARGO)
          then tryRunwayC p s assigned else (s, assigned) in
        if negb assigned then (s, pq_push p tempBQueue) else (s, tempBQueue)
  end.

(** The body of the loop over [runwayCQueue]. *)
Definition processRunwayC (p : nat) (s : t) (tempCQueue : list nat)
    : t * list nat :=
  match allFlights s !! p with
  | None => (s, tempCQueue)
  | Some x =>
      let aircraft := base x in
      if decide (Aircraft.assignedRunway aircraft ≠ NONE)
      then (s, pq_push p tempCQueue)
      else
        let assigned := false in
        let '(s, assigned) := tryRunwayC p s assigned in
        if negb assigned then (s, pq_push p tempCQueue) else (s, tempCQueue)
  end.

(** [while (!queue.empty()) { p = queue.top(); queue.pop(); body }]. Every
    turn takes one pointer off the queue and the body pushes on the local
    queue only, so the loop makes as many turns as the queue has elements:
    [n] counts them. *)
Fixpoint drain (queue : t -> list nat) (set_queue : list nat -> t -> t)
    (body : nat -> t -> list nat -> t * list nat)
    (n : nat) (s : t) (temp : list nat) : t * list nat :=
  match n with
  | O => (s, temp)
  | S n' =>
      match pq_pop (allFlights s) (queue s) with
      | None => (s, temp)
      | Some (p, rest) =>
          let s := set_queue rest s in
          let '(s, temp) := body p s temp in
          drain queue set_queue body n' s temp
      end
  end.

(** The body of the loop that releases the runways. *)
Definition releaseRunway (p : nat) (s : t) : t :=
  match allFlights s !! p with
  | None => s
  | Some flight =>
      if decide (Aircraft.assignedRunway (base flight) ≠ NONE) then
        let release := false in
        let release :=
          match flight with
          | Arr arrival =>
              if bool_decide (ArrivalFlight.state arrival = ArrivalState.TAXI)
                 || bool_decide
                      (ArrivalFlight.state arrival = ArrivalState.AT_GATE)
              then true else release
          | Dep _ => release
          end in
        let release :=
          match flight with
          | Dep departure =>
              if bool_decide
                   (DepartureFlight.state departure = DepartureState.CLIMB)
                 || bool_decide
                      (DepartureFlight.state departure = DepartureState.CRUISE)
              then true else release
          | Arr _ => release
          end in
        if release then
          let runway := Aircraft.assignedRunway (base flight) in
          let s := store p (Aircraft.set_assignedRunway NONE) s in
          match runway with
          | RWY_A =>
              let s := set_runwayAAvailable true s in
              let s := set_runwayAOccupant None s in
              set_runwayAFreeTime (currentSimulationTime s) s
          | RWY_B =>
              let s := set_runwayBAvailable true s in
              let s := set_runwayBOccupant None s in
              set_runwayBFreeTime (currentSimulationTime s) s
          | RWY_C =>
              let s := set_runwayCAvailable true s in
              let s := set_runwayCOccupant None s in
              set_runwayCFreeTime (currentSimulationTime s) s
          | NONE => s
          end
        else s
      else s
  end.

Definition assignRunways (s : t) : t :=
  let '(s, tempAQueue) :=
    drain runwayAQueue set_runwayAQueue processRunwayA
      (length (runwayAQueue s)) s [] in
  let '(s, tempBQueue) :=
    drain runwayBQueue set_runwayBQueue processRunwayB
      (length (runwayBQueue s)) s [] in
  let '(s, tempCQueue) :=
    drain runwayCQueue set_runwayCQueue processRunwayC
      (length (runwayCQueue s)) s [] in
  let s := set_runwayAQueue tempAQueue s in
  let s := set_runwayBQueue tempBQueue s in
  let s := set_runwayCQueue tempCQueue s in
  foldl (fun s p => releaseRunway p s) s (activeFlights s).

(** *** [updateFlights] *)

(** The body of the loop of [updateFlights]. *)
Definition updateFlight (p : nat) (s : t) : M t :=
  match allFlights s !! p with
  | None => ret s
  | Some flight =>
      do flight <- updateStatus (currentSimulationTime s) flight;;
      let s := set_allFlights (<[p := flight]> (allFlights s)) s in
      match Aircraft.hasActiveViolation (base flight),
            Aircraft.currentViolation (base flight) with
      | true, Some violation =>
          let airline := Aircraft.airline (base flight) in
          match AirlineMap.find airline (airlines s) with
          | Some _ =>
              let s :=
                set_airlines
                  (AirlineMap.update airline (Airline.addViolation violation)
                     (airlines s)) s in
              let s := set_allAVNs (allAVNs s ++ [violation]) s in
              let message :=
                {| IPCMessage.type := AVN_CREATED;
                   IPCMessage.avnId := AVN.id violation;
                   IPCMessage.airline := IPCMessage.copy 32 airline;
                   IPCMessage.flightNumber :=
                     IPCMessage.copy 16 (Aircraft.flightNumber (base flight));
                   IPCMessage.amount :=
                     Double.of_int (Aircraft.currentSpeed (base flight));
                   IPCMessage.details :=
                     IPCMessage.copy 64
                       (if decide (Aircraft.type (base flight) = COMMERCIAL)
                        then "COMMERCIAL" else "CARGO");
                   IPCMessage.minSpeed := AVN.permissibleSpeedMin violation;
                   IPCMessage.maxSpeed := AVN.permissibleSpeedMax violation |}
              in
              let s := set_avnWritePipe (avnWritePipe s ++ [message]) s in
              ret (store p
                     (fun b =>
                        Aircraft.set_currentViolation None
                          (Aircraft.set_hasActiveViolation false b)) s)
          | None => ret s
          end
      | _, _ => ret s
      end
  end.

(** [for (auto& flight : activeFlights) body]. *)
Fixpoint forEach (body : nat -> t -> M t) (l : list nat) (s : t) : M t :=
  match l with
  | [] => ret s
  | p :: l' => do s <- body p s;; forEach body l' s
  end.

Definition updateFlights (s : t) : M t :=
  forEach updateFlight (activeFlights s) s.

(** *** [moveCompletedFlights] *)

Definition completed (s : t) (p : nat) : bool :=
  from_option isCompleted false (allFlights s !! p).

Definition moveCompletedFlights (s : t) : t :=
  let stillActive := filter (fun p => completed s p = false) (activeFlights s) in
  let s :=
    set_completedFlights
      (completedFlights s
         ++ filter (fun p => completed s p = true) (activeFlights s)) s in
  set_activeFlights stillActive s.

(** *** [updateSimulation]: one tick *)

Definition updateSimulation (s : t) : M t :=
  let s := set_currentSimulationTime (currentSimulationTime s + 1) s in
  do s <- generateFlights s;;
  let s := assignRunways s in
  do s <- updateFlights s;;
  ret (moveCompletedFlights s).

(** *** [processAVNPayment] *)

(** Which of its three messages [processAVNPayment] prints. *)
Inductive PaymentReport := PaymentProcessed | InsufficientPayment | NotFound.

(** [processAVNPayment], on the vector [allAVNs] it goes through. The loop
    returns at the first notice whose id is [avnId]: the notice is marked
    paid when [amount] covers its total and is left as it is otherwise. The
    notice is an object the record of its airline points to as well; what
    is described is the ledger. *)
Definition processAVNPayment (avnId : Z) (amount : Double.t)
    (allAVNs : list AVN.t) : list AVN.t * PaymentReport :=
  match list_find (fun avn => AVN.id avn = avnId) allAVNs with
  | Some (i, avn) =>
      if Double.geb amount (AVN.totalAmount avn)
      then (alter (AVN.set_status PAID) i allAVNs, PaymentProcessed)
      else (allAVNs, InsufficientPayment)
  | None => (allAVNs, NotFound)
  end.
End FlightScheduler.

(** ** Executions of the scheduler *)

(** A state of the program: the scheduler object and the process state. *)
Definition State : Type := FlightScheduler.t * Globals.

(** One call of [updateSimulation], the inputs of the tick being [i]. *)
Definition tick (i : Inputs) (σ : State) : State :=
  FlightScheduler.updateSimulation σ.1 (set_inputs i σ.2).

(** The states the main loop goes through, whatever the generator and
    the clocks deliver. *)
Inductive reachable : State -> Prop :=
| reachable_start (i : Inputs) : reachable (FlightScheduler.new, start i)
| reachable_tick (i : Inputs) (σ : State) :
    reachable σ -> reachable (tick i σ).

(** [n] ticks that go on reading the inputs the process started with. *)
Fixpoint run (n : nat) (i : Inputs) : State :=
  match n with
  | O => (FlightScheduler.new, start i)
  | S n' => let σ := run n' i in FlightScheduler.updateSimulation σ.1 σ.2
  end.

(** ** The runways, by name *)

Definition available (s : FlightScheduler.t) (r : Runway) : bool :=
  match r with
  | RWY_A => FlightScheduler.runwayAAvailable s
  | RWY_B => FlightScheduler.runwayBAvailable s
  | RWY_C => FlightScheduler.runwayCAvailable s
  | NONE => false
  end.

Definition occupant (s : FlightScheduler.t) (r : Runway) : option nat :=
  match r with
  | RWY_A => FlightScheduler.runwayAOccupant s
  | RWY_B => FlightScheduler.runwayBOccupant s
  | RWY_C => FlightScheduler.runwayCOccupant s
  | NONE => None
  end.

Definition freeTime (s : FlightScheduler.t) (r : Runway) : Z :=
  match r with
  | RWY_A => FlightScheduler.runwayAFreeTime s
  | RWY_B => FlightScheduler.runwayBFreeTime s
  | RWY_C => FlightScheduler.runwayCFreeTime s
  | NONE => 0
  end.

(** The test made before a runway is handed out. *)
Definition eligible (s : FlightScheduler.t) (r : Runway) : bool :=
  available s r && (FlightScheduler.currentSimulationTime s >=? freeTime s r).

(** [p->assignedRunway], [NONE] when [p] is not an aircraft of the store. *)
Definition runwayOf (s : FlightScheduler.t) (p : nat) : Runway :=
  from_option (fun x => Aircraft.assignedRunway (base x)) NONE
    (FlightScheduler.allFlights s !! p).

(** The condition under which [assignRunways] takes the runway back. *)
Definition releasing (x : Flight) : bool :=
  match x with
  | Arr f =>
      bool_decide (ArrivalFlight.state f = ArrivalState.TAXI)
      || bool_decide (ArrivalFlight.state f = ArrivalState.AT_GATE)
  | Dep f =>
      bool_decide (DepartureFlight.state f = DepartureState.CLIMB)
      || bool_decide (DepartureFlight.state f = DepartureState.CRUISE)
  end.

(** The phase of a flight. *)
Inductive Phase :=
| ArrivalPhase (s : ArrivalState.t)
| DeparturePhase (s : DepartureState.t).

#[global] Instance Phase_eq_dec : EqDecision Phase.
Proof. solve_decision. Defined.

Definition phase (x : Flight) : Phase :=
  match x with
  | Arr f => ArrivalPhase (ArrivalFlight.state f)
  | Dep f => DeparturePhase (DepartureFlight.state f)
  end.

Definition getStateString (x : Flight) : string :=
  match x with
  | Arr f => ArrivalFlight.getStateString f
  | Dep f => DepartureFlight.getStateString f
  end.

Definition checkViolation (x : Flight) : M Flight :=
  match x with
  | Arr f => do f <- ArrivalFlight.checkViolation f;; ret (Arr f)
  | Dep f => do f <- DepartureFlight.checkViolation f;; ret (Dep f)
  end.

(** The number of notices the two detectors have created so far. *)
Definition noticesCreated (g : Globals) : Z :=
  (ArrivalFlight_avnIdCounter g - 1000)
  + (DepartureFlight_avnIdCounter g - 1000).

(** ** The notice menu of [main] *)

(** What case 4 of the menu, "Pay AVN", prints last. *)
Inductive PayMenuReport :=
| AlreadyPaid | PaymentSuccessful | PaymentCancelled | AVNNotFound.

(** Case 4 of the notice menu, for the id [avnId] read from [cin];
    [confirm] tells whether the answer to "Do you want to pay this amount?"
    is [y] or [Y]. The loop over the ledger stops at the first notice with
    the id, and pays its total. *)
Definition main_payAVN (avnId : Z) (confirm : bool) (allAVNs : list AVN.t)
    : list AVN.t * PayMenuReport :=
  match list_find (fun avn => AVN.id avn = avnId) allAVNs with
  | Some (_, avn) =>
      if decide (AVN.status avn = PAID) then (allAVNs, AlreadyPaid)
      else if confirm then
        ((FlightScheduler.processAVNPayment avnId (AVN.totalAmount avn)
            allAVNs).1, PaymentSuccessful)
      else (allAVNs, PaymentCancelled)
  | None => (allAVNs, AVNNotFound)
  end.

(** ** The notice generator process *)

(** A message read from a pipe is the record of its fields, a buffer being
    the C string it holds; [writePipe] is what has been written to the pipe
    so far. *)
Module AVNGenerator.
Record t := {
  avns : list AVN.t;
  nextAVNId : Z;
  writePipe : list IPCMessage.t
}.

Definition new : t := {| avns := []; nextAVNId := 1000; writePipe := [] |}.

(** [write(writePipe, &response, sizeof(response))]. *)
Definition write (response : IPCMessage.t) (a : t) : t :=
  {| avns := avns a; nextAVNId := nextAVNId a;
     writePipe := writePipe a ++ [response] |}.

(** [(avn->status == PaymentStatus::PAID) ? "PAID" : "UNPAID"]. *)
Definition paidString (avn : AVN.t) : string :=
  if decide (AVN.status avn = PAID) then "PAID" else "UNPAID".

(** ["\n"]. *)
Definition newline : string := String (Ascii.ascii_of_nat 10) "".

(** The line [QUERY_AIRLINE] writes for a notice. *)
Definition line (avn : AVN.t) : string :=
  "AVN #" +:+ pretty (AVN.id avn) +:+ " | " +:+ AVN.flightNumber avn
    +:+ " | PKR " +:+ Double.fixed2 (AVN.totalAmount avn)
    +:+ " | " +:+ paidString avn +:+ newline.

(** [processMessage]. The loops over [avns] stop at the first notice with
    the id of the message. *)
Definition processMessage (message : IPCMessage.t) (a : t) : M t :=
  match IPCMessage.type message with
  | AVN_CREATED =>
      let flightType :=
        if String.eqb (IPCMessage.details message) "COMMERCIAL"
        then COMMERCIAL else CARGO in
      let id := nextAVNId a in
      do newAVN <-
        AVN.new id (IPCMessage.airline message)
          (IPCMessage.flightNumber message) flightType
          (Double.to_int (IPCMessage.amount message))
          (IPCMessage.minSpeed message) (IPCMessage.maxSpeed message);;
      let a := {| avns := avns a ++ [newAVN]; nextAVNId := id + 1;
                  writePipe := writePipe a |} in
      let response :=
        {| IPCMessage.type := AVN_CREATED;
           IPCMessage.avnId := AVN.id newAVN;
           IPCMessage.airline := IPCMessage.copy 32 (AVN.airline newAVN);
           IPCMessage.flightNumber :=
             IPCMessage.copy 16 (AVN.flightNumber newAVN);
           IPCMessage.amount := AVN.totalAmount newAVN;
           IPCMessage.details := IPCMessage.copy 64 (paidString newAVN);
           IPCMessage.minSpeed := 0; IPCMessage.maxSpeed := 0 |} in
      ret (write response a)
  | PAYMENT_CONFIRMATION =>
      match list_find (fun avn => AVN.id avn = IPCMessage.avnId message)
              (avns a) with
      | Some (i, avn) =>
          let a := {| avns := alter (AVN.set_status PAID) i (avns a);
                      nextAVNId := nextAVNId a; writePipe := writePipe a |} in
          let response :=
            {| IPCMessage.type := PAYMENT_CONFIRMATION;
               IPCMessage.avnId := AVN.id avn;
               IPCMessage.airline := IPCMessage.copy 32 (AVN.airline avn);
               IPCMessage.flightNumber := "";
               IPCMessage.amount := IPCMessage.amount message;
               IPCMessage.details := "";
               IPCMessage.minSpeed := 0; IPCMessage.maxSpeed := 0 |} in
          ret (write response a)
      | None => ret a
      end
  | QUERY_AVN =>
      match list_find (fun avn => AVN.id avn = IPCMessage.avnId message)
              (avns a) with
      | Some (_, avn) =>
          let response :=
            {| IPCMessage.type := QUERY_AVN;
               IPCMessage.avnId := AVN.id avn;
               IPCMessage.airline := IPCMessage.copy 32 (AVN.airline avn);
               IPCMessage.flightNumber :=
                 IPCMessage.copy 16 (AVN.flightNumber avn);
               IPCMessage.amount := AVN.totalAmount avn;
               IPCMessage.details := IPCMessage.copy 64 (paidString avn);
               IPCMessage.minSpeed := 0; IPCMessage.maxSpeed := 0 |} in
          ret (write response a)
      | None => ret a
      end
  | QUERY_AIRLINE =>
      let detailsStr :=
        foldr (fun avn rest => line avn +:+ rest) ""
          (filter (fun avn => AVN.airline avn = IPCMessage.airline message)
             (avns a)) in
      let response :=
        {| IPCMessage.type := QUERY_AIRLINE;
           IPCMessage.avnId := 0;
           IPCMessage.airline :=
             IPCMessage.copy 32 (IPCMessage.airline message);
           IPCMessage.flightNumber := "";
           IPCMessage.amount := Double.zero;
           IPCMessage.details := IPCMessage.copy 64 detailsStr;
           IPCMessage.minSpeed := 0; IPCMessage.maxSpeed := 0 |} in
      ret (write response a)
  | PAYMENT_REQUEST => ret a
  end.

(** [run]: the messages are read one by one until the pipe is closed;
    [readPipe] is what was written to it. *)
Fixpoint run (readPipe : list IPCMessage.t) (a : t) : M t :=
  match readPipe with
  | [] => ret a
  | message :: rest => do a <- processMessage message a;; run rest a
  end.
End AVNGenerator.

(** ** The payment process *)

Module StripePay.
Record t := { writePipe : list IPCMessage.t }.

Definition new : t := {| writePipe := [] |}.


End StripePay.

(** * Notions used in the statements and in the proofs *)

Import FlightScheduler.

Definition at_rest (b : Aircraft.t) : Aircraft.t :=
  Aircraft.set_currentSpeed 0
    (Aircraft.set_maintainViolationSpeed false
       (Aircraft.set_violationSpeed 0 b)).

#[global] Arguments at_rest : simpl never.
Definition counters (g : Globals) : Z * Z * Z :=
  (Aircraft_nextId g, ArrivalFlight_avnIdCounter g,
   DepartureFlight_avnIdCounter g).

(** The base object once a notice [avn] has been written for the phase
    called [str]. *)
Definition flag (avn : AVN.t) (str : string) (b : Aircraft.t) : Aircraft.t :=
  Aircraft.set_violatedStates ({[ str ]} ∪ Aircraft.violatedStates b)
    (Aircraft.set_currentViolation (Some avn)
       (Aircraft.set_hasActiveViolation true b)).

Definition is_arrival (x : Flight) : bool :=
  match x with Arr _ => true | Dep _ => false end.

(** The counter the detector of [x] draws its notice ids from. *)
Definition avnIdCounter (x : Flight) (g : Globals) : Z :=
  if is_arrival x then ArrivalFlight_avnIdCounter g
  else DepartureFlight_avnIdCounter g.

Definition takeRunway (r : Runway) (p : nat) (s : t) : t :=
  match r with
  | RWY_A => takeRunwayA p s
  | RWY_B => takeRunwayB p s
  | RWY_C => takeRunwayC p s
  | NONE => s
  end.

Definition consistent (s : t) : Prop :=
  (forall r p, r ≠ NONE -> occupant s r = Some p <-> runwayOf s p = r)
  /\ (forall r, r ≠ NONE -> available s r = true <-> occupant s r = None).

(** [queue.push(p)] on the queue of the direction. *)
Definition enqueue (direction : Direction) (p : nat) (s : t) : t :=
  match direction with
  | NORTH | SOUTH => set_runwayAQueue (pq_push p (runwayAQueue s)) s
  | EAST | WEST => set_runwayBQueue (pq_push p (runwayBQueue s)) s
  end.

(** The names [spawn] draws the airline from. *)
Definition airlineNames (s : t) : list string :=
  (filter (fun pair => 0 < Airline.activeFlights pair.2) (airlines s)).*1.

(** The aircraft [p] is the object [y], it is active, and the clock
    shows [T]. *)
Definition holds (p : nat) (y : Flight) (T : Z) (s : t) : Prop :=
  allFlights s !! p = Some y /\ p ∈ activeFlights s
  /\ currentSimulationTime s = T.

(** At the time [T] the runway [r] has just been taken back from the
    aircraft [p]. *)
Definition released (p : nat) (T : Z) (r : Runway) (s : t) : Prop :=
  available s r = true /\ occupant s r = None /\ freeTime s r = T
  /\ runwayOf s p = NONE /\ currentSimulationTime s = T.

Definition steady_inputs : Inputs :=
  {| gen := replicate 300 50; system_clock := []; time_t := [] |}.

(** Every airline of the registry has flights to give. *)
Definition registry_ok (s : t) : Prop :=
  airlines s ≠ []
  /\ Forall (fun pair => 0 < Airline.activeFlights pair.2) (airlines s).

(** The airline of [x] is in the registry and [x] has no notice waiting
    to be forwarded. *)
Definition settled (s : t) (x : Flight) : Prop :=
  is_Some (AirlineMap.find (Aircraft.airline (base x)) (airlines s))
  /\ (Aircraft.hasActiveViolation (base x) = false
      \/ Aircraft.currentViolation (base x) = None).

(** The notice [avn] names an arrival ([arrival = true]) or a departure
    ([arrival = false]) of the store. *)
Definition issued_to (s : t) (arrival : bool) (avn : AVN.t) : Prop :=
  exists p x,
    allFlights s !! p = Some x /\ is_arrival x = arrival
    /\ Aircraft.flightNumber (base x) = AVN.flightNumber avn
    /\ Aircraft.airline (base x) = AVN.airline avn.

(** The ledger splits into the notices issued to arrivals and those
    issued to departures, and the ids of each part are those its counter
    has handed out, in order. *)
Definition ledger_split (s : t) (g : Globals)
    (arrivals departures : list AVN.t) : Prop :=
  allAVNs s ≡ₚ arrivals ++ departures
  /\ Forall (issued_to s true) arrivals
  /\ Forall (issued_to s false) departures
  /\ AVN.id <$> arrivals = seqZ 1000 (ArrivalFlight_avnIdCounter g - 1000)
  /\ AVN.id <$> departures
     = seqZ 1000 (DepartureFlight_avnIdCounter g - 1000).

Definition ledger_ok (s : t) (g : Globals) : Prop :=
  registry_ok s
  /\ Forall (settled s) (allFlights s)
  /\ 1000 <= ArrivalFlight_avnIdCounter g
  /\ 1000 <= DepartureFlight_avnIdCounter g
  /\ exists arrivals departures, ledger_split s g arrivals departures.

(** Every aircraft of [s] is still in [s'], the same flight of the
    same class and airline. *)
Definition grows (s s' : t) : Prop :=
  forall p x, allFlights s !! p = Some x ->
    exists x', allFlights s' !! p = Some x'
      /\ is_arrival x' = is_arrival x
      /\ Aircraft.flightNumber (base x') = Aircraft.flightNumber (base x)
      /\ Aircraft.airline (base x') = Aircraft.airline (base x).

Definition collision_inputs : Inputs :=
  {| gen := [50; 4; 0; 0; 0; 0;  50; 4; 0; 50;  50; 4; 50; 0; 0; 0; 0];
     system_clock := [10; 20; 30]; time_t := [100; 200] |}.

(** [lifetime x tr]: the object [x] is what an aircraft has become after
    some calls of [updateStatus] and some writes of the scheduler to the
    members of its base class (the runway, the emergency flag, the reset of
    the violation once forwarded); [tr] lists, oldest first, the phases in
    which a call created a notice. A call has created a notice when one
    of the two notice counters has moved. *)
Inductive lifetime : Flight -> list Phase -> Prop :=
| life_arrival fn al ty d pr t g :
    lifetime (Arr (ArrivalFlight.new fn al ty d pr t g).1) []
| life_departure fn al ty d pr t g :
    lifetime (Dep (DepartureFlight.new fn al ty d pr t g).1) []
| life_updateStatus t x g tr :
    lifetime x tr ->
    lifetime (updateStatus t x g).1
      (tr ++ if noticesCreated g <? noticesCreated (updateStatus t x g).2
             then [phase (updateStatus t x g).1] else [])
| life_write (f : Aircraft.t -> Aircraft.t) x tr :
    lifetime x tr ->
    Aircraft.violatedStates (f (base x)) = Aircraft.violatedStates (base x) ->
    lifetime (with_base (f (base x)) x) tr.

Definition phaseString (ph : Phase) : string :=
  match ph with
  | ArrivalPhase ArrivalState.HOLDING => "Holding"
  | ArrivalPhase ArrivalState.APPROACH => "Approach"
  | ArrivalPhase ArrivalState.LANDING => "Landing"
  | ArrivalPhase ArrivalState.TAXI => "Taxi"
  | ArrivalPhase ArrivalState.AT_GATE => "At Gate"
  | DeparturePhase DepartureState.AT_GATE => "At Gate"
  | DeparturePhase DepartureState.TAXI => "Taxi"
  | DeparturePhase DepartureState.TAKEOFF_ROLL => "Takeoff Roll"
  | DeparturePhase DepartureState.CLIMB => "Climb"
  | DeparturePhase DepartureState.CRUISE => "Cruise"
  end.

(** The phases recorded in [tr] are phases of an aircraft of the class
    of [x], and their names are in [violatedStates]. *)
Definition recorded (x : Flight) (tr : list Phase) : Prop :=
  NoDup tr
  /\ forall ph, ph ∈ tr ->
       phaseString ph ∈ Aircraft.violatedStates (base x)
       /\ (is_arrival x = match ph with ArrivalPhase _ => true | _ => false end).

Definition violation_inputs : Inputs :=
  {| gen := [0; 0; 0; 0]; system_clock := []; time_t := [] |}.

(** [a] is served before [b]: higher priority, or the same priority and
    not scheduled later. *)
Definition served_before (a b : Aircraft.t) : Prop :=
  Aircraft.priority b < Aircraft.priority a
  \/ (Aircraft.priority b = Aircraft.priority a
      /\ Aircraft.scheduledTime a <= Aircraft.scheduledTime b).




(** Tick 1 spawns an emergency arrival from the North, which takes
    Runway C; tick 2 spawns a FedEx arrival from the South. *)
Definition cargo_inputs : Inputs :=
  {| gen := [0; 4; 0;  50; 3; 0; 50]; system_clock := [10; 20]; time_t := [] |}.

(** The state of tick 2 when [assignRunways] is entered. *)
Definition cargo_scene : t :=
  let σ := run 1 cargo_inputs in
  (generateFlights
     (set_currentSimulationTime (currentSimulationTime σ.1 + 1) σ.1) σ.2).1.

(** The speed the ramp of [updateStatus] gives a landing aircraft after
    [stateTime] ticks in the phase. *)
Definition landingRamp (stateTime : Z) : Z :=
  Z.max LANDING_END_SPEED
    (LANDING_START_SPEED
     - ((LANDING_START_SPEED - LANDING_END_SPEED) * stateTime)
         ÷ ArrivalFlight.LANDING_TIME).

(** A commercial arrival that has been landing for five ticks at the
    speed of the ramp. *)
Definition landing_arrival : ArrivalFlight.t :=
  let f := (ArrivalFlight.new "PI-1000" "PIA" COMMERCIAL NORTH 1 0
              (start steady_inputs)).1 in
  {| ArrivalFlight.base :=
       Aircraft.set_assignedRunway RWY_A
         (Aircraft.set_currentSpeed (landingRamp 5) (ArrivalFlight.base f));
     ArrivalFlight.state := ArrivalState.LANDING;
     ArrivalFlight.stateTime := 5 |}.

(** The draws that make [updateStatus] introduce a violation, with the
    largest excess, 40. *)
Definition landing_inputs : Inputs :=
  {| gen := [0; 0; 35]; system_clock := []; time_t := [] |}.

(** Tick 1: the emergency draw fails (51 > 10), the airline drawn is
    Pakistan Airforce, and the draws of [updateStatus] introduce a
    violation. *)
Definition airforce_inputs : Inputs :=
  {| gen := [50; 5; 7; 0; 0; 0]; system_clock := [111]; time_t := [777] |}.

(** The speed of [x] is inside what the detector accepts in the phase of
    [x], and no speed is pinned. *)
Definition in_band (x : Flight) : Prop :=
  Aircraft.maintainViolationSpeed (base x) = false
  /\ match x with
     | Arr f =>
         let v := Aircraft.currentSpeed (ArrivalFlight.base f) in
         0 <= ArrivalFlight.stateTime f
         /\ match ArrivalFlight.state f with
            | ArrivalState.HOLDING => v <= HOLDING_MAX_SPEED
            | ArrivalState.APPROACH =>
                APPROACH_MIN_SPEED <= v <= APPROACH_MAX_SPEED
            | ArrivalState.LANDING =>
                v <= LANDING_START_SPEED
                /\ ArrivalFlight.stateTime f < ArrivalFlight.LANDING_TIME
            | ArrivalState.TAXI => v <= TAXI_MAX_SPEED
            | ArrivalState.AT_GATE => v <= GATE_MAX_SPEED
            end
     | Dep f =>
         let v := Aircraft.currentSpeed (DepartureFlight.base f) in
         match DepartureFlight.state f with
         | DepartureState.AT_GATE => v <= GATE_MAX_SPEED
         | DepartureState.TAXI => v <= TAXI_MAX_SPEED
         | DepartureState.TAKEOFF_ROLL => v <= TAKEOFF_MAX_SPEED
         | DepartureState.CLIMB => v <= CLIMB_MAX_SPEED
         | DepartureState.CRUISE => CRUISE_MIN_SPEED <= v <= CRUISE_MAX_SPEED
         end
     end.

(** In band, as far as the aircraft with the [isEmergency] flag go. *)
Definition emergencies_in_band (s : t) : Prop :=
  Forall (fun x => Aircraft.isEmergency (base x) = true -> in_band x)
    (allFlights s).

(** ** Notions for the further properties *)

(** ** Notions used for the further properties *)

(** The state in which [assignRunways] is entered in the tick that
    follows [σ], the inputs of the tick being [i]. *)
Definition entering_assignRunways (i : Inputs) (σ : State) : t :=
  (generateFlights
     (set_currentSimulationTime (currentSimulationTime σ.1 + 1) σ.1)
     (set_inputs i σ.2)).1.

(** No runway has been stamped free at a time still to come. *)
Definition stamps_past (s : t) : Prop :=
  forall r, freeTime s r <= currentSimulationTime s.

(** The message [updateFlights] writes for the notice [violation] of
    [flight]. *)
Definition message_of (flight : Flight) (violation : AVN.t) : IPCMessage.t :=
  {| IPCMessage.type := AVN_CREATED;
     IPCMessage.avnId := AVN.id violation;
     IPCMessage.airline := IPCMessage.copy 32 (Aircraft.airline (base flight));
     IPCMessage.flightNumber :=
       IPCMessage.copy 16 (Aircraft.flightNumber (base flight));
     IPCMessage.amount := Double.of_int (Aircraft.currentSpeed (base flight));
     IPCMessage.details :=
       IPCMessage.copy 64
         (if decide (Aircraft.type (base flight) = COMMERCIAL)
          then "COMMERCIAL" else "CARGO");
     IPCMessage.minSpeed := AVN.permissibleSpeedMin violation;
     IPCMessage.maxSpeed := AVN.permissibleSpeedMax violation |}.

(** The aircraft once [updateFlights] has forwarded its notice. *)
Definition forwarded (x : Flight) : Flight :=
  with_base
    (Aircraft.set_currentViolation None
       (Aircraft.set_hasActiveViolation false (base x))) x.

(** What [updateFlights] never writes to: the lists of active and
    completed aircraft, the clock and the four arrival stamps, the queues and
    the three runways. *)
Definition control (s : t) :=
  (activeFlights s, completedFlights s, currentSimulationTime s,
   (lastNorthArrival s, lastSouthArrival s, lastEastDeparture s,
    lastWestDeparture s),
   (runwayAQueue s, runwayBQueue s, runwayCQueue s),
   (runwayAAvailable s, runwayBAvailable s, runwayCAvailable s),
   (runwayAOccupant s, runwayBOccupant s, runwayCOccupant s),
   (runwayAFreeTime s, runwayBFreeTime s, runwayCFreeTime s)).

(** The ids of the aircraft are those [Aircraft::nextId] has handed out,
    in the order of [allFlights]. *)
Definition ids_in_order (s : t) (g : Globals) : Prop :=
  (fun x => Aircraft.id (base x)) <$> allFlights s
  = seqZ 1000 (Z.of_nat (length (allFlights s)))
  /\ Aircraft_nextId g = 1000 + Z.of_nat (length (allFlights s)).

(** Every aircraft of the store is listed once, as active or as
    completed, and the completed ones have reached their last phase. *)
Definition booked (s : t) : Prop :=
  activeFlights s ++ completedFlights s ≡ₚ seq 0 (length (allFlights s))
  /\ Forall (fun p => completed s p = true) (completedFlights s).

(** The stamp of the last aircraft of a direction at the time [t], when
    the first one comes at the tick [first] and the next ones every
    [interval] ticks. *)
Definition lastSpawn (first interval t : Z) : Z :=
  if t <? first then 0 else first + interval * ((t - first) / interval).

(** The number of aircraft of such a direction created by the time [t]. *)
Definition spawnCount (first interval t : Z) : Z :=
  (t - first + interval) / interval.

(** The number of aircraft [generateFlights] has created by the time [t]:
    from the North at the tick 1 and every 180 ticks, from the South at 2
    and every 120, to the East at 3 and every 150, to the West at 4 and
    every 240. *)
Definition flightsGenerated (t : Z) : Z :=
  spawnCount 1 ARRIVAL_NORTH_INTERVAL t + spawnCount 2 ARRIVAL_SOUTH_INTERVAL t
  + spawnCount 3 DEPARTURE_EAST_INTERVAL t
  + spawnCount 4 DEPARTURE_WEST_INTERVAL t.

(** The clock shows [T]; the four stamps and the number of aircraft are
    those of the times [tN], [tS], [tE] and [tW]. *)
Definition scheduled (T tN tS tE tW : Z) (s : t) : Prop :=
  currentSimulationTime s = T
  /\ lastNorthArrival s = lastSpawn 1 ARRIVAL_NORTH_INTERVAL tN
  /\ lastSouthArrival s = lastSpawn 2 ARRIVAL_SOUTH_INTERVAL tS
  /\ lastEastDeparture s = lastSpawn 3 DEPARTURE_EAST_INTERVAL tE
  /\ lastWestDeparture s = lastSpawn 4 DEPARTURE_WEST_INTERVAL tW
  /\ Z.of_nat (length (allFlights s))
     = spawnCount 1 ARRIVAL_NORTH_INTERVAL tN
       + spawnCount 2 ARRIVAL_SOUTH_INTERVAL tS
       + spawnCount 3 DEPARTURE_EAST_INTERVAL tE
       + spawnCount 4 DEPARTURE_WEST_INTERVAL tW.

(** The phase of an arrival and the time it has spent in it, [n] calls
    of [updateStatus] after it has entered Approach. *)
Definition arrivalClock (n : Z) : ArrivalState.t * Z :=
  if n <? 15 then (ArrivalState.APPROACH, n)
  else if n <? 25 then (ArrivalState.LANDING, n - 15)
  else if n <? 40 then (ArrivalState.TAXI, n - 25)
  else (ArrivalState.AT_GATE, n - 40).

(** The phase of a departure and the time it has spent in it, [n] calls
    of [updateStatus] after it has left the gate. *)
Definition departureClock (n : Z) : DepartureState.t * Z :=
  if n <? 15 then (DepartureState.TAXI, n)
  else if n <? 25 then (DepartureState.TAKEOFF_ROLL, n - 15)
  else if n <? 45 then (DepartureState.CLIMB, n - 25)
  else (DepartureState.CRUISE, n - 45).

(** An aircraft with the [isEmergency] flag is typed Emergency with the
    priority 3, its speed is in band, and no notice has been written for it
    in any phase. *)
Definition emergency_quiet (x : Flight) : Prop :=
  Aircraft.isEmergency (base x) = true ->
  in_band x
  /\ Aircraft.type (base x) = EMERGENCY /\ Aircraft.priority (base x) = 3
  /\ Aircraft.violatedStates (base x) = ∅
  /\ Aircraft.hasActiveViolation (base x) = false
  /\ Aircraft.currentViolation (base x) = None.

(** A commercial departure that has been climbing for 19 ticks. *)
Definition climbing_departure : DepartureFlight.t :=
  let f := (DepartureFlight.new "PI-2002" "PIA" COMMERCIAL EAST 1 0
              (start steady_inputs)).1 in
  {| DepartureFlight.base :=
       Aircraft.set_currentSpeed 300 (DepartureFlight.base f);
     DepartureFlight.state := DepartureState.CLIMB;
     DepartureFlight.stateTime := 19 |}.

(** The speeds [updateStatus] leaves an aircraft with. A speed that is
    not pinned is the one the phase has set: inside the band of the phase,
    and during Landing on the ramp. A pinned speed is the one the injection
    has set: at most 40 beyond the band, above it or, in Cruise, possibly
    below it; during Landing it stays well under the ceiling of 240. *)
Definition plausible (x : Flight) : Prop :=
  let v := Aircraft.currentSpeed (base x) in
  let pinned := Aircraft.maintainViolationSpeed (base x) in
  (pinned = true -> Aircraft.violationSpeed (base x) = v)
  /\ match x with
     | Arr f =>
         match ArrivalFlight.state f with
         | ArrivalState.HOLDING =>
             v <= HOLDING_MAX_SPEED + (if pinned then 40 else 0)
         | ArrivalState.APPROACH =>
             APPROACH_MIN_SPEED <= v
             <= APPROACH_MAX_SPEED + (if pinned then 40 else 0)
         | ArrivalState.LANDING =>
             0 <= ArrivalFlight.stateTime f < ArrivalFlight.LANDING_TIME
             /\ (if pinned then v <= 154
                 else v = landingRamp (ArrivalFlight.stateTime f))
         | ArrivalState.TAXI =>
             v <= TAXI_MAX_SPEED + (if pinned then 20 else 0)
         | ArrivalState.AT_GATE => v <= GATE_MAX_SPEED
         end
     | Dep f =>
         match DepartureFlight.state f with
         | DepartureState.AT_GATE => v <= GATE_MAX_SPEED /\ pinned = false
         | DepartureState.TAXI =>
             v <= TAXI_MAX_SPEED + (if pinned then 20 else 0)
         | DepartureState.TAKEOFF_ROLL =>
             v <= TAKEOFF_MAX_SPEED + (if pinned then 40 else 0)
         | DepartureState.CLIMB =>
             v <= CLIMB_MAX_SPEED + (if pinned then 40 else 0)
         | DepartureState.CRUISE =>
             if pinned
             then CRUISE_MIN_SPEED - 40 <= v <= CRUISE_MAX_SPEED + 40
             else CRUISE_MIN_SPEED <= v <= CRUISE_MAX_SPEED
         end
     end.

(** The notice [avn] is one the detector constructs for the aircraft
    [b] as it is. *)
Definition issued (b : Aircraft.t) (avn : AVN.t) : Prop :=
  exists id lo hi g,
    avn = (AVN.new id (Aircraft.airline b) (Aircraft.flightNumber b)
             (Aircraft.type b) (Aircraft.currentSpeed b) lo hi g).1.

(** The bands a notice of the simulation can name: those of Holding,
    Approach, Taxi, Takeoff Roll, Climb and Cruise. *)
Definition noticeBands : list (Z * Z) :=
  [(HOLDING_MIN_SPEED, HOLDING_MAX_SPEED);
   (APPROACH_MIN_SPEED, APPROACH_MAX_SPEED);
   (TAXI_MIN_SPEED, TAXI_MAX_SPEED);
   (0, TAKEOFF_MAX_SPEED);
   (CLIMB_MIN_SPEED, CLIMB_MAX_SPEED);
   (CRUISE_MIN_SPEED, CRUISE_MAX_SPEED)].

(** The recorded speed of [avn] is outside the band [avn] names, by 40 at
    most: above it or, for the band of Cruise, possibly below it. *)
Definition genuine (avn : AVN.t) : Prop :=
  let v := AVN.recordedSpeed avn in
  let lo := AVN.permissibleSpeedMin avn in
  let hi := AVN.permissibleSpeedMax avn in
  (lo, hi) ∈ noticeBands
  /\ (hi < v <= hi + 40
      \/ (lo = CRUISE_MIN_SPEED /\ lo - 40 <= v < lo)).

(** The message [updateFlights] writes for the notice [avn], read off
    the notice alone. *)
Definition notice_message (avn : AVN.t) : IPCMessage.t :=
  {| IPCMessage.type := AVN_CREATED;
     IPCMessage.avnId := AVN.id avn;
     IPCMessage.airline := IPCMessage.copy 32 (AVN.airline avn);
     IPCMessage.flightNumber := IPCMessage.copy 16 (AVN.flightNumber avn);
     IPCMessage.amount := Double.of_int (AVN.recordedSpeed avn);
     IPCMessage.details :=
       IPCMessage.copy 64
         (if decide (AVN.aircraftType avn = COMMERCIAL)
          then "COMMERCIAL" else "CARGO");
     IPCMessage.minSpeed := AVN.permissibleSpeedMin avn;
     IPCMessage.maxSpeed := AVN.permissibleSpeedMax avn |}.

(** The notice is as its constructor has left it. *)
Definition as_constructed (avn : AVN.t) : Prop :=
  exists id al fn ty v lo hi g, avn = (AVN.new id al fn ty v lo hi g).1.

(** The violations recorded for the airlines. The registry holds the
    airlines it was constructed with; the record of an airline holds notices
    of that airline only; together the records hold the notices of the
    ledger. *)
Definition records_ok (s : t) : Prop :=
  (airlines s).*1 = (airlines new).*1
  /\ Forall (fun pair =>
               Forall (fun avn => AVN.airline avn = pair.1)
                 (Airline.violations pair.2)) (airlines s)
  /\ concat (Airline.violations <$> (airlines s).*2) ≡ₚ allAVNs s.

(** What [updateFlights] keeps of the aircraft, the ledger, the pipe and
    the records. *)
Definition kept (s : t) : Prop :=
  Forall plausible (allFlights s)
  /\ Forall (fun avn => as_constructed avn /\ genuine avn) (allAVNs s)
  /\ avnWritePipe s = notice_message <$> allAVNs s
  /\ records_ok s.

(** A payment, made from the notice menu of [main] with the answer
    [confirm], or by a call of [processAVNPayment] with an amount. *)
Inductive Payment :=
| ByMenu (avnId : Z) (confirm : bool)
| ByCall (avnId : Z) (amount : Double.t).

Definition pay (allAVNs : list AVN.t) (π : Payment) : list AVN.t :=
  match π with
  | ByMenu avnId confirm => (main_payAVN avnId confirm allAVNs).1
  | ByCall avnId amount => (processAVNPayment avnId amount allAVNs).1
  end.

(** [i] is the position of the first notice of [l] with the id [avnId],
    and [avn] is that notice. *)
Definition first_with_id (avnId : Z) (l : list AVN.t) (i : nat)
    (avn : AVN.t) : Prop :=
  l !! i = Some avn /\ AVN.id avn = avnId
  /\ forall j y, l !! j = Some y -> (j < i)%nat -> AVN.id y ≠ avnId.









(** * Properties *)

Lemma uniform_int_counters a b g : counters (uniform_int a b g).2 = counters g.
Proof. unfold uniform_int. by destruct (gen (inputs g)). Qed.

Lemma uniform_int_range a b g :
  a <= b -> a <= (uniform_int a b g).1 <= b.
Proof.
  intros Hab. unfold uniform_int. destruct (gen (inputs g)) as [|r rs]; simpl.
  - lia.
  - pose proof (Z.mod_pos_bound r (b - a + 1)). lia.
Qed.

Lemma uniform_int_eq a b g v g' :
  uniform_int a b g = (v, g') -> counters g' = counters g.
Proof. intros E. by rewrite <- (uniform_int_counters a b g), E. Qed.

Ltac draws :=
  repeat match goal with
  | E : uniform_int _ _ _ = (_, _) |- _ =>
      apply uniform_int_eq in E
  end.

Ltac run_m :=
  unfold bind, ret; simpl; repeat (case_match; simpl); draws.

Lemma time_nullptr_counters g : counters (time_nullptr g).2 = counters g.
Proof. unfold time_nullptr. by destruct (time_t (inputs g)). Qed.

Lemma AVN_new_fields id al fn ty v lo hi g :
  let r := AVN.new id al fn ty v lo hi g in
  AVN.id r.1 = id /\ AVN.airline r.1 = al /\ AVN.flightNumber r.1 = fn
  /\ AVN.aircraftType r.1 = ty /\ AVN.recordedSpeed r.1 = v
  /\ AVN.permissibleSpeedMin r.1 = lo /\ AVN.permissibleSpeedMax r.1 = hi
  /\ counters r.2 = counters g.
Proof.
  unfold AVN.new, bind, ret. pose proof (time_nullptr_counters g) as C.
  destruct (time_nullptr g) as [now g']. simpl in *. by repeat split.
Qed.

Lemma at_rest_flag avn str b1 b2 :
  at_rest b1 = at_rest b2 -> at_rest (flag avn str b1) = at_rest (flag avn str b2).
Proof.
  destruct b1, b2; unfold at_rest, flag; simpl. intros H.
  by simplify_eq.
Qed.

Lemma at_rest_set_maintainViolationSpeed v b :
  at_rest (Aircraft.set_maintainViolationSpeed v b) = at_rest b.
Proof. by destruct b. Qed.

Lemma at_rest_violatedStates b1 b2 :
  at_rest b1 = at_rest b2 -> Aircraft.violatedStates b1 = Aircraft.violatedStates b2.
Proof. intros H. by apply (f_equal Aircraft.violatedStates) in H. Qed.

Section Arrival.
Import ArrivalFlight.

Lemma Arrival_advance_frame f g :
  let r := advance f g in
  at_rest (base r.1) = at_rest (base f) /\ counters r.2 = counters g.
Proof.
  unfold advance.
  destruct f as [b st n]; destruct st; run_m; split; congruence || done.
Qed.

Lemma Arrival_injectViolation_frame f g :
  let r := injectViolation f g in
  at_rest (base r.1) = at_rest (base f) /\ counters r.2 = counters g
  /\ state r.1 = state f /\ stateTime r.1 = stateTime f.
Proof.
  unfold injectViolation.
  destruct f as [b st n]; destruct st; run_m; repeat split; congruence || done.
Qed.

Lemma Arrival_checkViolation_cases f g :
  let r := checkViolation f g in
  state r.1 = state f /\ stateTime r.1 = stateTime f
  /\ Aircraft_nextId r.2 = Aircraft_nextId g
  /\ DepartureFlight_avnIdCounter r.2 = DepartureFlight_avnIdCounter g
  /\ ((r.1 = f /\ counters r.2 = counters g)
      \/ ((getStateString f ∉ Aircraft.violatedStates (base f))
          /\ ArrivalFlight_avnIdCounter r.2 = ArrivalFlight_avnIdCounter g + 1
          /\ exists avn,
               base r.1 = flag avn (getStateString f) (base f)
               /\ AVN.id avn = ArrivalFlight_avnIdCounter g
               /\ AVN.airline avn = Aircraft.airline (base f)
               /\ AVN.flightNumber avn = Aircraft.flightNumber (base f))).
Proof.
  unfold checkViolation.
  destruct (decide _) as [Hin|Hin]; [by unfold ret; simpl; auto 10|].
  match goal with |- context [match ?e with (_, _) => _ end] =>
    destruct e as [[v lo] hi] end.
  destruct v; [|by unfold ret; simpl; auto 10].
  unfold bind, next_arrival_avnId.
  match goal with |- context [AVN.new ?a ?b ?c ?d ?e ?x ?y ?h] =>
    pose proof (AVN_new_fields a b c d e x y h)
      as (Hid & Hal & Hfn & _ & _ & _ & _ & C);
    destruct (AVN.new a b c d e x y h) as [avn g'] end.
  unfold ret; simpl in *. unfold counters in C; simpl in C.
  repeat split; try congruence. right. repeat split; try congruence; eauto 10.
Qed.

Lemma Arrival_updateStatus_cases t f g :
  let r := updateStatus t f g in
  Aircraft_nextId r.2 = Aircraft_nextId g
  /\ DepartureFlight_avnIdCounter r.2 = DepartureFlight_avnIdCounter g
  /\ ((at_rest (base r.1) = at_rest (base f) /\ counters r.2 = counters g)
      \/ ((getStateString r.1 ∉ Aircraft.violatedStates (base f))
          /\ ArrivalFlight_avnIdCounter r.2 = ArrivalFlight_avnIdCounter g + 1
          /\ exists avn,
               at_rest (base r.1)
               = at_rest (flag avn (getStateString r.1) (base f))
               /\ Aircraft.currentViolation (base r.1) = Some avn
               /\ AVN.id avn = ArrivalFlight_avnIdCounter g
               /\ AVN.airline avn = Aircraft.airline (base f)
               /\ AVN.flightNumber avn = Aircraft.flightNumber (base f))).
Proof.
  unfold updateStatus, bind.
  set (f0 := {| base := base f; state := state f; stateTime := stateTime f + 1 |}).
  pose proof (Arrival_advance_frame f0 g) as [R1 C1].
  destruct (advance f0 g) as [f1 g1]. cbn [fst snd] in R1, C1.
  set (f2 := if decide (state f0 ≠ state f1)
             then set_maintainViolationSpeed false f1 else f1).
  assert (R2 : at_rest (base f2) = at_rest (base f)).
  { subst f2. destruct (decide _); [|exact R1].
    unfold set_maintainViolationSpeed. simpl.
    rewrite at_rest_set_maintainViolationSpeed. exact R1. }
  pose proof (Arrival_injectViolation_frame f2 g1) as (R3 & C3 & _ & _).
  destruct (injectViolation f2 g1) as [f3 g2]. cbn [fst snd] in R3, C3.
  pose proof (Arrival_checkViolation_cases f3 g2) as (S4 & _ & N4 & D4 & H4).
  destruct (checkViolation f3 g2) as [f4 g3]. cbn [fst snd] in *.
  assert (R : at_rest (base f3) = at_rest (base f)) by congruence.
  assert (C : counters g2 = counters g) by congruence.
  unfold counters in C. injection C as Cn Ca Cd.
  repeat split; try congruence.
  destruct H4 as [[-> C4]|(Hin & A4 & avn & B4 & I4 & L4 & F4)].
  - left. unfold counters in *. split; congruence.
  - right. assert (getStateString f4 = getStateString f3) as ->
      by (unfold getStateString; by rewrite S4).
    rewrite <- (at_rest_violatedStates _ _ R). split; [done|].
    split; [congruence|]. exists avn. rewrite B4.
    split; [by apply at_rest_flag|]. split; [done|].
    apply (f_equal Aircraft.airline) in R as Ra.
    apply (f_equal Aircraft.flightNumber) in R as Rf. simpl in Ra, Rf.
    repeat split; congruence.
Qed.

Lemma Arrival_advance_phase f g :
  let r := advance f g in
  state r.1 = state f
  \/ (state f = ArrivalState.HOLDING /\ state r.1 = ArrivalState.APPROACH
      /\ Aircraft.assignedRunway (base f) ≠ NONE)
  \/ (state f = ArrivalState.APPROACH /\ state r.1 = ArrivalState.LANDING)
  \/ (state f = ArrivalState.LANDING /\ state r.1 = ArrivalState.TAXI)
  \/ (state f = ArrivalState.TAXI /\ state r.1 = ArrivalState.AT_GATE).
Proof.
  unfold advance.
  destruct f as [b st n]; destruct st; run_m; auto 10.
  right; left. repeat split. apply andb_prop in H as [_ H].
  by apply bool_decide_eq_true in H.
Qed.

Lemma Arrival_updateStatus_phase t f g :
  let r := updateStatus t f g in
  state r.1 = state f
  \/ (state f = ArrivalState.HOLDING /\ state r.1 = ArrivalState.APPROACH
      /\ Aircraft.assignedRunway (base f) ≠ NONE)
  \/ (state f = ArrivalState.APPROACH /\ state r.1 = ArrivalState.LANDING)
  \/ (state f = ArrivalState.LANDING /\ state r.1 = ArrivalState.TAXI)
  \/ (state f = ArrivalState.TAXI /\ state r.1 = ArrivalState.AT_GATE).
Proof.
  unfold updateStatus, bind.
  set (f0 := {| base := base f; state := state f; stateTime := stateTime f + 1 |}).
  pose proof (Arrival_advance_phase f0 g) as P1.
  destruct (advance f0 g) as [f1 g1]. simpl in P1.
  set (f2 := if decide (state f0 ≠ state f1)
             then set_maintainViolationSpeed false f1 else f1).
  assert (S2 : state f2 = state f1) by (subst f2; by destruct (decide _)).
  pose proof (Arrival_injectViolation_frame f2 g1) as (_ & _ & S3 & _).
  destruct (injectViolation f2 g1) as [f3 g2]. simpl in S3.
  pose proof (Arrival_checkViolation_cases f3 g2) as (S4 & _).
  destruct (checkViolation f3 g2) as [f4 g3]. simpl in *.
  rewrite S4, S3, S2. exact P1.
Qed.
End Arrival.

Section Departure.
Import DepartureFlight.

Lemma Departure_advance_frame f g :
  let r := advance f g in
  at_rest (base r.1) = at_rest (base f) /\ counters r.2 = counters g.
Proof.
  unfold advance.
  destruct f as [b st n]; destruct st; run_m; split; congruence || done.
Qed.

Lemma Departure_injectViolation_frame f g :
  let r := injectViolation f g in
  at_rest (base r.1) = at_rest (base f) /\ counters r.2 = counters g
  /\ state r.1 = state f /\ stateTime r.1 = stateTime f.
Proof.
  unfold injectViolation.
  destruct f as [b st n]; destruct st; run_m; repeat split; congruence || done.
Qed.

Lemma Departure_checkViolation_cases f g :
  let r := checkViolation f g in
  state r.1 = state f /\ stateTime r.1 = stateTime f
  /\ Aircraft_nextId r.2 = Aircraft_nextId g
  /\ ArrivalFlight_avnIdCounter r.2 = ArrivalFlight_avnIdCounter g
  /\ ((r.1 = f /\ counters r.2 = counters g)
      \/ ((getStateString f ∉ Aircraft.violatedStates (base f))
          /\ DepartureFlight_avnIdCounter r.2 = DepartureFlight_avnIdCounter g + 1
          /\ exists avn,
               base r.1 = flag avn (getStateString f) (base f)
               /\ AVN.id avn = DepartureFlight_avnIdCounter g
               /\ AVN.airline avn = Aircraft.airline (base f)
               /\ AVN.flightNumber avn = Aircraft.flightNumber (base f))).
Proof.
  unfold checkViolation.
  destruct (decide _) as [Hin|Hin]; [by unfold ret; simpl; auto 10|].
  match goal with |- context [match ?e with (_, _) => _ end] =>
    destruct e as [[v lo] hi] end.
  destruct v; [|by unfold ret; simpl; auto 10].
  unfold bind, next_departure_avnId.
  match goal with |- context [AVN.new ?a ?b ?c ?d ?e ?x ?y ?h] =>
    pose proof (AVN_new_fields a b c d e x y h)
      as (Hid & Hal & Hfn & _ & _ & _ & _ & C);
    destruct (AVN.new a b c d e x y h) as [avn g'] end.
  unfold ret; simpl in *. unfold counters in C; simpl in C.
  repeat split; try congruence. right. repeat split; try congruence; eauto 10.
Qed.

Lemma Departure_updateStatus_cases t f g :
  let r := updateStatus t f g in
  Aircraft_nextId r.2 = Aircraft_nextId g
  /\ ArrivalFlight_avnIdCounter r.2 = ArrivalFlight_avnIdCounter g
  /\ ((at_rest (base r.1) = at_rest (base f) /\ counters r.2 = counters g)
      \/ ((getStateString r.1 ∉ Aircraft.violatedStates (base f))
          /\ DepartureFlight_avnIdCounter r.2 = DepartureFlight_avnIdCounter g + 1
          /\ exists avn,
               at_rest (base r.1)
               = at_rest (flag avn (getStateString r.1) (base f))
               /\ Aircraft.currentViolation (base r.1) = Some avn
               /\ AVN.id avn = DepartureFlight_avnIdCounter g
               /\ AVN.airline avn = Aircraft.airline (base f)
               /\ AVN.flightNumber avn = Aircraft.flightNumber (base f))).
Proof.
  unfold updateStatus, bind.
  set (f0 := {| base := base f; state := state f; stateTime := stateTime f + 1 |}).
  pose proof (Departure_advance_frame f0 g) as [R1 C1].
  destruct (advance f0 g) as [f1 g1]. cbn [fst snd] in R1, C1.
  set (f2 := if decide (state f0 ≠ state f1)
             then set_maintainViolationSpeed false f1 else f1).
  assert (R2 : at_rest (base f2) = at_rest (base f)).
  { subst f2. destruct (decide _); [|exact R1].
    unfold set_maintainViolationSpeed. simpl.
    rewrite at_rest_set_maintainViolationSpeed. exact R1. }
  pose proof (Departure_injectViolation_frame f2 g1) as (R3 & C3 & _ & _).
  destruct (injectViolation f2 g1) as [f3 g2]. cbn [fst snd] in R3, C3.
  pose proof (Departure_checkViolation_cases f3 g2) as (S4 & _ & N4 & D4 & H4).
  destruct (checkViolation f3 g2) as [f4 g3]. cbn [fst snd] in *.
  assert (R : at_rest (base f3) = at_rest (base f)) by congruence.
  assert (C : counters g2 = counters g) by congruence.
  unfold counters in C. injection C as Cn Ca Cd.
  repeat split; try congruence.
  destruct H4 as [[-> C4]|(Hin & A4 & avn & B4 & I4 & L4 & F4)].
  - left. unfold counters in *. split; congruence.
  - right. assert (getStateString f4 = getStateString f3) as ->
      by (unfold getStateString; by rewrite S4).
    rewrite <- (at_rest_violatedStates _ _ R). split; [done|].
    split; [congruence|]. exists avn. rewrite B4.
    split; [by apply at_rest_flag|]. split; [done|].
    apply (f_equal Aircraft.airline) in R as Ra.
    apply (f_equal Aircraft.flightNumber) in R as Rf. simpl in Ra, Rf.
    repeat split; congruence.
Qed.

Lemma Departure_advance_phase f g :
  let r := advance f g in
  state r.1 = state f
  \/ (state f = DepartureState.AT_GATE /\ state r.1 = DepartureState.TAXI
      /\ Aircraft.assignedRunway (base f) ≠ NONE)
  \/ (state f = DepartureState.TAXI
      /\ state r.1 = DepartureState.TAKEOFF_ROLL)
  \/ (state f = DepartureState.TAKEOFF_ROLL
      /\ state r.1 = DepartureState.CLIMB)
  \/ (state f = DepartureState.CLIMB /\ state r.1 = DepartureState.CRUISE).
Proof.
  unfold advance.
  destruct f as [b st n]; destruct st; run_m; auto 10.
  right; left. repeat split. by apply bool_decide_eq_true in H.
Qed.

Lemma Departure_updateStatus_phase t f g :
  let r := updateStatus t f g in
  state r.1 = state f
  \/ (state f = DepartureState.AT_GATE /\ state r.1 = DepartureState.TAXI
      /\ Aircraft.assignedRunway (base f) ≠ NONE)
  \/ (state f = DepartureState.TAXI
      /\ state r.1 = DepartureState.TAKEOFF_ROLL)
  \/ (state f = DepartureState.TAKEOFF_ROLL
      /\ state r.1 = DepartureState.CLIMB)
  \/ (state f = DepartureState.CLIMB /\ state r.1 = DepartureState.CRUISE).
Proof.
  unfold updateStatus, bind.
  set (f0 := {| base := base f; state := state f; stateTime := stateTime f + 1 |}).
  pose proof (Departure_advance_phase f0 g) as P1.
  destruct (advance f0 g) as [f1 g1]. simpl in P1.
  set (f2 := if decide (state f0 ≠ state f1)
             then set_maintainViolationSpeed false f1 else f1).
  assert (S2 : state f2 = state f1) by (subst f2; by destruct (decide _)).
  pose proof (Departure_injectViolation_frame f2 g1) as (_ & _ & S3 & _).
  destruct (injectViolation f2 g1) as [f3 g2]. simpl in S3.
  pose proof (Departure_checkViolation_cases f3 g2) as (S4 & _).
  destruct (checkViolation f3 g2) as [f4 g3]. simpl in *.
  rewrite S4, S3, S2. exact P1.
Qed.
End Departure.

(** *** Any flight *)

Lemma updateStatus_cases t x g :
  let r := updateStatus t x g in
  is_arrival r.1 = is_arrival x
  /\ Aircraft_nextId r.2 = Aircraft_nextId g
  /\ ((at_rest (base r.1) = at_rest (base x) /\ counters r.2 = counters g)
      \/ ((getStateString r.1 ∉ Aircraft.violatedStates (base x))
          /\ ArrivalFlight_avnIdCounter r.2
             = ArrivalFlight_avnIdCounter g + (if is_arrival x then 1 else 0)
          /\ DepartureFlight_avnIdCounter r.2
             = DepartureFlight_avnIdCounter g + (if is_arrival x then 0 else 1)
          /\ exists avn,
               at_rest (base r.1)
               = at_rest (flag avn (getStateString r.1) (base x))
               /\ Aircraft.currentViolation (base r.1) = Some avn
               /\ AVN.id avn = avnIdCounter x g
               /\ AVN.airline avn = Aircraft.airline (base x)
               /\ AVN.flightNumber avn = Aircraft.flightNumber (base x))).
Proof.
  destruct x as [f|f]; unfold updateStatus, bind, ret, avnIdCounter; simpl.
  - pose proof (Arrival_updateStatus_cases t f g) as (Hn & Hd & H).
    destruct (ArrivalFlight.updateStatus t f g) as [f' g']. simpl in *.
    repeat split; [done|]. destruct H as [H|(? & ? & ?)]; [by left|right].
    repeat split; try done. lia.
  - pose proof (Departure_updateStatus_cases t f g) as (Hn & Hd & H).
    destruct (DepartureFlight.updateStatus t f g) as [f' g']. simpl in *.
    repeat split; [done|]. destruct H as [H|(? & ? & ?)]; [by left|right].
    repeat split; try done. lia.
Qed.

Lemma at_rest_assignedRunway b1 b2 :
  at_rest b1 = at_rest b2 ->
  Aircraft.assignedRunway b1 = Aircraft.assignedRunway b2.
Proof. intros H. by apply (f_equal Aircraft.assignedRunway) in H. Qed.

Lemma updateStatus_assignedRunway t x g :
  Aircraft.assignedRunway (base (updateStatus t x g).1)
  = Aircraft.assignedRunway (base x).
Proof.
  pose proof (updateStatus_cases t x g) as (_ & _ & [[H _]|(_ & _ & _ & avn & H & _)]).
  - by apply at_rest_assignedRunway.
  - by apply at_rest_assignedRunway in H.
Qed.

Section AssignRunways.
Context (P : t -> Prop).
Context (HqA : forall q s, P s -> P (set_runwayAQueue q s)).
Context (HqB : forall q s, P s -> P (set_runwayBQueue q s)).
Context (HqC : forall q s, P s -> P (set_runwayCQueue q s)).
Context (Htake : forall r p s x, P s -> r ≠ NONE ->
  allFlights s !! p = Some x ->
  Aircraft.assignedRunway (base x) = NONE ->
  eligible s r = true -> P (takeRunway r p s)).
Context (Hrel : forall p s, P s -> P (releaseRunway p s)).

Lemma eligible_A s :
  runwayAAvailable s && (currentSimulationTime s >=? runwayAFreeTime s)
  = eligible s RWY_A.
Proof. done. Qed.
Lemma eligible_B s :
  runwayBAvailable s && (currentSimulationTime s >=? runwayBFreeTime s)
  = eligible s RWY_B.
Proof. done. Qed.
Lemma eligible_C s :
  runwayCAvailable s && (currentSimulationTime s >=? runwayCFreeTime s)
  = eligible s RWY_C.
Proof. done. Qed.

Ltac process_cases :=
  unfold tryRunwayA, tryRunwayB, tryRunwayC;
  rewrite ?eligible_A, ?eligible_B, ?eligible_C;
  repeat (case_match; simplify_eq/=; try done).

Lemma processRunwayA_ind p s temp : P s -> P (processRunwayA p s temp).1.
Proof.
  intros HP. unfold processRunwayA.
  destruct (allFlights s !! p) as [x|] eqn:Hx; [|done].
  destruct (decide _) as [|Hn%dec_stable]; [done|].
  process_cases;
    first [ by eapply (Htake RWY_C) | by eapply (Htake RWY_A) ].
Qed.

Lemma processRunwayB_ind p s temp : P s -> P (processRunwayB p s temp).1.
Proof.
  intros HP. unfold processRunwayB.
  destruct (allFlights s !! p) as [x|] eqn:Hx; [|done].
  destruct (decide _) as [|Hn%dec_stable]; [done|].
  process_cases;
    first [ by eapply (Htake RWY_C) | by eapply (Htake RWY_B) ].
Qed.

Lemma processRunwayC_ind p s temp : P s -> P (processRunwayC p s temp).1.
Proof.
  intros HP. unfold processRunwayC.
  destruct (allFlights s !! p) as [x|] eqn:Hx; [|done].
  destruct (decide _) as [|Hn%dec_stable]; [done|].
  process_cases; by eapply (Htake RWY_C).
Qed.

Lemma drain_ind queue set_queue body n s temp :
  (forall q s, P s -> P (set_queue q s)) ->
  (forall p s temp, P s -> P (body p s temp).1) ->
  P s -> P (drain queue set_queue body n s temp).1.
Proof.
  intros Hq Hb. revert s temp.
  induction n as [|n IH]; intros s temp HP; simpl; [done|].
  destruct (pq_pop _ _) as [[p rest]|]; [|done].
  specialize (Hb p (set_queue rest s) temp (Hq _ _ HP)).
  destruct (body p (set_queue rest s) temp) as [s' temp']. by apply IH.
Qed.

Lemma foldl_releaseRunway_ind l s :
  P s -> P (foldl (fun s p => releaseRunway p s) s l).
Proof. revert s. induction l; simpl; auto. Qed.

Lemma assignRunways_ind s : P s -> P (assignRunways s).
Proof.
  intros HP. unfold assignRunways.
  pose proof (drain_ind runwayAQueue set_runwayAQueue processRunwayA
    (length (runwayAQueue s)) s [] HqA processRunwayA_ind HP) as HA.
  destruct (drain runwayAQueue _ _ _ s []) as [sA tA]. simpl in HA.
  pose proof (drain_ind runwayBQueue set_runwayBQueue processRunwayB
    (length (runwayBQueue sA)) sA [] HqB processRunwayB_ind HA) as HB.
  destruct (drain runwayBQueue _ _ _ sA []) as [sB tB]. simpl in HB.
  pose proof (drain_ind runwayCQueue set_runwayCQueue processRunwayC
    (length (runwayCQueue sB)) sB [] HqC processRunwayC_ind HB) as HC.
  destruct (drain runwayCQueue _ _ _ sB []) as [sC tC]. simpl in HC.
  apply foldl_releaseRunway_ind; auto.
Qed.
End AssignRunways.

(** *** The store and the runways *)

Lemma runwayOf_store_other p q f s :
  q ≠ p -> runwayOf (store p f s) q = runwayOf s q.
Proof.
  intros Hne. unfold runwayOf, store. simpl.
  by rewrite list_lookup_alter_ne.
Qed.

Lemma runwayOf_store_same p q f s :
  (forall b, Aircraft.assignedRunway (f b) = Aircraft.assignedRunway b) ->
  runwayOf (store p f s) q = runwayOf s q.
Proof.
  intros Hf. destruct (decide (q = p)) as [->|Hne];
    [|by apply runwayOf_store_other].
  unfold runwayOf, store. simpl. rewrite list_lookup_alter_eq.
  destruct (allFlights s !! p) as [[x|x]|]; simpl; auto.
Qed.

Lemma runwayOf_store_assign p r s x :
  allFlights s !! p = Some x ->
  runwayOf (store p (Aircraft.set_assignedRunway r) s) p = r.
Proof.
  intros Hx. unfold runwayOf, store. simpl.
  rewrite list_lookup_alter_eq, Hx. by destruct x.
Qed.

Lemma consistent_same s s' :
  (forall r, available s' r = available s r) ->
  (forall r, occupant s' r = occupant s r) ->
  (forall p, runwayOf s' p = runwayOf s p) ->
  consistent s -> consistent s'.
Proof.
  intros Ha Ho Hr [H1 H2]. split.
  - intros r p Hn. rewrite Ho, Hr. by apply H1.
  - intros r Hn. rewrite Ha, Ho. by apply H2.
Qed.

Lemma consistent_take s s' r p :
  consistent s -> r ≠ NONE -> runwayOf s p = NONE -> available s r = true ->
  available s' r = false -> occupant s' r = Some p ->
  (forall r', r' ≠ r ->
     available s' r' = available s r' /\ occupant s' r' = occupant s r') ->
  runwayOf s' p = r ->
  (forall q, q ≠ p -> runwayOf s' q = runwayOf s q) ->
  consistent s'.
Proof.
  intros [H1 H2] Hr Hp Hav Hav' Hocc' Hoth Hp' Hq'. split.
  - intros r' q Hn. destruct (decide (r' = r)) as [->|Hne].
    + rewrite Hocc'. split; [by intros [= <-]|]. intros Hq.
      destruct (decide (q = p)) as [->|Hqp]; [done|].
      rewrite Hq' in Hq by done. apply H1 in Hq; [|done].
      apply H2 in Hav; [|done]. congruence.
    + destruct (Hoth r' Hne) as [_ ->]. rewrite H1 by done.
      destruct (decide (q = p)) as [->|Hqp].
      * rewrite Hp, Hp'. split; congruence.
      * by rewrite Hq'.
  - intros r' Hn. destruct (decide (r' = r)) as [->|Hne].
    + rewrite Hav', Hocc'. split; discriminate.
    + destruct (Hoth r' Hne) as [-> ->]. by apply H2.
Qed.

Lemma consistent_release s s' r p :
  consistent s -> r ≠ NONE -> runwayOf s p = r ->
  available s' r = true -> occupant s' r = None ->
  (forall r', r' ≠ r ->
     available s' r' = available s r' /\ occupant s' r' = occupant s r') ->
  runwayOf s' p = NONE ->
  (forall q, q ≠ p -> runwayOf s' q = runwayOf s q) ->
  consistent s'.
Proof.
  intros [H1 H2] Hr Hp Hav' Hocc' Hoth Hp' Hq'. split.
  - intros r' q Hn. destruct (decide (r' = r)) as [->|Hne].
    + rewrite Hocc'. split; [discriminate|]. intros Hq.
      destruct (decide (q = p)) as [->|Hqp]; [congruence|].
      rewrite Hq' in Hq by done.
      apply H1 in Hq; [|done]. apply H1 in Hp; [|done]. congruence.
    + destruct (Hoth r' Hne) as [_ ->]. rewrite H1 by done.
      destruct (decide (q = p)) as [->|Hqp].
      * rewrite Hp, Hp'. split; congruence.
      * by rewrite Hq'.
  - intros r' Hn. destruct (decide (r' = r)) as [->|Hne].
    + by rewrite Hav', Hocc'.
    + destruct (Hoth r' Hne) as [-> ->]. by apply H2.
Qed.

Lemma takeRunway_consistent r p s x :
  consistent s -> r ≠ NONE -> allFlights s !! p = Some x ->
  Aircraft.assignedRunway (base x) = NONE -> eligible s r = true ->
  consistent (takeRunway r p s).
Proof.
  intros Hc Hr Hx Hn [Hav _]%andb_prop.
  assert (runwayOf s p = NONE) as Hp by (unfold runwayOf; by rewrite Hx).
  apply (consistent_take s _ r p); try done.
  - by destruct r.
  - by destruct r.
  - intros r' Hne. by destruct r, r'.
  - destruct r; try done; simpl;
      unfold takeRunwayA, takeRunwayB, takeRunwayC;
      by rewrite (runwayOf_store_assign _ _ _ x).
  - intros q Hq. destruct r; try done; simpl;
      unfold takeRunwayA, takeRunwayB, takeRunwayC;
      by rewrite runwayOf_store_other.
Qed.

Lemma releaseRunway_consistent p s :
  consistent s -> consistent (releaseRunway p s).
Proof.
  intros Hc. unfold releaseRunway.
  destruct (allFlights s !! p) as [x|] eqn:Hx; [|done].
  destruct (decide _) as [Hn|]; [|done].
  match goal with |- consistent (if ?b then _ else _) => destruct b end;
    [|done].
  assert (runwayOf s p = Aircraft.assignedRunway (base x)) as Hp
    by (unfold runwayOf; by rewrite Hx).
  apply (consistent_release s _ (Aircraft.assignedRunway (base x)) p);
    try done.
  - by destruct (Aircraft.assignedRunway _).
  - by destruct (Aircraft.assignedRunway _).
  - intros r' Hne. by destruct (Aircraft.assignedRunway _), r'.
  - destruct (Aircraft.assignedRunway _); try done;
      unfold runwayOf, store; simpl; rewrite list_lookup_alter_eq, Hx;
      by destruct x.
  - intros q Hq. destruct (Aircraft.assignedRunway _); try done;
      unfold runwayOf, store; simpl; by rewrite list_lookup_alter_ne.
Qed.

Lemma assignRunways_consistent s : consistent s -> consistent (assignRunways s).
Proof.
  apply (assignRunways_ind consistent).
  - intros q s'. apply consistent_same; by try intros [].
  - intros q s'. apply consistent_same; by try intros [].
  - intros q s'. apply consistent_same; by try intros [].
  - intros r p s' x ?????. by eapply takeRunway_consistent.
  - intros p s'. apply releaseRunway_consistent.
Qed.

(** *** The loops over the queues end *)

Lemma pq_pop_length heap q m rest :
  pq_pop heap q = Some (m, rest) -> length q = S (length rest).
Proof.
  revert m rest. induction q as [|p q IH]; intros m rest; simpl; [done|].
  destruct (pq_pop heap q) as [[m' r']|] eqn:Hq.
  - destruct (comparePtr heap p m'); intros [= <- <-]; simpl; [|done].
    by rewrite (IH m' r').
  - destruct q as [|p' q]; [by intros [= <- <-]|].
    simpl in Hq. by repeat case_match.
Qed.

Lemma pq_pop_None heap q : pq_pop heap q = None <-> q = [].
Proof.
  split; [|by intros ->]. destruct q as [|p q]; [done|]. simpl.
  by repeat case_match.
Qed.

(** With as many turns as the queue has elements, [drain] stops on the
    empty queue, the exit of the [while] loop. *)
Lemma drain_empties queue set_queue body n s temp :
  (forall q s, queue (set_queue q s) = q) ->
  (forall p s temp, queue (body p s temp).1 = queue s) ->
  (length (queue s) <= n)%nat ->
  queue (drain queue set_queue body n s temp).1 = [].
Proof.
  intros Hset Hbody. revert s temp.
  induction n as [|n IH]; intros s temp Hlen; simpl.
  - destruct (queue s); [done|simpl in Hlen; lia].
  - destruct (pq_pop (allFlights s) (queue s)) as [[p rest]|] eqn:Hpop.
    + specialize (Hbody p (set_queue rest s) temp).
      destruct (body p (set_queue rest s) temp) as [s' temp'].
      apply IH. simpl in Hbody. rewrite Hbody, Hset.
      apply pq_pop_length in Hpop. lia.
    + by apply pq_pop_None in Hpop.
Qed.

Lemma assignRunways_loops_end s temp :
  runwayAQueue (drain runwayAQueue set_runwayAQueue processRunwayA
                  (length (runwayAQueue s)) s temp).1 = []
  /\ runwayBQueue (drain runwayBQueue set_runwayBQueue processRunwayB
                     (length (runwayBQueue s)) s temp).1 = []
  /\ runwayCQueue (drain runwayCQueue set_runwayCQueue processRunwayC
                     (length (runwayCQueue s)) s temp).1 = [].
Proof.
  repeat split; apply drain_empties; try done.
  - intros p s' temp'.
    apply (processRunwayA_ind (fun s0 => runwayAQueue s0 = runwayAQueue s'));
      try done. by intros [].
  - intros p s' temp'.
    apply (processRunwayB_ind (fun s0 => runwayBQueue s0 = runwayBQueue s'));
      try done. by intros [].
  - intros p s' temp'.
    apply (processRunwayC_ind (fun s0 => runwayCQueue s0 = runwayCQueue s'));
      try done. by intros [].
Qed.

Lemma system_clock_now_counters g :
  counters (system_clock_now g).2 = counters g.
Proof. unfold system_clock_now. by destruct (system_clock (inputs g)). Qed.

Lemma spawn_spec probability emergencyAirline numberBase direction s g :
  let r := spawn probability emergencyAirline numberBase direction s g in
  exists flight k,
    r.1 = enqueue direction (length (allFlights s))
            (set_activeFlights (activeFlights s ++ [length (allFlights s)])
               (set_allFlights (allFlights s ++ [flight]) s))
    /\ Aircraft.assignedRunway (base flight) = NONE
    /\ Aircraft.hasActiveViolation (base flight) = false
    /\ Aircraft.currentViolation (base flight) = None
    /\ Aircraft.violatedStates (base flight) = ∅
    /\ Aircraft.airline (base flight) = default "" (airlineNames s !! k)
    /\ (0 < length (airlineNames s) -> k < length (airlineNames s))%nat
    /\ is_arrival flight
       = bool_decide (direction = NORTH \/ direction = SOUTH)
    /\ Aircraft.direction (base flight) = direction
    /\ ArrivalFlight_avnIdCounter r.2 = ArrivalFlight_avnIdCounter g
    /\ DepartureFlight_avnIdCounter r.2 = DepartureFlight_avnIdCounter g.
Proof.
  unfold spawn, bind, ret. fold (airlineNames s).
  pose proof (uniform_int_counters 1 100 g) as C1.
  destruct (uniform_int 1 100 g) as [e g1].
  pose proof (uniform_int_counters 0 (Z.of_nat (length (airlineNames s)) - 1) g1) as C2.
  pose proof (uniform_int_range 0 (Z.of_nat (length (airlineNames s)) - 1) g1) as R2.
  destruct (uniform_int 0 _ g1) as [k g2].
  pose proof (system_clock_now_counters g2) as C3.
  destruct (system_clock_now g2) as [now g3].
  unfold counters in *. simpl in *.
  injection C1 as ???. injection C2 as ???. injection C3 as ???.
  assert (0 < length (airlineNames s) -> Z.to_nat k < length (airlineNames s))%nat
    as Hk by lia.
  destruct direction; unfold ArrivalFlight.new, DepartureFlight.new,
    Aircraft.new, next_Aircraft_id, bind, ret; simpl.
  1,2: pose proof (uniform_int_counters HOLDING_MIN_SPEED HOLDING_MAX_SPEED
         {| inputs := inputs g3; Aircraft_nextId := Aircraft_nextId g3 + 1;
            ArrivalFlight_avnIdCounter := ArrivalFlight_avnIdCounter g3;
            DepartureFlight_avnIdCounter := DepartureFlight_avnIdCounter g3 |})
         as C4;
       destruct (uniform_int HOLDING_MIN_SPEED _ _) as [v g4];
       unfold counters in C4; simpl in *; injection C4 as ???.
  all: eexists _, (Z.to_nat k); repeat split; try done; congruence.
Qed.

Section TickInduction.
Context (P : t -> Globals -> Prop).

Lemma bind_ind {A} (m : M t) (k : t -> M A) g (Q : A * Globals -> Prop) :
  P (m g).1 (m g).2 -> (forall s' g', P s' g' -> Q (k s' g')) ->
  Q (bind m k g).
Proof.
  intros Hm Hk. unfold bind. destruct (m g) as [s' g']. by apply Hk.
Qed.

Lemma cond_ind (c : bool) (m : M t) s g :
  P (m g).1 (m g).2 -> P s g ->
  P ((if c then m else ret s) g).1 ((if c then m else ret s) g).2.
Proof. by destruct c. Qed.

Lemma generateFlights_ind s g :
  (forall v s g, P s g -> P (set_lastNorthArrival v s) g) ->
  (forall v s g, P s g -> P (set_lastSouthArrival v s) g) ->
  (forall v s g, P s g -> P (set_lastEastDeparture v s) g) ->
  (forall v s g, P s g -> P (set_lastWestDeparture v s) g) ->
  (forall pr ea nb d s g, P s g ->
     P (spawn pr ea nb d s g).1 (spawn pr ea nb d s g).2) ->
  P s g -> P (generateFlights s g).1 (generateFlights s g).2.
Proof.
  intros HN HS HE HW Hsp HP. unfold generateFlights.
  apply (bind_ind _ _ _ (fun r => P r.1 r.2));
    [by apply cond_ind; [apply Hsp, HN|]|]. clear s g HP. intros s g HP.
  apply (bind_ind _ _ _ (fun r => P r.1 r.2));
    [by apply cond_ind; [apply Hsp, HS|]|]. clear s g HP. intros s g HP.
  apply (bind_ind _ _ _ (fun r => P r.1 r.2));
    [by apply cond_ind; [apply Hsp, HE|]|]. clear s g HP. intros s g HP.
  by apply cond_ind; [apply Hsp, HW|].
Qed.

Lemma forEach_ind body l s g :
  (forall p s g, P s g -> P (body p s g).1 (body p s g).2) ->
  P s g -> P (forEach body l s g).1 (forEach body l s g).2.
Proof.
  intros Hb. revert s g. induction l as [|p l IH]; intros s g HP; [done|].
  simpl. unfold bind. specialize (Hb p s g HP).
  destruct (body p s g) as [s' g']. by apply IH.
Qed.

Lemma updateSimulation_ind s g :
  (forall s g, P s g ->
     P (set_currentSimulationTime (currentSimulationTime s + 1) s) g) ->
  (forall s g, P s g -> P (generateFlights s g).1 (generateFlights s g).2) ->
  (forall s g, P s g -> P (assignRunways s) g) ->
  (forall p s g, P s g -> P (updateFlight p s g).1 (updateFlight p s g).2) ->
  (forall s g, P s g -> P (moveCompletedFlights s) g) ->
  P s g -> P (updateSimulation s g).1 (updateSimulation s g).2.
Proof.
  intros Ht Hg Ha Hu Hm HP. unfold updateSimulation, bind, ret.
  specialize (Hg _ _ (Ht _ _ HP)).
  destruct (generateFlights _ g) as [s1 g1]. simpl in Hg.
  apply Ha in Hg. unfold updateFlights.
  pose proof (forEach_ind updateFlight (activeFlights (assignRunways s1))
                _ _ Hu Hg) as H.
  destruct (forEach updateFlight _ _ g1) as [s2 g2]. simpl in *. by apply Hm.
Qed.
End TickInduction.

Lemma reachable_ind_inputs (P : t -> Globals -> Prop) :
  (forall i, P new (start i)) ->
  (forall i s g, P s g -> P s (set_inputs i g)) ->
  (forall s g, P s g -> P (updateSimulation s g).1 (updateSimulation s g).2) ->
  forall σ, reachable σ -> P σ.1 σ.2.
Proof.
  intros H0 Hi Ht σ Hr. induction Hr as [i|i [s g] _ IH]; [apply H0|].
  unfold tick. simpl in *. by apply Ht, Hi.
Qed.

(** *** The runways stay consistent *)

Lemma runwayOf_ext s s' :
  allFlights s' = allFlights s -> forall q, runwayOf s' q = runwayOf s q.
Proof. intros H q. unfold runwayOf. by rewrite H. Qed.

Lemma runwayOf_app s s' flight :
  Aircraft.assignedRunway (base flight) = NONE ->
  allFlights s' = allFlights s ++ [flight] ->
  forall q, runwayOf s' q = runwayOf s q.
Proof.
  intros Hn H q. unfold runwayOf. rewrite H.
  destruct (decide (q < length (allFlights s))%nat) as [Hlt|Hge].
  - by rewrite lookup_app_l.
  - rewrite lookup_app_r by lia. rewrite (lookup_ge_None_2 (allFlights s)) by lia.
    destruct (q - length (allFlights s))%nat as [|[|]]; by simpl.
Qed.

Lemma runwayOf_insert s s' p x x' :
  allFlights s !! p = Some x ->
  Aircraft.assignedRunway (base x') = Aircraft.assignedRunway (base x) ->
  allFlights s' = <[p := x']> (allFlights s) ->
  forall q, runwayOf s' q = runwayOf s q.
Proof.
  intros Hx Hr H q. unfold runwayOf. rewrite H.
  destruct (decide (q = p)) as [->|Hne].
  - rewrite list_lookup_insert_eq by (by eapply lookup_lt_Some).
    rewrite Hx. simpl. done.
  - by rewrite list_lookup_insert_ne.
Qed.

Lemma spawn_consistent pr ea nb d s g :
  consistent s -> consistent (spawn pr ea nb d s g).1.
Proof.
  intros Hc. destruct (spawn_spec pr ea nb d s g) as (flight & k & -> & Hn & _).
  revert Hc. apply consistent_same.
  - by intros []; destruct d.
  - by intros []; destruct d.
  - apply (runwayOf_app _ _ flight Hn). by destruct d.
Qed.

Lemma updateFlight_runways p s g :
  let s' := (updateFlight p s g).1 in
  (forall r, available s' r = available s r)
  /\ (forall r, occupant s' r = occupant s r)
  /\ (forall r, freeTime s' r = freeTime s r)
  /\ (forall q, runwayOf s' q = runwayOf s q)
  /\ currentSimulationTime s' = currentSimulationTime s
  /\ activeFlights s' = activeFlights s.
Proof.
  unfold updateFlight.
  destruct (allFlights s !! p) as [x|] eqn:Hx; [|done].
  unfold bind. pose proof (updateStatus_assignedRunway (currentSimulationTime s) x g) as Hr.
  destruct (updateStatus _ x g) as [x' g']. simpl in Hr.
  repeat case_match; unfold ret; simpl.
  all: repeat split; try (by intros []); intros q;
    rewrite ?runwayOf_store_same by done;
    by apply (runwayOf_insert s _ p x x').
Qed.

Lemma moveCompletedFlights_consistent s :
  consistent s -> consistent (moveCompletedFlights s).
Proof. apply consistent_same; by try intros []. Qed.

Lemma updateSimulation_consistent s g :
  consistent s -> consistent (updateSimulation s g).1.
Proof.
  apply (updateSimulation_ind (fun s _ => consistent s)).
  - clear. intros s _. apply consistent_same; by try intros [].
  - clear. intros s g. apply (generateFlights_ind (fun s _ => consistent s)).
    1-4: intros v s' _; apply consistent_same; by try intros [].
    intros. by apply spawn_consistent.
  - clear. intros s _. apply assignRunways_consistent.
  - clear. intros p s g.
    destruct (updateFlight_runways p s g) as (Ha & Ho & _ & Hr & _).
    by apply consistent_same.
  - clear. intros s _. apply moveCompletedFlights_consistent.
Qed.

Lemma new_consistent : consistent new.
Proof.
  split.
  - intros r p Hr. unfold runwayOf. simpl. destruct r; simpl; split; done.
  - intros r Hr. by destruct r.
Qed.

Lemma reachable_consistent σ : reachable σ -> consistent σ.1.
Proof.
  apply (reachable_ind_inputs (fun s _ => consistent s)).
  - intros _. apply new_consistent.
  - done.
  - intros s g. apply updateSimulation_consistent.
Qed.

(** *** What a tick leaves of an aircraft that holds a runway *)

Lemma store_lookup_other p q f s :
  q ≠ p -> allFlights (store p f s) !! q = allFlights s !! q.
Proof. intros Hne. unfold store. simpl. by rewrite list_lookup_alter_ne. Qed.

Lemma takeRunway_lookup_other r p q s :
  q ≠ p -> allFlights (takeRunway r p s) !! q = allFlights s !! q.
Proof.
  intros Hne. destruct r; try done; simpl; by rewrite list_lookup_alter_ne.
Qed.

Lemma takeRunway_fields r p s :
  currentSimulationTime (takeRunway r p s) = currentSimulationTime s
  /\ activeFlights (takeRunway r p s) = activeFlights s.
Proof. by destruct r. Qed.

Lemma releaseRunway_lookup_other p q s :
  q ≠ p -> allFlights (releaseRunway p s) !! q = allFlights s !! q.
Proof.
  intros Hne. unfold releaseRunway.
  repeat case_match; try done; simpl; by rewrite list_lookup_alter_ne.
Qed.

Lemma releaseRunway_fields p s :
  currentSimulationTime (releaseRunway p s) = currentSimulationTime s
  /\ activeFlights (releaseRunway p s) = activeFlights s.
Proof. unfold releaseRunway. by repeat case_match. Qed.

Lemma releaseRunway_not_releasing p s x :
  allFlights s !! p = Some x -> releasing x = false -> releaseRunway p s = s.
Proof.
  intros Hx Hr. unfold releaseRunway. rewrite Hx.
  destruct (decide _); [|done]. destruct x; simpl in *; by rewrite Hr.
Qed.

Lemma releaseRunway_releasing p s x :
  allFlights s !! p = Some x -> releasing x = true ->
  Aircraft.assignedRunway (base x) ≠ NONE ->
  let r := Aircraft.assignedRunway (base x) in
  let s' := releaseRunway p s in
  available s' r = true /\ occupant s' r = None
  /\ freeTime s' r = currentSimulationTime s /\ runwayOf s' p = NONE.
Proof.
  intros Hx Hr Hn. unfold releaseRunway. rewrite Hx.
  destruct (decide _); [|done].
  simpl.
  match goal with |- context [if ?b then _ else s] =>
    assert (b = true) as -> by (destruct x; simpl in *; by rewrite Hr) end.
  destruct (Aircraft.assignedRunway (base x)) eqn:E; try done;
    repeat split; unfold runwayOf, store; simpl;
    rewrite list_lookup_alter_eq, Hx; by destruct x.
Qed.

Section Holder.
Context (p : nat) (y : Flight) (T : Z).
Context (Hy : Aircraft.assignedRunway (base y) ≠ NONE).

Lemma spawn_holds pr ea nb d s g : holds p y T s -> holds p y T (spawn pr ea nb d s g).1.
Proof.
  intros (Hx & Ha & Ht).
  destruct (spawn_spec pr ea nb d s g) as (flight & k & -> & _).
  repeat split.
  - destruct d; simpl; rewrite lookup_app_l; try done;
      by eapply lookup_lt_Some.
  - destruct d; simpl; apply elem_of_app; by left.
  - by destruct d.
Qed.

Lemma generateFlights_holds s g : holds p y T s -> holds p y T (generateFlights s g).1.
Proof.
  apply (generateFlights_ind (fun s _ => holds p y T s)); try done.
  intros. by apply spawn_holds.
Qed.

Lemma takeRunway_holds r q s x :
  holds p y T s -> allFlights s !! q = Some x ->
  Aircraft.assignedRunway (base x) = NONE -> holds p y T (takeRunway r q s).
Proof.
  intros (Hx & Ha & Ht) Hq Hn.
  assert (p ≠ q) by (intros ->; congruence).
  destruct (takeRunway_fields r q s) as [Ht' Ha']. unfold holds.
  by rewrite Ht', Ha', takeRunway_lookup_other.
Qed.

Lemma drains_holds s :
  holds p y T s ->
  let a := drain runwayAQueue set_runwayAQueue processRunwayA
             (length (runwayAQueue s)) s [] in
  let b := drain runwayBQueue set_runwayBQueue processRunwayB
             (length (runwayBQueue a.1)) a.1 [] in
  let c := drain runwayCQueue set_runwayCQueue processRunwayC
             (length (runwayCQueue b.1)) b.1 [] in
  holds p y T c.1.
Proof.
  intros H.
  assert (forall r q s x, holds p y T s -> r ≠ NONE -> allFlights s !! q = Some x ->
            Aircraft.assignedRunway (base x) = NONE -> eligible s r = true ->
            holds p y T (takeRunway r q s)) as Htake
    by (intros; by eapply takeRunway_holds).
  simpl. apply drain_ind; try done; [|apply drain_ind; try done;
    [|apply drain_ind; try done]].
  - intros. by apply processRunwayC_ind.
  - intros. by apply processRunwayB_ind.
  - intros. by apply processRunwayA_ind.
Qed.

Lemma releaseRunway_holds q s :
  releasing y = false -> holds p y T s -> holds p y T (releaseRunway q s).
Proof.
  intros Hr (Hx & Ha & Ht). destruct (decide (q = p)) as [->|Hne].
  - by rewrite (releaseRunway_not_releasing p s y).
  - destruct (releaseRunway_fields q s) as [Ht' Ha']. unfold holds.
    by rewrite Ht', Ha', releaseRunway_lookup_other.
Qed.

Lemma assignRunways_holds s :
  releasing y = false -> holds p y T s -> holds p y T (assignRunways s).
Proof.
  intros Hr. apply assignRunways_ind; try done.
  - intros. by eapply takeRunway_holds.
  - intros. by apply releaseRunway_holds.
Qed.

Lemma releaseRunway_released r q s :
  released p T r s -> released p T r (releaseRunway q s).
Proof.
  intros (Ha & Ho & Hf & Hp & Ht). unfold releaseRunway.
  destruct (allFlights s !! q) as [x|] eqn:Hx; [|done].
  destruct (decide _) as [Hn|]; [|done].
  match goal with |- released p T r (if ?b then _ else _) => destruct b end;
    [|done].
  assert (q ≠ p) as Hne.
  { intros ->. unfold runwayOf in Hp. rewrite Hx in Hp. done. }
  unfold released.
  destruct (Aircraft.assignedRunway (base x)), r; try done; simpl in *;
    unfold runwayOf, store; simpl; rewrite list_lookup_alter_ne by done;
    repeat split; try done; congruence.
Qed.

Lemma foldl_releaseRunway_released l s :
  releasing y = true ->
  (holds p y T s /\ p ∈ l) \/ released p T (Aircraft.assignedRunway (base y)) s ->
  released p T (Aircraft.assignedRunway (base y))
    (foldl (fun s q => releaseRunway q s) s l).
Proof.
  intros Hr. revert s. induction l as [|q l IH]; intros s H; simpl.
  - destruct H as [[_ Hin]|H]; [|done]. by apply elem_of_nil in Hin.
  - apply IH. destruct H as [[(Hx & Ha & Ht) Hin]|H].
    + destruct (decide (q = p)) as [->|Hne].
      * right. destruct (releaseRunway_releasing p s y Hx Hr Hy)
          as (? & ? & ? & ?).
        destruct (releaseRunway_fields p s) as [Ht' _].
        unfold released. repeat split; congruence.
      * left. apply elem_of_cons in Hin as [->|Hin]; [done|].
        split; [|done].
        destruct (releaseRunway_fields q s) as [Ht' Ha'].
        unfold holds. rewrite Ht', Ha'.
        by rewrite releaseRunway_lookup_other.
    + right. by apply releaseRunway_released.
Qed.

Lemma assignRunways_released s :
  releasing y = true -> holds p y T s ->
  released p T (Aircraft.assignedRunway (base y)) (assignRunways s).
Proof.
  intros Hr H. pose proof (drains_holds s H) as Hd. simpl in Hd.
  unfold assignRunways.
  destruct (drain runwayAQueue _ _ _ s []) as [sA tA]. simpl in Hd.
  destruct (drain runwayBQueue _ _ _ sA []) as [sB tB]. simpl in Hd.
  destruct (drain runwayCQueue _ _ _ sB []) as [sC tC]. simpl in Hd.
  apply foldl_releaseRunway_released; [done|]. left. simpl.
  destruct Hd as (? & ? & ?). by repeat split.
Qed.
End Holder.

Lemma updateFlights_runways s g :
  let s' := (updateFlights s g).1 in
  (forall r, available s' r = available s r)
  /\ (forall r, occupant s' r = occupant s r)
  /\ (forall r, freeTime s' r = freeTime s r)
  /\ (forall q, runwayOf s' q = runwayOf s q)
  /\ currentSimulationTime s' = currentSimulationTime s
  /\ activeFlights s' = activeFlights s.
Proof.
  unfold updateFlights.
  apply (forEach_ind (fun s' _ =>
    (forall r, available s' r = available s r)
    /\ (forall r, occupant s' r = occupant s r)
    /\ (forall r, freeTime s' r = freeTime s r)
    /\ (forall q, runwayOf s' q = runwayOf s q)
    /\ currentSimulationTime s' = currentSimulationTime s
    /\ activeFlights s' = activeFlights s)); [|done].
  intros p s0 g0 (Ha & Ho & Hf & Hr & Ht & Hact).
  destruct (updateFlight_runways p s0 g0) as (Ha' & Ho' & Hf' & Hr' & Ht' & Hact').
  repeat split; intros; congruence.
Qed.

Lemma moveCompletedFlights_active p s x :
  allFlights s !! p = Some x -> isCompleted x = false ->
  p ∈ activeFlights s -> p ∈ activeFlights (moveCompletedFlights s).
Proof.
  intros Hx Hc Hin. unfold moveCompletedFlights. simpl.
  apply list_elem_of_filter. split; [|done]. unfold completed. by rewrite Hx.
Qed.

(** The aircraft that entered the phase in which it gives its runway
    back is still flying. *)
Lemma release_phase_not_completed x :
  phase x = ArrivalPhase ArrivalState.TAXI
  \/ phase x = DeparturePhase DepartureState.CLIMB ->
  releasing x = true /\ isCompleted x = false.
Proof.
  destruct x as [f|f]; simpl; intros [H|H]; inversion H as [E];
    unfold ArrivalFlight.isCompleted, DepartureFlight.isCompleted;
    rewrite E; split; reflexivity.
Qed.

Lemma tick_holds i σ p x x1 :
  p ∈ activeFlights σ.1 ->
  allFlights σ.1 !! p = Some x ->
  Aircraft.assignedRunway (base x) ≠ NONE ->
  releasing x = false ->
  allFlights (tick i σ).1 !! p = Some x1 ->
  isCompleted x1 = false ->
  holds p x1 (currentSimulationTime σ.1 + 1) (tick i σ).1
  /\ Aircraft.assignedRunway (base x1) = Aircraft.assignedRunway (base x).
Proof.
  destruct σ as [s g]. simpl. intros Hin Hx Hn Hrel.
  unfold tick, updateSimulation, bind, ret. simpl.
  set (T := currentSimulationTime s + 1).
  assert (holds p x T (set_currentSimulationTime T s)) as H0 by done.
  apply (generateFlights_holds p x T _ (set_inputs i g)) in H0.
  destruct (generateFlights _ (set_inputs i g)) as [s1 g1]. simpl in H0.
  apply (assignRunways_holds p x T Hn s1 Hrel) in H0.
  destruct (updateFlights_runways (assignRunways s1) g1)
    as (_ & _ & _ & Hr & Ht & Hact).
  destruct (updateFlights (assignRunways s1) g1) as [s3 g3]. simpl in *.
  intros Hx1 Hc. destruct H0 as (Hx0 & Hin0 & Ht0).
  split.
  - repeat split; [done| |by rewrite <- Ht0, <- Ht].
    apply (moveCompletedFlights_active p s3 x1); [done..|]. by rewrite Hact.
  - specialize (Hr p). unfold runwayOf in Hr. rewrite Hx0 in Hr.
    change (allFlights (moveCompletedFlights s3)) with (allFlights s3) in Hx1.
    by rewrite Hx1 in Hr.
Qed.

Lemma tick_released i σ p x1 :
  holds p x1 (currentSimulationTime σ.1) σ.1 ->
  Aircraft.assignedRunway (base x1) ≠ NONE ->
  releasing x1 = true ->
  released p (currentSimulationTime σ.1 + 1)
    (Aircraft.assignedRunway (base x1)) (tick i σ).1.
Proof.
  destruct σ as [s g]. simpl. intros (Hx & Hin & _) Hn Hrel.
  unfold tick, updateSimulation, bind, ret. simpl.
  set (T := currentSimulationTime s + 1).
  assert (holds p x1 T (set_currentSimulationTime T s)) as H0 by done.
  apply (generateFlights_holds p x1 T _ (set_inputs i g)) in H0.
  destruct (generateFlights _ (set_inputs i g)) as [s1 g1]. simpl in H0.
  apply (assignRunways_released p x1 T Hn s1 Hrel) in H0.
  destruct (updateFlights_runways (assignRunways s1) g1)
    as (Ha & Ho & Hf & Hr & Ht & _).
  destruct (updateFlights (assignRunways s1) g1) as [s3 g3]. simpl in *.
  destruct H0 as (? & ? & ? & ? & ?).
  unfold released. rewrite <- Ha, <- Ho, <- Hf, <- Hr, <- Ht in *.
  repeat split; by try destruct (Aircraft.assignedRunway (base x1)).
Qed.

(** C5, as amended. The runway an aircraft holds is not taken back in the
    tick in which the aircraft enters the phase of the release (Taxi for
    an arrival, Climb for a departure): the release check of that tick has
    run before the aircraft advanced. The check of the following tick
    takes it back: at the end of that tick the runway is available, has
    no occupant, and its free-since stamp is that tick. *)
Theorem runway_released_in_next_tick (σ : State) (i1 i2 : Inputs) (p : nat)
    (x x1 : Flight) (r : Runway) :
  reachable σ ->
  p ∈ activeFlights σ.1 ->
  allFlights σ.1 !! p = Some x ->
  Aircraft.assignedRunway (base x) = r -> r ≠ NONE ->
  releasing x = false ->
  allFlights (tick i1 σ).1 !! p = Some x1 ->
  phase x1 = ArrivalPhase ArrivalState.TAXI
  \/ phase x1 = DeparturePhase DepartureState.CLIMB ->
  (available (tick i1 σ).1 r = false
   /\ occupant (tick i1 σ).1 r = Some p
   /\ runwayOf (tick i1 σ).1 p = r)
  /\ (available (tick i2 (tick i1 σ)).1 r = true
      /\ occupant (tick i2 (tick i1 σ)).1 r = None
      /\ freeTime (tick i2 (tick i1 σ)).1 r
         = currentSimulationTime (tick i2 (tick i1 σ)).1
      /\ currentSimulationTime (tick i2 (tick i1 σ)).1
         = currentSimulationTime (tick i1 σ).1 + 1
      /\ runwayOf (tick i2 (tick i1 σ)).1 p = NONE).
Proof.
  intros Hreach Hin Hx Hr Hn Hrel Hx1 Hph.
  destruct (release_phase_not_completed x1 Hph) as [Hrel1 Hc1].
  destruct (tick_holds i1 σ p x x1) as [Hh Hr1]; try done; [congruence|].
  assert (runwayOf (tick i1 σ).1 p = r) as Hp
    by (unfold runwayOf; rewrite Hx1; simpl; congruence).
  pose proof (reachable_consistent _ (reachable_tick i1 σ Hreach)) as [C1 C2].
  assert (occupant (tick i1 σ).1 r = Some p) as Ho by (by apply C1).
  split.
  - repeat split; try done.
    destruct (available (tick i1 σ).1 r) eqn:Ha; [|done].
    apply C2 in Ha; [congruence|done].
  - assert (holds p x1 (currentSimulationTime (tick i1 σ).1) (tick i1 σ).1)
      as Hh' by (destruct Hh as (? & ? & Ht1); by rewrite Ht1).
    pose proof (tick_released i2 (tick i1 σ) p x1 Hh') as Hrl.
    rewrite Hr1, Hr in Hrl.
    destruct Hrl as (? & ? & ? & ? & ?); try done.
    repeat split; try done; congruence.
Qed.

Lemma set_inputs_inputs g : set_inputs (inputs g) g = g.
Proof. by destruct g. Qed.

Lemma reachable_run n i : reachable (run n i).
Proof.
  induction n as [|n IH]; simpl; [constructor|].
  rewrite <- (set_inputs_inputs (run n i).2). by apply reachable_tick.
Qed.

(** C2. In every reachable state of the scheduler the occupant recorded
    for a runway is exactly the aircraft whose [assignedRunway] names that
    runway; hence a runway has at most one holder and no aircraft is the
    occupant of two runways. *)
Theorem runways_exclusive (σ : State) :
  reachable σ ->
  (forall r p, r ≠ NONE -> occupant σ.1 r = Some p <-> runwayOf σ.1 p = r)
  /\ (forall r p q, r ≠ NONE ->
        runwayOf σ.1 p = r -> runwayOf σ.1 q = r -> p = q)
  /\ (forall r r' p,
        occupant σ.1 r = Some p -> occupant σ.1 r' = Some p -> r = r').
Proof.
  intros [H1 _]%reachable_consistent. split; [done|]. split.
  - intros r p q Hr Hp Hq. apply H1 in Hp, Hq; try done. congruence.
  - intros r r' p Hp Hq.
    assert (r ≠ NONE) by (intros ->; done).
    assert (r' ≠ NONE) by (intros ->; done).
    apply H1 in Hp, Hq; try done. congruence.
Qed.

Lemma runways_exclusive_witness :
  let σ := run 4 steady_inputs in
  (occupant σ.1 <$> [RWY_A; RWY_B; RWY_C]) = [Some 1; Some 2; Some 0]%nat
  /\ (forall r p, r ≠ NONE -> occupant σ.1 r = Some p <-> runwayOf σ.1 p = r)
  /\ (forall r p q, r ≠ NONE ->
        runwayOf σ.1 p = r -> runwayOf σ.1 q = r -> p = q)
  /\ (forall r r' p,
        occupant σ.1 r = Some p -> occupant σ.1 r' = Some p -> r = r').
Proof.
  split; [vm_compute; reflexivity|].
  apply (runways_exclusive (run 4 steady_inputs)). apply reachable_run.
Defined.

Lemma release_not_in_same_tick :
  let before := (run 27 steady_inputs).1 in
  let after := (run 28 steady_inputs).1 in
  phase <$> allFlights before !! 2%nat
    = Some (DeparturePhase DepartureState.TAKEOFF_ROLL)
  /\ runwayOf before 2 = RWY_B
  /\ phase <$> allFlights after !! 2%nat
     = Some (DeparturePhase DepartureState.CLIMB)
  /\ currentSimulationTime after = 28
  /\ runwayBAvailable after = false
  /\ runwayBOccupant after = Some 2%nat
  /\ runwayBFreeTime after = 0.
Proof. vm_compute. repeat split; reflexivity. Qed.

Lemma runway_released_in_next_tick_witness :
  let σ := run 27 steady_inputs in
  let σ1 := tick steady_inputs σ in
  let σ2 := tick steady_inputs σ1 in
  (available σ1.1 RWY_B = false /\ occupant σ1.1 RWY_B = Some 2%nat
   /\ runwayOf σ1.1 2 = RWY_B)
  /\ (available σ2.1 RWY_B = true /\ occupant σ2.1 RWY_B = None
      /\ freeTime σ2.1 RWY_B = currentSimulationTime σ2.1
      /\ currentSimulationTime σ2.1 = currentSimulationTime σ1.1 + 1
      /\ runwayOf σ2.1 2 = NONE).
Proof.
  eapply (runway_released_in_next_tick (run 27 steady_inputs) steady_inputs
            steady_inputs 2 _ _ RWY_B).
  - apply reachable_run.
  - vm_compute. do 2 right. left.
  - vm_compute. reflexivity.
  - vm_compute. reflexivity.
  - discriminate.
  - vm_compute. reflexivity.
  - vm_compute. reflexivity.
  - right. vm_compute. reflexivity.
Defined.

(** *** The ledger of notices *)

Lemma issued_to_grows s s' b avn :
  grows s s' -> issued_to s b avn -> issued_to s' b avn.
Proof.
  intros Hg (p & x & Hx & Hb & Hf & Ha).
  destruct (Hg p x Hx) as (x' & Hx' & ? & ? & ?).
  exists p, x'. repeat split; congruence.
Qed.

Lemma ledger_split_grows s s' g g' arrivals departures :
  grows s s' -> allAVNs s' = allAVNs s ->
  ArrivalFlight_avnIdCounter g' = ArrivalFlight_avnIdCounter g ->
  DepartureFlight_avnIdCounter g' = DepartureFlight_avnIdCounter g ->
  ledger_split s g arrivals departures ->
  ledger_split s' g' arrivals departures.
Proof.
  intros Hg Hv Ca Cd (Hperm & Harr & Hdep & Ia & Id). unfold ledger_split.
  rewrite Hv, Ca, Cd. repeat split; try done.
  - eapply Forall_impl; [done|]. intros avn. by apply issued_to_grows.
  - eapply Forall_impl; [done|]. intros avn. by apply issued_to_grows.
Qed.

Lemma grows_refl s s' : allFlights s' = allFlights s -> grows s s'.
Proof. intros H p x Hx. exists x. by rewrite H. Qed.

Lemma grows_alter p f s s' :
  (forall x, is_arrival (f x) = is_arrival x
     /\ Aircraft.flightNumber (base (f x)) = Aircraft.flightNumber (base x)
     /\ Aircraft.airline (base (f x)) = Aircraft.airline (base x)) ->
  allFlights s' = alter f p (allFlights s) -> grows s s'.
Proof.
  intros Hf H q x Hx. rewrite H. destruct (decide (q = p)) as [->|Hne].
  - exists (f x). rewrite list_lookup_alter_eq, Hx. split; [done|]. apply Hf.
  - exists x. by rewrite list_lookup_alter_ne.
Qed.

Lemma grows_app s s' l :
  allFlights s' = allFlights s ++ l -> grows s s'.
Proof.
  intros H q x Hx. exists x. rewrite H.
  rewrite lookup_app_l by (by eapply lookup_lt_Some). done.
Qed.

Lemma grows_insert p x x' s s' :
  allFlights s !! p = Some x ->
  is_arrival x' = is_arrival x ->
  Aircraft.flightNumber (base x') = Aircraft.flightNumber (base x) ->
  Aircraft.airline (base x') = Aircraft.airline (base x) ->
  allFlights s' = <[p:=x']> (allFlights s) -> grows s s'.
Proof.
  intros Hx ? ? ? H q y Hy. rewrite H. destruct (decide (q = p)) as [->|Hne].
  - exists x'. rewrite list_lookup_insert_eq by (by eapply lookup_lt_Some).
    split; [done|]. by simplify_eq.
  - exists y. by rewrite list_lookup_insert_ne.
Qed.

Lemma AirlineMap_find_elem k (m : AirlineMap.t) :
  k ∈ m.*1 -> is_Some (AirlineMap.find k m).
Proof.
  induction m as [|[k' v] m IH]; simpl; [by intros ?%elem_of_nil|].
  intros [->|Hin]%elem_of_cons.
  - by rewrite String.eqb_refl.
  - destruct (String.eqb k k'); [done|]. by apply IH.
Qed.

Lemma AirlineMap_find_update k k' f (m : AirlineMap.t) :
  is_Some (AirlineMap.find k m) ->
  is_Some (AirlineMap.find k (AirlineMap.update k' f m)).
Proof.
  induction m as [|[k0 v] m IH]; simpl; [done|].
  destruct (String.eqb k' k0) eqn:E; simpl.
  - by destruct (String.eqb k k0).
  - destruct (String.eqb k k0); [done|]. apply IH.
Qed.

Lemma AirlineMap_update_addViolation k avn (m : AirlineMap.t) :
  Forall (fun pair => 0 < Airline.activeFlights pair.2) m ->
  Forall (fun pair => 0 < Airline.activeFlights pair.2)
    (AirlineMap.update k (Airline.addViolation avn) m).
Proof.
  induction 1 as [|[k0 v] m Hv Hm IH]; simpl; [done|].
  destruct (String.eqb k k0); constructor; done.
Qed.

Lemma AirlineMap_update_nil k f (m : AirlineMap.t) :
  m ≠ [] -> AirlineMap.update k f m ≠ [].
Proof. destruct m as [|[k0 v] m]; simpl; [done|]. by destruct (String.eqb k k0). Qed.

Lemma airlineNames_registry s :
  registry_ok s -> airlineNames s = (airlines s).*1 /\ airlineNames s ≠ [].
Proof.
  intros [Hne Hall]. unfold airlineNames.
  assert (filter (fun pair => 0 < Airline.activeFlights pair.2) (airlines s)
          = airlines s) as ->.
  { clear Hne. induction Hall as [|pair m Hp Hm IH]; [done|].
    rewrite filter_cons_True by done. by rewrite IH. }
  split; [done|]. by destruct (airlines s).
Qed.

Lemma settled_ext s s' x x' :
  airlines s' = airlines s ->
  Aircraft.airline (base x') = Aircraft.airline (base x) ->
  Aircraft.hasActiveViolation (base x') = Aircraft.hasActiveViolation (base x) ->
  Aircraft.currentViolation (base x') = Aircraft.currentViolation (base x) ->
  settled s x -> settled s' x'.
Proof. unfold settled. intros -> -> -> ->. done. Qed.

Lemma ledger_ok_store p r s g :
  ledger_ok s g -> ledger_ok (store p (Aircraft.set_assignedRunway r) s) g.
Proof.
  intros (Hreg & Hall & Ha & Hd & arrivals & departures & Hsplit).
  repeat split; try done.
  - apply Hreg.
  - apply Hreg.
  - simpl. apply Forall_alter; [done|]. intros x _.
    apply settled_ext; by destruct x.
  - exists arrivals, departures. revert Hsplit.
    apply ledger_split_grows; try done.
    eapply grows_alter; [|done]. by intros [].
Qed.

Lemma ledger_ok_ext s s' g :
  airlines s' = airlines s -> allFlights s' = allFlights s ->
  allAVNs s' = allAVNs s -> ledger_ok s g -> ledger_ok s' g.
Proof.
  intros Ha Hf Hv (Hreg & Hall & ? & ? & arrivals & departures & Hsplit).
  unfold ledger_ok, registry_ok.
  rewrite Ha, Hf. repeat split; try done; try apply Hreg.
  - eapply Forall_impl; [done|]. intros x. by apply settled_ext.
  - exists arrivals, departures. revert Hsplit.
    apply ledger_split_grows; try done. by apply grows_refl.
Qed.

Lemma takeRunway_ledger_ok r p s g :
  ledger_ok s g -> ledger_ok (takeRunway r p s) g.
Proof.
  intros H. destruct r; try done; simpl;
    unfold takeRunwayA, takeRunwayB, takeRunwayC;
    apply ledger_ok_store; revert H; by apply ledger_ok_ext.
Qed.

Lemma releaseRunway_ledger_ok p s g :
  ledger_ok s g -> ledger_ok (releaseRunway p s) g.
Proof.
  intros H. unfold releaseRunway. repeat case_match; try done;
    (eapply ledger_ok_ext; [..|by apply (ledger_ok_store p NONE)]); done.
Qed.

Lemma assignRunways_ledger_ok s g :
  ledger_ok s g -> ledger_ok (assignRunways s) g.
Proof.
  apply (assignRunways_ind (fun s => ledger_ok s g)).
  - intros q s'. by apply ledger_ok_ext.
  - intros q s'. by apply ledger_ok_ext.
  - intros q s'. by apply ledger_ok_ext.
  - intros r p s' x ? _ _ _ _. by apply takeRunway_ledger_ok.
  - intros p s'. apply releaseRunway_ledger_ok.
Qed.

Lemma spawn_ledger_ok pr ea nb d s g :
  ledger_ok s g ->
  ledger_ok (spawn pr ea nb d s g).1 (spawn pr ea nb d s g).2.
Proof.
  intros (Hreg & Hall & Ha & Hd & arrivals & departures & Hsplit).
  destruct (spawn_spec pr ea nb d s g)
    as (flight & k & Hs & _ & Hact & _ & _ & Hair & Hk & _ & _ & Ca & Cd).
  destruct (airlineNames_registry s Hreg) as [Hnames Hne].
  assert (settled s flight) as Hfl.
  { split; [|by left]. apply AirlineMap_find_elem. rewrite Hair, <- Hnames.
    destruct (lookup_lt_is_Some_2 (airlineNames s) k) as [a Hlk].
    - apply Hk. destruct (airlineNames s); [done|simpl; lia].
    - rewrite Hlk. simpl. by eapply list_elem_of_lookup_2. }
  assert (Forall (settled s) (allFlights s ++ [flight])) as Hall'
    by (apply Forall_app; split; [done|by constructor]).
  unfold ledger_ok. rewrite Ca, Cd. repeat split; try done.
  - rewrite Hs. destruct d; apply Hreg.
  - rewrite Hs. destruct d; apply Hreg.
  - rewrite Hs. by destruct d.
  - exists arrivals, departures. revert Hsplit.
    apply ledger_split_grows; try done; rewrite Hs; [|by destruct d].
    apply (grows_app _ _ [flight]). by destruct d.
Qed.

Lemma seqZ_snoc m n : 0 <= n -> seqZ m (n + 1) = seqZ m n ++ [m + n].
Proof.
  intros Hn. rewrite <- (Z2Nat.id n) by done.
  replace (Z.of_nat (Z.to_nat n) + 1) with (Z.of_nat (S (Z.to_nat n))) by lia.
  apply seqZ_S.
Qed.

Lemma at_rest_fields b1 b2 :
  at_rest b1 = at_rest b2 ->
  Aircraft.airline b1 = Aircraft.airline b2
  /\ Aircraft.flightNumber b1 = Aircraft.flightNumber b2
  /\ Aircraft.hasActiveViolation b1 = Aircraft.hasActiveViolation b2
  /\ Aircraft.currentViolation b1 = Aircraft.currentViolation b2
  /\ Aircraft.violatedStates b1 = Aircraft.violatedStates b2
  /\ Aircraft.assignedRunway b1 = Aircraft.assignedRunway b2
  /\ Aircraft.isEmergency b1 = Aircraft.isEmergency b2
  /\ Aircraft.type b1 = Aircraft.type b2
  /\ Aircraft.id b1 = Aircraft.id b2.
Proof.
  intros H.
  repeat split;
    [ apply (f_equal Aircraft.airline) in H
    | apply (f_equal Aircraft.flightNumber) in H
    | apply (f_equal Aircraft.hasActiveViolation) in H
    | apply (f_equal Aircraft.currentViolation) in H
    | apply (f_equal Aircraft.violatedStates) in H
    | apply (f_equal Aircraft.assignedRunway) in H
    | apply (f_equal Aircraft.isEmergency) in H
    | apply (f_equal Aircraft.type) in H
    | apply (f_equal Aircraft.id) in H ]; exact H.
Qed.

Lemma alter_insert {A} (f : A -> A) (l : list A) p x :
  alter f p (<[p:=x]> l) = <[p:=f x]> l.
Proof.
  revert p. induction l as [|y l IH]; intros [|p]; simpl; try done.
  f_equal. apply IH.
Qed.

Lemma updateFlight_ledger_ok p s g :
  ledger_ok s g ->
  ledger_ok (updateFlight p s g).1 (updateFlight p s g).2.
Proof.
  intros (Hreg & Hall & Ha & Hd & arrivals & departures & Hsplit).
  unfold updateFlight.
  destruct (allFlights s !! p) as [x|] eqn:Hx;
    [|by repeat split; try apply Hreg; eauto].
  pose proof (Forall_lookup_1 _ _ _ _ Hall Hx) as [Hknown Hquiet].
  unfold bind.
  pose proof (updateStatus_cases (currentSimulationTime s) x g)
    as (Hcl & _ & Hcases).
  destruct (updateStatus _ x g) as [x' g']. simpl in Hcl, Hcases.
  destruct Hcases
    as [[Hrest Hc]|(_ & Ca & Cd & avn & Hrest & Hcur & Hid & Hav1 & Hav2)].
  - (* no notice was created *)
    apply at_rest_fields in Hrest as (Hal & Hfn & Hact & Hcv & _).
    unfold counters in Hc. injection Hc as _ Ca Cd.
    assert (ledger_ok (set_allFlights (<[p:=x']> (allFlights s)) s) g') as Hok.
    { unfold ledger_ok. rewrite Ca, Cd. repeat split; try done; try apply Hreg.
      - simpl. apply Forall_insert; [done|]. by apply (settled_ext s _ x).
      - exists arrivals, departures. revert Hsplit.
        apply ledger_split_grows; try done.
        by apply (grows_insert p x x'). }
    destruct (Aircraft.hasActiveViolation (base x')) eqn:E1; [|done].
    destruct (Aircraft.currentViolation (base x')) eqn:E2; [|done].
    destruct Hquiet; congruence.
  - (* a notice was created and is forwarded *)
    apply at_rest_fields in Hrest as (Hal & Hfn & Hact & _).
    simpl in Hal, Hfn, Hact. rewrite Hact, Hcur, Hal.
    destruct Hknown as [a Hfind]. cbn [airlines set_allFlights].
    rewrite Hfind. unfold ret. cbn [fst snd].
    set (s' := store p _ _).
    set (x'' := with_base
                  (Aircraft.set_currentViolation None
                     (Aircraft.set_hasActiveViolation false (base x'))) x').
    assert (allFlights s' = <[p:=x'']> (allFlights s)) as Hfl
      by (unfold s', store; cbn [allFlights set_allFlights set_avnWritePipe
            set_allAVNs set_airlines]; by rewrite alter_insert).
    assert (grows s s') as Hgr.
    { apply (grows_insert p x x'' s s' Hx); try done; subst x'';
        destruct x'; simpl in *; congruence. }
    destruct Hsplit as (Hperm & Harr & Hdep & Ia & Id).
    assert (issued_to s' (is_arrival x) avn) as Hiss.
    { exists p, x''.
      rewrite Hfl, list_lookup_insert_eq by (by eapply lookup_lt_Some).
      subst x''. repeat split; destruct x'; simpl in *; congruence. }
    assert (Forall (issued_to s' true) arrivals) as Harr'
      by (eapply Forall_impl; [done|]; intros v; by apply issued_to_grows).
    assert (Forall (issued_to s' false) departures) as Hdep'
      by (eapply Forall_impl; [done|]; intros v; by apply issued_to_grows).
    unfold ledger_ok, registry_ok. rewrite Ca, Cd, Hfl.
    repeat split.
    + apply AirlineMap_update_nil, Hreg.
    + apply AirlineMap_update_addViolation, Hreg.
    + apply Forall_insert.
      * eapply Forall_impl; [done|]. intros y [Hy1 Hy2]. split; [|done].
        by apply AirlineMap_find_update.
      * split; [|by left; subst x''; destruct x'].
        apply AirlineMap_find_update.
        replace (Aircraft.airline (base x''))
          with (Aircraft.airline (base x))
          by (subst x''; by destruct x').
        by rewrite Hfind.
    + destruct (is_arrival x); lia.
    + destruct (is_arrival x); lia.
    + unfold ledger_split. rewrite Ca, Cd.
      change (allAVNs s') with (allAVNs s ++ [avn]).
      unfold avnIdCounter in Hid. destruct (is_arrival x).
      * exists (arrivals ++ [avn]), departures. repeat split; try done.
        -- rewrite Hperm, <- !(assoc_L (++)). apply Permutation_app_head.
           apply Permutation_app_comm.
        -- apply Forall_app. split; [done|by constructor].
        -- rewrite fmap_app, Ia. simpl. rewrite Hid.
           replace (ArrivalFlight_avnIdCounter g + 1 - 1000)
             with (ArrivalFlight_avnIdCounter g - 1000 + 1) by lia.
           rewrite seqZ_snoc by lia. do 2 f_equal. lia.
        -- by rewrite Z.add_0_r.
      * exists arrivals, (departures ++ [avn]). repeat split; try done.
        -- by rewrite Hperm, (assoc_L (++)).
        -- apply Forall_app. split; [done|by constructor].
        -- by rewrite Z.add_0_r.
        -- rewrite fmap_app, Id. simpl. rewrite Hid.
           replace (DepartureFlight_avnIdCounter g + 1 - 1000)
             with (DepartureFlight_avnIdCounter g - 1000 + 1) by lia.
           rewrite seqZ_snoc by lia. do 2 f_equal. lia.
Qed.

Lemma new_ledger_ok i : ledger_ok new (start i).
Proof.
  repeat split; try done.
  - vm_compute. repeat constructor.
  - exists [], []. by repeat split.
Qed.

Lemma updateSimulation_ledger_ok s g :
  ledger_ok s g ->
  ledger_ok (updateSimulation s g).1 (updateSimulation s g).2.
Proof.
  apply (updateSimulation_ind ledger_ok).
  - clear. intros s g. by apply ledger_ok_ext.
  - clear. intros s g. apply (generateFlights_ind ledger_ok).
    1-4: intros v s' g'; by apply ledger_ok_ext.
    intros. by apply spawn_ledger_ok.
  - clear. intros s g. apply assignRunways_ledger_ok.
  - clear. intros p s g. apply updateFlight_ledger_ok.
  - clear. intros s g. by apply ledger_ok_ext.
Qed.

Lemma reachable_ledger_ok σ : reachable σ -> ledger_ok σ.1 σ.2.
Proof.
  apply (reachable_ind_inputs ledger_ok).
  - apply new_ledger_ok.
  - done.
  - apply updateSimulation_ledger_ok.
Qed.

Lemma two_positions {A} (l l1 l2 : list A) a d :
  l ≡ₚ (a :: l1) ++ (d :: l2) ->
  exists j k, j ≠ k /\ l !! j = Some a /\ l !! k = Some d.
Proof.
  intros Hp.
  assert (a ∈ l) as Ha by (rewrite Hp; set_solver).
  apply list_elem_of_split in Ha as (h & t & ->).
  assert (d ∈ h ++ t) as Hd.
  { assert (h ++ t ≡ₚ l1 ++ d :: l2) as ->.
    { apply (Permutation_cons_inv (a := a)).
      by rewrite Permutation_middle. }
    set_solver. }
  apply elem_of_app in Hd as [Hd|Hd].
  - apply list_elem_of_lookup in Hd as [k Hk].
    exists (length h), k. repeat split.
    + apply lookup_lt_Some in Hk. lia.
    + by rewrite list_lookup_middle.
    + by rewrite lookup_app_l by (by eapply lookup_lt_Some).
  - apply list_elem_of_lookup in Hd as [k Hk].
    exists (length h), (length h + S k)%nat. repeat split.
    + lia.
    + by rewrite list_lookup_middle.
    + rewrite lookup_app_r by lia.
      replace (length h + S k - length h)%nat with (S k) by lia. done.
Qed.

(** C10. The detector of the arrivals and the detector of the
    departures number their notices from two counters, each starting at
    1000. In every reachable state the ledger splits into the notices
    issued to arrivals and those issued to departures; the ids of each part
    are 1000, 1001, ... without repetition; and as soon as both parts are
    non-empty the ledger holds, at two different positions, an arrival
    notice and a departure notice that both carry the id 1000. *)
Theorem notice_ids_collide (σ : State) :
  reachable σ ->
  exists arrivals departures : list AVN.t,
    allAVNs σ.1 ≡ₚ arrivals ++ departures
    /\ Forall (issued_to σ.1 true) arrivals
    /\ Forall (issued_to σ.1 false) departures
    /\ ArrivalFlight_avnIdCounter σ.2 = 1000 + Z.of_nat (length arrivals)
    /\ DepartureFlight_avnIdCounter σ.2 = 1000 + Z.of_nat (length departures)
    /\ AVN.id <$> arrivals = seqZ 1000 (Z.of_nat (length arrivals))
    /\ AVN.id <$> departures = seqZ 1000 (Z.of_nat (length departures))
    /\ NoDup (AVN.id <$> arrivals)
    /\ NoDup (AVN.id <$> departures)
    /\ (arrivals ≠ [] -> departures ≠ [] ->
        exists j k a d,
          j ≠ k /\ allAVNs σ.1 !! j = Some a /\ allAVNs σ.1 !! k = Some d
          /\ a ∈ arrivals /\ d ∈ departures
          /\ AVN.id a = 1000 /\ AVN.id d = 1000).
Proof.
  intros (_ & _ & Ha & Hd & arrivals & departures & Hs)%reachable_ledger_ok.
  destruct Hs as (Hperm & Harr & Hdep & Ia & Id).
  exists arrivals, departures.
  assert (Z.of_nat (length arrivals) = ArrivalFlight_avnIdCounter σ.2 - 1000)
    as La.
  { rewrite <- (length_fmap AVN.id), Ia, length_seqZ. lia. }
  assert (Z.of_nat (length departures)
          = DepartureFlight_avnIdCounter σ.2 - 1000) as Ld.
  { rewrite <- (length_fmap AVN.id), Id, length_seqZ. lia. }
  rewrite La, Ld. repeat split; try done; try lia.
  - rewrite Ia. apply NoDup_seqZ.
  - rewrite Id. apply NoDup_seqZ.
  - intros Hne1 Hne2.
    destruct arrivals as [|a arrivals]; [done|].
    destruct departures as [|d departures]; [done|].
    destruct (two_positions _ _ _ _ _ Hperm) as (j & k & Hjk & Hj & Hk).
    exists j, k, a, d. repeat split; try done; try set_solver.
    + simpl in Ia. rewrite seqZ_cons in Ia by (simpl in La; lia).
      by injection Ia.
    + simpl in Id. rewrite seqZ_cons in Id by (simpl in Ld; lia).
      by injection Id.
Qed.

Lemma notice_ids_collide_witness :
  let σ := run 3 collision_inputs in
  AVN.id <$> allAVNs σ.1 = [1000; 1000]
  /\ AVN.flightNumber <$> allAVNs σ.1 = ["PI-1000"; "PI-2002"]
  /\ exists arrivals departures : list AVN.t,
       allAVNs σ.1 ≡ₚ arrivals ++ departures
       /\ Forall (issued_to σ.1 true) arrivals
       /\ Forall (issued_to σ.1 false) departures
       /\ ArrivalFlight_avnIdCounter σ.2 = 1000 + Z.of_nat (length arrivals)
       /\ DepartureFlight_avnIdCounter σ.2
          = 1000 + Z.of_nat (length departures)
       /\ AVN.id <$> arrivals = seqZ 1000 (Z.of_nat (length arrivals))
       /\ AVN.id <$> departures = seqZ 1000 (Z.of_nat (length departures))
       /\ NoDup (AVN.id <$> arrivals)
       /\ NoDup (AVN.id <$> departures)
       /\ (arrivals ≠ [] -> departures ≠ [] ->
           exists j k a d,
             j ≠ k /\ allAVNs σ.1 !! j = Some a /\ allAVNs σ.1 !! k = Some d
             /\ a ∈ arrivals /\ d ∈ departures
             /\ AVN.id a = 1000 /\ AVN.id d = 1000).
Proof.
  split; [vm_compute; reflexivity|]. split; [vm_compute; reflexivity|].
  apply (notice_ids_collide (run 3 collision_inputs)). apply reachable_run.
Defined.

(** ** The life of one aircraft *)

Lemma getStateString_phase x : getStateString x = phaseString (phase x).
Proof. by destruct x as [[b [] n]|[b [] n]]. Qed.

Lemma phaseString_inj ph1 ph2 :
  match ph1, ph2 with
  | ArrivalPhase _, ArrivalPhase _ | DeparturePhase _, DeparturePhase _ => True
  | _, _ => False
  end ->
  phaseString ph1 = phaseString ph2 -> ph1 = ph2.
Proof. destruct ph1 as [[]|[]], ph2 as [[]|[]]; simpl; done. Qed.

Lemma checkViolation_idem x g :
  getStateString x ∈ Aircraft.violatedStates (base x) ->
  checkViolation x g = (x, g).
Proof.
  destruct x as [f|f]; simpl; intros Hin;
    unfold ArrivalFlight.checkViolation, DepartureFlight.checkViolation, bind;
    by destruct (decide _).
Qed.

Lemma lifetime_recorded x tr : lifetime x tr -> recorded x tr.
Proof.
  induction 1 as [fn al ty d pr t g|fn al ty d pr t g|t x g tr _ [Hnd Hin]
                  |f x tr _ [Hnd Hin] Hf].
  - split; [constructor|]. by intros ph ?%elem_of_nil.
  - split; [constructor|]. by intros ph ?%elem_of_nil.
  - pose proof (updateStatus_cases t x g) as (Hcl & _ & Hcases).
    destruct (updateStatus t x g) as [x' g']. simpl in *.
    destruct Hcases as [[Hrest Hc]|(Hnew & Ca & Cd & avn & Hrest & _)].
    + apply at_rest_violatedStates in Hrest.
      unfold counters in Hc. injection Hc as _ Ca Cd.
      unfold noticesCreated. rewrite Ca, Cd, Z.ltb_irrefl, app_nil_r.
      split; [done|]. intros ph Hph. rewrite Hrest, Hcl. by apply Hin.
    + apply at_rest_violatedStates in Hrest. simpl in Hrest.
      assert ((noticesCreated g <? noticesCreated g') = true) as ->.
      { apply Z.ltb_lt. unfold noticesCreated. rewrite Ca, Cd.
        destruct (is_arrival x); lia. }
      assert (phase x' ∉ tr) as Hfresh.
      { intros Hph. apply Hin in Hph as [Hph _].
        by rewrite <- getStateString_phase in Hph. }
      split.
      * apply NoDup_app. repeat split; [done| |apply NoDup_singleton].
        intros ph Hph ->%list_elem_of_singleton. done.
      * intros ph [Hph| ->%list_elem_of_singleton]%elem_of_app.
        -- rewrite Hrest, Hcl. destruct (Hin ph Hph). split; [set_solver|done].
        -- rewrite Hrest, <- getStateString_phase. split; [set_solver|].
           by destruct x'.
  - split; [done|]. intros ph Hph.
    replace (base (with_base (f (base x)) x)) with (f (base x))
      by (by destruct x).
    replace (is_arrival (with_base (f (base x)) x)) with (is_arrival x)
      by (by destruct x).
    rewrite Hf. by apply Hin.
Qed.

(** C3. Over the life of an aircraft no two notices are created in the
    same phase; and when the aircraft is in a phase that has produced a
    notice, a run of the Violation Detector creates nothing and leaves the
    aircraft, and the notice counters with it, as they were. *)
Theorem one_notice_per_phase (x : Flight) (tr : list Phase) :
  lifetime x tr ->
  NoDup tr
  /\ forall g, phase x ∈ tr -> checkViolation x g = (x, g).
Proof.
  intros [Hnd Hin]%lifetime_recorded. split; [done|].
  intros g [Hph _]%Hin. apply checkViolation_idem.
  by rewrite getStateString_phase.
Qed.

Lemma one_notice_per_phase_witness :
  let x0 := Arr (ArrivalFlight.new "PI-1000" "PIA" COMMERCIAL NORTH 1 0
                   (start violation_inputs)).1 in
  let r := updateStatus 1 x0 (start violation_inputs) in
  let tr := [] ++ (if noticesCreated (start violation_inputs)
                      <? noticesCreated r.2
                   then [phase r.1] else []) in
  tr = [ArrivalPhase ArrivalState.HOLDING]
  /\ NoDup tr
  /\ forall g, phase r.1 ∈ tr -> checkViolation r.1 g = (r.1, g).
Proof.
  split; [vm_compute; reflexivity|].
  apply (one_notice_per_phase
           (updateStatus 1
              (Arr (ArrivalFlight.new "PI-1000" "PIA" COMMERCIAL NORTH 1 0
                      (start violation_inputs)).1)
              (start violation_inputs)).1).
  apply life_updateStatus. apply life_arrival.
Defined.

(** ** The order of the queues *)

Lemma Compare_false a b :
  CompareAircraftPriority a b = false <-> served_before a b.
Proof.
  unfold CompareAircraftPriority, served_before.
  destruct (bool_decide _) eqn:E.
  - apply bool_decide_eq_true in E. rewrite Z.ltb_ge. lia.
  - apply bool_decide_eq_false in E. apply dec_stable in E.
    rewrite Z.gtb_ltb, Z.ltb_ge. lia.
Qed.

Lemma Compare_true a b :
  CompareAircraftPriority a b = true <->
  Aircraft.priority a < Aircraft.priority b
  \/ (Aircraft.priority a = Aircraft.priority b
      /\ Aircraft.scheduledTime b < Aircraft.scheduledTime a).
Proof.
  unfold CompareAircraftPriority.
  destruct (bool_decide _) eqn:E.
  - apply bool_decide_eq_true in E. rewrite Z.ltb_lt. lia.
  - apply bool_decide_eq_false in E. apply dec_stable in E.
    rewrite Z.gtb_ltb, Z.ltb_lt. lia.
Qed.


(** *** Two aircraft for one slot *)


Lemma processRunwayA_one_slot p s x temp :
  allFlights s !! p = Some x ->
  Aircraft.assignedRunway (base x) = NONE ->
  Aircraft.direction (base x) = NORTH \/ Aircraft.direction (base x) = SOUTH ->
  eligible s RWY_A ≠ eligible s RWY_C ->
  processRunwayA p s temp
  = (takeRunway (if eligible s RWY_A then RWY_A else RWY_C) p s, temp).
Proof.
  intros Hx Hn Hd He. unfold processRunwayA. rewrite Hx.
  destruct (decide _) as [|_]; [done|].
  unfold tryRunwayA, tryRunwayC.
  rewrite ?eligible_A, ?eligible_C.
  assert (bool_decide (Aircraft.direction (base x) = NORTH)
          || bool_decide (Aircraft.direction (base x) = SOUTH) = true) as Hd'.
  { destruct Hd as [-> | ->]; done. }
  destruct (eligible s RWY_A) eqn:EA, (eligible s RWY_C) eqn:EC; try done.
  - destruct (Aircraft.type (base x));
      do 3 (simpl; rewrite ?Hd', ?eligible_A, ?eligible_C, ?EA, ?EC); done.
  - destruct (Aircraft.type (base x));
      do 3 (simpl; rewrite ?Hd', ?eligible_A, ?eligible_C, ?EA, ?EC); done.
Qed.

Lemma processRunwayA_no_slot p s x temp :
  allFlights s !! p = Some x ->
  Aircraft.assignedRunway (base x) = NONE ->
  eligible s RWY_A = false -> eligible s RWY_C = false ->
  processRunwayA p s temp = (s, pq_push p temp).
Proof.
  intros Hx Hn EA EC. unfold processRunwayA. rewrite Hx.
  destruct (decide _) as [|_]; [done|].
  unfold tryRunwayA, tryRunwayC.
  destruct (bool_decide (Aircraft.type (base x) = EMERGENCY)
            || bool_decide (Aircraft.type (base x) = CARGO));
    destruct (bool_decide (Aircraft.direction (base x) = NORTH)
              || bool_decide (Aircraft.direction (base x) = SOUTH));
    destruct (bool_decide (Aircraft.type (base x) ≠ CARGO));
    do 3 (simpl; rewrite ?eligible_A, ?eligible_C, ?EA, ?EC); done.
Qed.





Lemma processRunwayB_one_slot p s x temp :
  allFlights s !! p = Some x ->
  Aircraft.assignedRunway (base x) = NONE ->
  Aircraft.direction (base x) = EAST \/ Aircraft.direction (base x) = WEST ->
  eligible s RWY_B ≠ eligible s RWY_C ->
  processRunwayB p s temp
  = (takeRunway (if eligible s RWY_B then RWY_B else RWY_C) p s, temp).
Proof.
  intros Hx Hn Hd He. unfold processRunwayB. rewrite Hx.
  destruct (decide _) as [|_]; [done|].
  unfold tryRunwayB, tryRunwayC.
  rewrite ?eligible_B, ?eligible_C.
  assert (bool_decide (Aircraft.direction (base x) = EAST)
          || bool_decide (Aircraft.direction (base x) = WEST) = true) as Hd'.
  { destruct Hd as [-> | ->]; done. }
  destruct (eligible s RWY_B) eqn:EA, (eligible s RWY_C) eqn:EC; try done.
  - destruct (Aircraft.type (base x));
      do 3 (simpl; rewrite ?Hd', ?eligible_B, ?eligible_C, ?EA, ?EC); done.
  - destruct (Aircraft.type (base x));
      do 3 (simpl; rewrite ?Hd', ?eligible_B, ?eligible_C, ?EA, ?EC); done.
Qed.

Lemma processRunwayB_no_slot p s x temp :
  allFlights s !! p = Some x ->
  Aircraft.assignedRunway (base x) = NONE ->
  eligible s RWY_B = false -> eligible s RWY_C = false ->
  processRunwayB p s temp = (s, pq_push p temp).
Proof.
  intros Hx Hn EA EC. unfold processRunwayB. rewrite Hx.
  destruct (decide _) as [|_]; [done|].
  unfold tryRunwayB, tryRunwayC.
  destruct (bool_decide (Aircraft.type (base x) = EMERGENCY)
            || bool_decide (Aircraft.type (base x) = CARGO));
    destruct (bool_decide (Aircraft.direction (base x) = EAST)
              || bool_decide (Aircraft.direction (base x) = WEST));
    destruct (bool_decide (Aircraft.type (base x) ≠ CARGO));
    do 3 (simpl; rewrite ?eligible_B, ?eligible_C, ?EA, ?EC); done.
Qed.





(** ** Cargo and the runways *)

Lemma cargo_falls_back_to_native_runway :
  (fun x => (Aircraft.airline (base x), Aircraft.type (base x),
             Aircraft.direction (base x), Aircraft.assignedRunway (base x)))
    <$> allFlights cargo_scene !! 1%nat
  = Some ("FedEx", CARGO, SOUTH, NONE)
  /\ runwayAQueue cargo_scene = [1%nat]
  /\ eligible cargo_scene RWY_C = false
  /\ eligible cargo_scene RWY_A = true
  /\ runwayOf (processRunwayA 1 cargo_scene []).1 1 = RWY_A
  /\ runwayOf (assignRunways cargo_scene) 1 = RWY_A
  /\ runwayOf (run 2 cargo_inputs).1 1 = RWY_A.
Proof. vm_compute. repeat split; reflexivity. Qed.

(** C6, as amended. A Cargo aircraft whose attempt at Runway C fails goes
    on to the runway of its direction (A for the queue of A, B for the
    queue of B) in the same pass and gets it when it can be handed out; when
    neither can be handed out the aircraft is put back in the queue. An
    aircraft that is not Cargo and finds the runway of its direction
    unavailable falls back to Runway C when C can be handed out. *)
Theorem cargo_tries_native_runway (s : t) (p : nat) (x : Flight)
    (temp : list nat) :
  allFlights s !! p = Some x ->
  Aircraft.assignedRunway (base x) = NONE ->
  (Aircraft.type (base x) = CARGO -> eligible s RWY_C = false ->
     (Aircraft.direction (base x) = NORTH
      \/ Aircraft.direction (base x) = SOUTH ->
      eligible s RWY_A = true ->
      processRunwayA p s temp = (takeRunwayA p s, temp))
     /\ (Aircraft.direction (base x) = EAST
         \/ Aircraft.direction (base x) = WEST ->
         eligible s RWY_B = true ->
         processRunwayB p s temp = (takeRunwayB p s, temp))
     /\ (eligible s RWY_A = false ->
         processRunwayA p s temp = (s, pq_push p temp))
     /\ (eligible s RWY_B = false ->
         processRunwayB p s temp = (s, pq_push p temp)))
  /\ (Aircraft.type (base x) ≠ CARGO -> eligible s RWY_C = true ->
      (eligible s RWY_A = false ->
       processRunwayA p s temp = (takeRunwayC p s, temp))
      /\ (eligible s RWY_B = false ->
          processRunwayB p s temp = (takeRunwayC p s, temp))).
Proof.
  intros Hx Hn. split.
  - intros Hty EC. repeat split.
    + intros Hd EA.
      rewrite (processRunwayA_one_slot p s x temp); try done;
        rewrite EA, ?EC; done.
    + intros Hd EB.
      rewrite (processRunwayB_one_slot p s x temp); try done;
        rewrite EB, ?EC; done.
    + intros EA. by apply (processRunwayA_no_slot p s x).
    + intros EB. by apply (processRunwayB_no_slot p s x).
  - intros Hty EC. split.
    + intros EA. unfold processRunwayA. rewrite Hx.
      destruct (decide _) as [|_]; [done|].
      unfold tryRunwayA, tryRunwayC.
      destruct (Aircraft.type (base x)); try done;
        destruct (bool_decide (Aircraft.direction (base x) = NORTH)
                  || bool_decide (Aircraft.direction (base x) = SOUTH));
        do 3 (simpl; rewrite ?eligible_A, ?eligible_C, ?EA, ?EC); done.
    + intros EB. unfold processRunwayB. rewrite Hx.
      destruct (decide _) as [|_]; [done|].
      unfold tryRunwayB, tryRunwayC.
      destruct (Aircraft.type (base x)); try done;
        destruct (bool_decide (Aircraft.direction (base x) = EAST)
                  || bool_decide (Aircraft.direction (base x) = WEST));
        do 3 (simpl; rewrite ?eligible_B, ?eligible_C, ?EB, ?EC); done.
Qed.

Lemma cargo_tries_native_runway_witness :
  processRunwayA 1 cargo_scene [] = (takeRunwayA 1 cargo_scene, []).
Proof.
  assert (exists x,
            allFlights cargo_scene !! 1%nat = Some x
            /\ Aircraft.assignedRunway (base x) = NONE
            /\ Aircraft.type (base x) = CARGO
            /\ Aircraft.direction (base x) = SOUTH
            /\ eligible cargo_scene RWY_C = false
            /\ eligible cargo_scene RWY_A = true)
    as (x & Hx & Hr & Ht & Hd & HC & HA)
    by (vm_compute; eexists; repeat split; reflexivity).
  exact (proj1 (proj1 (cargo_tries_native_runway cargo_scene 1 x [] Hx Hr)
                  Ht HC) (or_intror Hd) HA).
Defined.

(** ** The detector during Landing *)

(** C7, at the failing input. In the sixth tick of Landing the ramp
    gives 114; the injection raises the speed to 154 and pins it; the
    detector, which compares with the fixed 240, creates no notice. *)
Theorem landing_excess_not_flagged :
  let r := ArrivalFlight.updateStatus 6 landing_arrival (start landing_inputs) in
  ArrivalFlight.state r.1 = ArrivalState.LANDING
  /\ ArrivalFlight.stateTime r.1 = 6
  /\ landingRamp 6 = 114
  /\ Aircraft.currentSpeed (ArrivalFlight.base r.1) = 154
  /\ Aircraft.maintainViolationSpeed (ArrivalFlight.base r.1) = true
  /\ Aircraft.hasActiveViolation (ArrivalFlight.base r.1) = false
  /\ Aircraft.currentViolation (ArrivalFlight.base r.1) = None
  /\ Aircraft.violatedStates (ArrivalFlight.base r.1) = ∅
  /\ ArrivalFlight_avnIdCounter r.2 = 1000
  /\ ArrivalFlight.checkViolation r.1 r.2 = (r.1, r.2).
Proof. vm_compute. repeat split; reflexivity. Qed.

(** The detector never flags a landing aircraft that is not faster than
    240 before the dwell time has elapsed, whatever the ramp gives. *)
Lemma landing_fixed_ceiling (f : ArrivalFlight.t) (g : Globals) :
  ArrivalFlight.state f = ArrivalState.LANDING ->
  ArrivalFlight.stateTime f < ArrivalFlight.LANDING_TIME ->
  Aircraft.currentSpeed (ArrivalFlight.base f) <= LANDING_START_SPEED ->
  ArrivalFlight.checkViolation f g = (f, g).
Proof.
  intros Hs Ht Hv. unfold ArrivalFlight.checkViolation. rewrite Hs.
  destruct (decide _); [done|].
  assert ((Aircraft.currentSpeed (ArrivalFlight.base f)
           >? LANDING_START_SPEED) = false) as -> by lia.
  assert ((ArrivalFlight.stateTime f >=? ArrivalFlight.LANDING_TIME) = false)
    as -> by lia.
  done.
Qed.

(** The terminal constraint is checked: once the dwell time has elapsed,
    a landing aircraft faster than 30 is flagged, with the band 0-240. *)
Lemma landing_terminal_constraint (f : ArrivalFlight.t) (g : Globals) :
  ArrivalFlight.state f = ArrivalState.LANDING ->
  "Landing" ∉ Aircraft.violatedStates (ArrivalFlight.base f) ->
  ArrivalFlight.LANDING_TIME <= ArrivalFlight.stateTime f ->
  LANDING_END_SPEED < Aircraft.currentSpeed (ArrivalFlight.base f) ->
  let r := ArrivalFlight.checkViolation f g in
  Aircraft.hasActiveViolation (ArrivalFlight.base r.1) = true
  /\ (AVN.permissibleSpeedMin <$> Aircraft.currentViolation (ArrivalFlight.base r.1)) = Some 0
  /\ (AVN.permissibleSpeedMax <$> Aircraft.currentViolation (ArrivalFlight.base r.1)) = Some 240.
Proof.
  intros Hs Hin Ht Hv. unfold ArrivalFlight.checkViolation.
  unfold ArrivalFlight.getStateString. rewrite Hs.
  destruct (decide _); [done|].
  assert ((ArrivalFlight.stateTime f >=? ArrivalFlight.LANDING_TIME) = true)
    as -> by lia.
  assert ((Aircraft.currentSpeed (ArrivalFlight.base f)
           >? LANDING_END_SPEED) = true) as -> by lia.
  rewrite orb_true_r. unfold bind, next_arrival_avnId, AVN.new, bind, ret.
  destruct (time_nullptr _). done.
Qed.

(** ** Emergency aircraft *)

(** C1, at the failing input. The arrival spawned in tick 1 is of
    category Emergency but its [isEmergency] flag is unset; its speed is
    raised to 605 and a notice, for an Emergency aircraft, reaches the
    ledger. *)
Theorem emergency_category_gets_notice :
  let s := (run 1 airforce_inputs).1 in
  (fun x => (Aircraft.airline (base x), Aircraft.type (base x),
             Aircraft.isEmergency (base x), Aircraft.currentSpeed (base x)))
    <$> allFlights s !! 0%nat
  = Some ("Pakistan Airforce", EMERGENCY, false, 605)
  /\ (fun v => (AVN.id v, AVN.flightNumber v, AVN.aircraftType v,
                AVN.recordedSpeed v, AVN.permissibleSpeedMin v,
                AVN.permissibleSpeedMax v)) <$> allAVNs s
     = [(1000, "Pa-1000", EMERGENCY, 605, 400, 600)].
Proof. vm_compute. split; reflexivity. Qed.

(** C8, at the failing input. The same arrival, as [generateFlights]
    leaves it: category Emergency, priority 1. *)
Theorem emergency_category_priority_one :
  let s := (generateFlights (set_currentSimulationTime 1 new)
              (start airforce_inputs)).1 in
  (fun x => (Aircraft.airline (base x), Aircraft.type (base x),
             Aircraft.isEmergency (base x), Aircraft.priority (base x)))
    <$> allFlights s
  = [("Pakistan Airforce", EMERGENCY, false, 1)].
Proof. vm_compute. reflexivity. Qed.

(** What the guard of the injection does protect: an aircraft whose
    [isEmergency] flag is set, and which carries no pinned speed, leaves
    the injection step as it entered it. *)
Lemma injectViolation_isEmergency (x : Flight) (g : Globals) :
  Aircraft.isEmergency (base x) = true ->
  Aircraft.maintainViolationSpeed (base x) = false ->
  match x with
  | Arr f => ArrivalFlight.injectViolation f g = (f, g)
  | Dep f => DepartureFlight.injectViolation f g = (f, g)
  end.
Proof.
  destruct x as [f|f]; simpl; intros He Hm;
    unfold ArrivalFlight.injectViolation, DepartureFlight.injectViolation;
    rewrite He, Hm, andb_false_r; done.
Qed.

(** The priority [spawn] gives: 3 when the emergency draw succeeded, and
    otherwise 2 for Cargo and 1 for the rest, the aircraft typed Emergency
    because of their airline included. *)
Lemma spawn_priority probability emergencyAirline numberBase direction s g :
  exists flight,
    allFlights (spawn probability emergencyAirline numberBase direction s g).1
    = allFlights s ++ [flight]
    /\ Aircraft.priority (base flight)
       = (if Aircraft.isEmergency (base flight) then 3
          else if decide (Aircraft.type (base flight) = CARGO) then 2 else 1)
    /\ (Aircraft.isEmergency (base flight) = true ->
        Aircraft.type (base flight) = EMERGENCY)
    /\ (Aircraft.type (base flight) = EMERGENCY ->
        Aircraft.isEmergency (base flight) = true
        \/ Some (Aircraft.airline (base flight)) = emergencyAirline).
Proof.
  unfold spawn, bind, ret.
  destruct (uniform_int 1 100 g) as [e g1].
  destruct (uniform_int 0 _ g1) as [k g2].
  destruct (system_clock_now g2) as [now g3].
  set (airline := default "" (_ !! Z.to_nat k)).
  assert (forall ea, from_option (String.eqb airline) false ea = true ->
                     Some airline = ea) as Hea.
  { intros [a|]; simpl; [|done]. by intros ->%String.eqb_eq. }
  destruct direction; unfold ArrivalFlight.new, DepartureFlight.new,
    Aircraft.new, next_Aircraft_id, bind, ret; simpl.
  1,2: destruct (uniform_int HOLDING_MIN_SPEED _ _) as [v g4]; simpl.
  all: eexists; split; [reflexivity|]; simpl.
  all: destruct (e <=? probability); simpl;
    [by repeat split; auto|].
  all: destruct (from_option (String.eqb airline) false emergencyAirline)
         eqn:E; simpl;
    [ repeat split; try done; intros _; right; by apply Hea
    | repeat split; try done;
      destruct (String.eqb airline "FedEx" || String.eqb airline "Blue Dart");
      done ].
Qed.

Ltac draw_ranges :=
  repeat match goal with
  | E : uniform_int ?a ?b ?g = (?v, _) |- _ =>
      let R := fresh "R" in
      assert (a <= v <= b) as R
        by (pose proof (uniform_int_range a b g) as R; rewrite E in R;
            apply R; done);
      apply uniform_int_eq in E
  end.

Lemma quot_nonneg a b : 0 <= a -> 0 < b -> 0 <= a ÷ b.
Proof. intros. rewrite Z.quot_div_nonneg by lia. by apply Z.div_pos. Qed.

Lemma Arrival_advance_in_band f g :
  in_band (Arr f) ->
  let f0 := {| ArrivalFlight.base := ArrivalFlight.base f;
               ArrivalFlight.state := ArrivalFlight.state f;
               ArrivalFlight.stateTime := ArrivalFlight.stateTime f + 1 |} in
  in_band (Arr (ArrivalFlight.advance f0 g).1)
  /\ counters (ArrivalFlight.advance f0 g).2 = counters g.
Proof.
  unfold in_band, ArrivalFlight.advance; simpl.
  destruct f as [b st n]; simpl. intros (Hm & Hn & Hv).
  pose proof (quot_nonneg ((240 - 30) * (n + 1)) 10).
  destruct st; unfold bind, ret; simpl; repeat (case_match; simpl);
    draw_ranges; simpl in *; unfold HOLDING_MAX_SPEED, APPROACH_MIN_SPEED,
      APPROACH_MAX_SPEED, LANDING_START_SPEED, LANDING_END_SPEED,
      TAXI_MIN_SPEED, TAXI_MAX_SPEED, GATE_MAX_SPEED,
      ArrivalFlight.LANDING_TIME in *;
    repeat split; try done; try lia.
Qed.

Lemma Departure_advance_in_band f g :
  in_band (Dep f) ->
  let f0 := {| DepartureFlight.base := DepartureFlight.base f;
               DepartureFlight.state := DepartureFlight.state f;
               DepartureFlight.stateTime := DepartureFlight.stateTime f + 1 |} in
  in_band (Dep (DepartureFlight.advance f0 g).1)
  /\ counters (DepartureFlight.advance f0 g).2 = counters g.
Proof.
  unfold in_band, DepartureFlight.advance; simpl.
  destruct f as [b st n]; simpl. intros (Hm & Hv).
  destruct st; unfold bind, ret; simpl; repeat (case_match; simpl);
    draw_ranges; simpl in *; unfold TAKEOFF_MAX_SPEED, CLIMB_MIN_SPEED,
      CLIMB_MAX_SPEED, CRUISE_MIN_SPEED, CRUISE_MAX_SPEED,
      TAXI_MIN_SPEED, TAXI_MAX_SPEED, GATE_MAX_SPEED in *;
    repeat split; try done; try lia.
Qed.

Lemma in_band_checkViolation x g : in_band x -> checkViolation x g = (x, g).
Proof.
  destruct x as [[b st n]|[b st n]]; unfold in_band; simpl;
    unfold ArrivalFlight.checkViolation, DepartureFlight.checkViolation,
      bind, ret; simpl; intros (Hm & Hv);
    destruct (decide _); try done; destruct st; simpl in *;
    unfold HOLDING_MAX_SPEED, APPROACH_MIN_SPEED,
      APPROACH_MAX_SPEED, LANDING_START_SPEED, LANDING_END_SPEED,
      TAXI_MIN_SPEED, TAXI_MAX_SPEED, GATE_MAX_SPEED,
      ArrivalFlight.LANDING_TIME, TAKEOFF_MAX_SPEED, CLIMB_MIN_SPEED,
      CLIMB_MAX_SPEED, CRUISE_MIN_SPEED, CRUISE_MAX_SPEED in *;
    repeat match goal with
    | |- context [?a >? ?b] =>
        first [ assert ((a >? b) = false) as -> by lia
              | assert ((a >? b) = true) as -> by lia ]
    | |- context [?a <? ?b] =>
        first [ assert ((a <? b) = false) as -> by lia
              | assert ((a <? b) = true) as -> by lia ]
    | |- context [?a >=? ?b] =>
        first [ assert ((a >=? b) = false) as -> by lia
              | assert ((a >=? b) = true) as -> by lia ]
    end; simpl; done.
Qed.

(** An aircraft whose [isEmergency] flag is set and whose speed is in
    band stays so through [updateStatus], and no notice is created for
    it: the notice counters do not move. *)
Lemma updateStatus_isEmergency t x g :
  Aircraft.isEmergency (base x) = true -> in_band x ->
  in_band (updateStatus t x g).1
  /\ Aircraft.isEmergency (base (updateStatus t x g).1) = true
  /\ Aircraft.currentViolation (base (updateStatus t x g).1)
     = Aircraft.currentViolation (base x)
  /\ counters (updateStatus t x g).2 = counters g.
Proof.
  intros He Hb. destruct x as [f|f]; unfold updateStatus.
  - unfold ArrivalFlight.updateStatus, bind, ret.
    pose proof (Arrival_advance_in_band f g Hb) as [Hb1 C1].
    pose proof (Arrival_advance_frame
      {| ArrivalFlight.base := ArrivalFlight.base f;
         ArrivalFlight.state := ArrivalFlight.state f;
         ArrivalFlight.stateTime := ArrivalFlight.stateTime f + 1 |} g)
      as [R1 _].
    destruct (ArrivalFlight.advance _ g) as [f1 g1]. simpl in Hb1, C1, R1.
    apply at_rest_fields in R1 as (_ & _ & _ & Hcv & _ & _ & He1 & _).
    simpl in Hcv, He1. cbn [ArrivalFlight.state].
    assert ((if decide (ArrivalFlight.state f ≠ ArrivalFlight.state f1)
             then ArrivalFlight.set_maintainViolationSpeed false f1 else f1)
            = f1) as ->.
    { destruct (decide _); [|done]. destruct Hb1 as [Hm _].
      destruct f1 as [[] ? ?]; simpl in *. by rewrite Hm. }
    pose proof (injectViolation_isEmergency (Arr f1) g1) as Hinj.
    simpl in Hinj. rewrite Hinj by (by rewrite ?He1, ?He; try apply Hb1).
    pose proof (in_band_checkViolation (Arr f1) g1 Hb1) as Hck.
    simpl in Hck. unfold bind, ret in Hck.
    destruct (ArrivalFlight.checkViolation f1 g1) as [f2 g2].
    simpl in *. injection Hck as -> ->.
    repeat split; try apply Hb1; congruence.
  - unfold DepartureFlight.updateStatus, bind, ret.
    pose proof (Departure_advance_in_band f g Hb) as [Hb1 C1].
    pose proof (Departure_advance_frame
      {| DepartureFlight.base := DepartureFlight.base f;
         DepartureFlight.state := DepartureFlight.state f;
         DepartureFlight.stateTime := DepartureFlight.stateTime f + 1 |} g)
      as [R1 _].
    destruct (DepartureFlight.advance _ g) as [f1 g1]. simpl in Hb1, C1, R1.
    apply at_rest_fields in R1 as (_ & _ & _ & Hcv & _ & _ & He1 & _).
    simpl in Hcv, He1. cbn [DepartureFlight.state].
    assert ((if decide (DepartureFlight.state f ≠ DepartureFlight.state f1)
             then DepartureFlight.set_maintainViolationSpeed false f1 else f1)
            = f1) as ->.
    { destruct (decide _); [|done]. destruct Hb1 as [Hm _].
      destruct f1 as [[] ? ?]; simpl in *. by rewrite Hm. }
    pose proof (injectViolation_isEmergency (Dep f1) g1) as Hinj.
    simpl in Hinj. rewrite Hinj by (by rewrite ?He1, ?He; try apply Hb1).
    pose proof (in_band_checkViolation (Dep f1) g1 Hb1) as Hck.
    simpl in Hck. unfold bind, ret in Hck.
    destruct (DepartureFlight.checkViolation f1 g1) as [f2 g2].
    simpl in *. injection Hck as -> ->.
    repeat split; try apply Hb1; congruence.
Qed.

Lemma in_band_with_base (f : Aircraft.t -> Aircraft.t) x :
  (forall b, Aircraft.currentSpeed (f b) = Aircraft.currentSpeed b
     /\ Aircraft.maintainViolationSpeed (f b)
        = Aircraft.maintainViolationSpeed b) ->
  in_band x -> in_band (with_base (f (base x)) x).
Proof.
  intros Hf. destruct x as [[b st n]|[b st n]]; unfold in_band; simpl;
    destruct (Hf b) as [-> ->]; done.
Qed.

Lemma emergencies_in_band_store p f s :
  (forall b, Aircraft.currentSpeed (f b) = Aircraft.currentSpeed b
     /\ Aircraft.maintainViolationSpeed (f b)
        = Aircraft.maintainViolationSpeed b
     /\ Aircraft.isEmergency (f b) = Aircraft.isEmergency b) ->
  emergencies_in_band s -> emergencies_in_band (store p f s).
Proof.
  intros Hf H. unfold emergencies_in_band, store. simpl.
  apply Forall_alter; [done|]. intros x _ Hx He.
  apply in_band_with_base; [intros b; by destruct (Hf b) as (? & ? & ?)|].
  apply Hx. destruct (Hf (base x)) as (_ & _ & <-). by destruct x.
Qed.

Lemma spawn_emergencies_in_band pr ea nb d s g :
  emergencies_in_band s -> emergencies_in_band (spawn pr ea nb d s g).1.
Proof.
  intros H. unfold spawn, bind, ret.
  destruct (uniform_int 1 100 g) as [e g1].
  destruct (uniform_int 0 _ g1) as [k g2].
  destruct (system_clock_now g2) as [now g3].
  destruct d; unfold ArrivalFlight.new, DepartureFlight.new,
    Aircraft.new, next_Aircraft_id, bind, ret; simpl.
  1,2: match goal with |- context [uniform_int ?a ?b ?h] =>
         pose proof (uniform_int_range a b h) as R;
         destruct (uniform_int a b h) as [v g4] end; simpl in R.
  all: unfold emergencies_in_band; simpl; apply Forall_app; split; [done|];
    constructor; [|done]; intros _; unfold in_band; simpl;
    unfold HOLDING_MIN_SPEED, HOLDING_MAX_SPEED, GATE_MAX_SPEED in *;
    repeat split; try done; lia.
Qed.

Lemma updateFlight_emergencies_in_band p s g :
  emergencies_in_band s -> emergencies_in_band (updateFlight p s g).1.
Proof.
  intros H. unfold updateFlight.
  destruct (allFlights s !! p) as [x|] eqn:Hx; [|done].
  pose proof (Forall_lookup_1 _ _ _ _ H Hx) as Hband. simpl in Hband.
  unfold bind.
  pose proof (updateStatus_isEmergency (currentSimulationTime s) x g) as Hem.
  pose proof (updateStatus_cases (currentSimulationTime s) x g)
    as (_ & _ & Hcases).
  destruct (updateStatus _ x g) as [x' g']. simpl in Hem, Hcases.
  assert (Aircraft.isEmergency (base x') = Aircraft.isEmergency (base x))
    as Hsame.
  { destruct Hcases as [[Hr _]|(_ & _ & _ & avn & Hr & _)];
      by apply at_rest_fields in Hr as (_ & _ & _ & _ & _ & _ & ? & _). }
  assert (Aircraft.isEmergency (base x') = true -> in_band x') as Hband'.
  { intros He. rewrite Hsame in He. by apply Hem; [|apply Hband]. }
  assert (emergencies_in_band
            (set_allFlights (<[p:=x']> (allFlights s)) s)) as H1
    by (by apply Forall_insert).
  repeat case_match; unfold ret; simpl; try done.
  all: unfold emergencies_in_band; simpl; rewrite alter_insert;
    apply Forall_insert; [done|]; intros He;
    apply (in_band_with_base
             (fun b => Aircraft.set_currentViolation None
                         (Aircraft.set_hasActiveViolation false b)));
    [done|]; apply Hband'; by destruct x'.
Qed.

(** In every reachable state the aircraft whose [isEmergency] flag is
    set are in band: [updateStatus] creates no notice for them. *)
Lemma reachable_emergencies_in_band σ :
  reachable σ -> emergencies_in_band σ.1.
Proof.
  apply (reachable_ind_inputs (fun s _ => emergencies_in_band s)).
  - intros _. constructor.
  - done.
  - intros s g. apply (updateSimulation_ind (fun s _ => emergencies_in_band s)).
    + done.
    + clear. intros s g.
      apply (generateFlights_ind (fun s _ => emergencies_in_band s));
        try done. intros. by apply spawn_emergencies_in_band.
    + clear. intros s _. apply assignRunways_ind; try done.
      * intros r p s' x Hs' _ _ _ _.
        destruct r; try done; by apply emergencies_in_band_store.
      * intros p s' Hs'. unfold releaseRunway. repeat case_match; try done;
          by apply (emergencies_in_band_store p
                      (Aircraft.set_assignedRunway NONE)).
    + clear. intros p s g. apply updateFlight_emergencies_in_band.
    + done.
Qed.

(** ** The amounts of a notice *)

(** The [float] nearest to 0.15 is [10066330 * 2^-26], a little above
    0.15. *)
Lemma SERVICE_FEE_PERCENTAGE_value :
  SERVICE_FEE_PERCENTAGE = S754_finite false 10066330 (-26)
  /\ (Double.to_Q (Float.to_double SERVICE_FEE_PERCENTAGE)
      == 5033165 # 33554432)%Q.
Proof. split; reflexivity. Qed.

(** C9. A notice is created with the flat fine of its category (500000
    for Commercial, 700000 otherwise, Cargo included), a service fee that
    is the fine times the [float] 0.15, a total that is the exact sum of
    the two, a due date three days after the issue time, and the status
    Unpaid. In hundredths, as the amounts are shown, the fee is 15% of the
    fine and the total is the fine times 1.15. *)
Theorem AVN_new_amounts (id : Z) (airline flightNumber : string)
    (type : FlightType) (recordedSpeed minSpeed maxSpeed : Z) (g : Globals) :
  let avn := (AVN.new id airline flightNumber type recordedSpeed
                minSpeed maxSpeed g).1 in
  let fine := match type with
              | COMMERCIAL => 500000
              | CARGO => 700000
              | EMERGENCY => 700000
              end in
  AVN.fineAmount avn = Double.of_int fine
  /\ (Double.to_Q (AVN.fineAmount avn) == inject_Z fine)%Q
  /\ AVN.serviceFee avn
     = Double.mul (AVN.fineAmount avn) (Float.to_double SERVICE_FEE_PERCENTAGE)
  /\ Double.cents (AVN.serviceFee avn) = 15 * fine
  /\ AVN.totalAmount avn = Double.add (AVN.fineAmount avn) (AVN.serviceFee avn)
  /\ (Double.to_Q (AVN.totalAmount avn)
      == Double.to_Q (AVN.fineAmount avn) + Double.to_Q (AVN.serviceFee avn))%Q
  /\ Double.cents (AVN.totalAmount avn) = 115 * fine
  /\ AVN.dueDate avn = AVN.issueTime avn + 3 * 86400
  /\ AVN.status avn = UNPAID.
Proof.
  unfold AVN.new, bind, ret, time_nullptr.
  destruct (time_t (inputs g)) as [|now rest]; destruct type;
    cbn [fst AVN.fineAmount AVN.serviceFee AVN.totalAmount AVN.dueDate
         AVN.issueTime AVN.status];
    repeat split; try reflexivity; try lia.
Qed.

(** * Further properties of the code *)

(** ** The comparator of the queues is an order *)

(** X1. [CompareAircraftPriority] is a strict weak ordering, which is what
    [std::priority_queue] asks of its comparator: no aircraft comes after
    itself, coming after is transitive, and so is its negation. Two aircraft
    that the comparator does not order have the same priority and the same
    scheduled time. *)
Theorem CompareAircraftPriority_strict_weak_order (a b c : Aircraft.t) :
  CompareAircraftPriority a a = false
  /\ (CompareAircraftPriority a b = true ->
      CompareAircraftPriority b c = true ->
      CompareAircraftPriority a c = true)
  /\ (CompareAircraftPriority a b = false ->
      CompareAircraftPriority b c = false ->
      CompareAircraftPriority a c = false)
  /\ (CompareAircraftPriority a b = false ->
      CompareAircraftPriority b a = false ->
      Aircraft.priority a = Aircraft.priority b
      /\ Aircraft.scheduledTime a = Aircraft.scheduledTime b).
Proof.
  repeat split.
  - apply Compare_false. unfold served_before. lia.
  - rewrite !Compare_true. lia.
  - rewrite !Compare_false. unfold served_before. lia.
  - revert H H0. rewrite !Compare_false. unfold served_before. lia.
  - revert H H0. rewrite !Compare_false. unfold served_before. lia.
Qed.

(** ** What [updateFlights] does to the scheduler *)

Lemma updateFlight_cases p s g :
  (allFlights s !! p = None /\ updateFlight p s g = (s, g))
  \/ exists x, allFlights s !! p = Some x /\
       let r := updateStatus (currentSimulationTime s) x g in
       let s' := (updateFlight p s g).1 in
       (updateFlight p s g).2 = r.2 /\ control s' = control s
       /\ ((allFlights s' = <[p := r.1]> (allFlights s)
            /\ airlines s' = airlines s /\ allAVNs s' = allAVNs s
            /\ avnWritePipe s' = avnWritePipe s
            /\ (Aircraft.hasActiveViolation (base r.1) = false
                \/ Aircraft.currentViolation (base r.1) = None
                \/ AirlineMap.find (Aircraft.airline (base r.1)) (airlines s)
                   = None))
           \/ exists avn,
                Aircraft.hasActiveViolation (base r.1) = true
                /\ Aircraft.currentViolation (base r.1) = Some avn
                /\ is_Some (AirlineMap.find (Aircraft.airline (base r.1))
                              (airlines s))
                /\ allFlights s' = <[p := forwarded r.1]> (allFlights s)
                /\ airlines s'
                   = AirlineMap.update (Aircraft.airline (base r.1))
                       (Airline.addViolation avn) (airlines s)
                /\ allAVNs s' = allAVNs s ++ [avn]
                /\ avnWritePipe s' = avnWritePipe s ++ [message_of r.1 avn]).
Proof.
  unfold updateFlight.
  destruct (allFlights s !! p) as [x|] eqn:Hx; [right|by left].
  exists x. split; [done|]. unfold bind.
  destruct (updateStatus _ x g) as [x' g']. cbn [fst snd].
  destruct (Aircraft.hasActiveViolation (base x')) eqn:E1;
    [|unfold ret; simpl; repeat split; left; repeat split; auto].
  destruct (Aircraft.currentViolation (base x')) as [avn|] eqn:E2;
    [|unfold ret; simpl; repeat split; left; repeat split; auto].
  cbn [airlines set_allFlights].
  destruct (AirlineMap.find _ (airlines s)) as [a|] eqn:E3;
    [|unfold ret; simpl; repeat split; left; repeat split; auto].
  unfold ret; simpl. repeat split. right. exists avn.
  repeat split; try done. by rewrite alter_insert.
Qed.

Lemma control_fields s s' :
  control s' = control s ->
  activeFlights s' = activeFlights s
  /\ completedFlights s' = completedFlights s
  /\ currentSimulationTime s' = currentSimulationTime s
  /\ runwayAQueue s' = runwayAQueue s /\ runwayBQueue s' = runwayBQueue s
  /\ runwayCQueue s' = runwayCQueue s
  /\ (forall r, available s' r = available s r)
  /\ (forall r, occupant s' r = occupant s r)
  /\ (forall r, freeTime s' r = freeTime s r)
  /\ lastNorthArrival s' = lastNorthArrival s
  /\ lastSouthArrival s' = lastSouthArrival s
  /\ lastEastDeparture s' = lastEastDeparture s
  /\ lastWestDeparture s' = lastWestDeparture s.
Proof.
  unfold control. intros H. simplify_eq.
  repeat split; try done; by intros [].
Qed.

(** ** The free-since stamps *)

Lemma spawn_control_like pr ea nb d s g :
  let s' := (spawn pr ea nb d s g).1 in
  currentSimulationTime s' = currentSimulationTime s
  /\ (forall r, freeTime s' r = freeTime s r)
  /\ (forall r, available s' r = available s r)
  /\ (forall r, occupant s' r = occupant s r)
  /\ runwayCQueue s' = runwayCQueue s
  /\ completedFlights s' = completedFlights s
  /\ airlines s' = airlines s /\ allAVNs s' = allAVNs s
  /\ avnWritePipe s' = avnWritePipe s.
Proof.
  destruct (spawn_spec pr ea nb d s g) as (flight & k & -> & _).
  repeat split; try (by destruct d); intros r; by destruct r, d.
Qed.

Lemma stamps_past_ext s s' :
  (forall r, freeTime s' r = freeTime s r) ->
  currentSimulationTime s' = currentSimulationTime s ->
  stamps_past s -> stamps_past s'.
Proof. intros Hf Ht H r. rewrite Hf, Ht. apply H. Qed.

Lemma assignRunways_stamps_past s : stamps_past s -> stamps_past (assignRunways s).
Proof.
  apply (assignRunways_ind stamps_past).
  - intros q s'. apply stamps_past_ext; by try intros [].
  - intros q s'. apply stamps_past_ext; by try intros [].
  - intros q s'. apply stamps_past_ext; by try intros [].
  - intros r p s' x H _ _ _ _. revert H.
    apply stamps_past_ext; destruct r; try done; by intros [].
  - intros p s' H. unfold releaseRunway. repeat case_match; try done;
      intros r; specialize (H r); destruct r; simpl in *; lia.
Qed.

Lemma generateFlights_stamps_past s g :
  stamps_past s -> stamps_past (generateFlights s g).1.
Proof.
  apply (generateFlights_ind (fun s _ => stamps_past s)).
  1-4: intros v s' _; apply stamps_past_ext; by try intros [].
  intros pr ea nb d s' g'.
  destruct (spawn_control_like pr ea nb d s' g') as (Ht & Hf & _).
  by apply stamps_past_ext.
Qed.

Lemma updateSimulation_stamps_past s g :
  stamps_past s -> stamps_past (updateSimulation s g).1.
Proof.
  apply (updateSimulation_ind (fun s _ => stamps_past s)).
  - clear. intros s _ H r. specialize (H r). destruct r; simpl in *; lia.
  - clear. intros s g. apply generateFlights_stamps_past.
  - clear. intros s _. apply assignRunways_stamps_past.
  - clear. intros p s g.
    destruct (updateFlight_runways p s g) as (_ & _ & Hf & _ & Ht & _).
    by apply stamps_past_ext.
  - clear. intros s _. apply stamps_past_ext; by try intros [].
Qed.

Lemma reachable_stamps_past σ : reachable σ -> stamps_past σ.1.
Proof.
  apply (reachable_ind_inputs (fun s _ => stamps_past s)).
  - intros _ r. by destruct r.
  - done.
  - intros s g. apply updateSimulation_stamps_past.
Qed.

(** X2. The test [currentSimulationTime >= runwayXFreeTime] that guards
    the hand-out of a runway never decides anything: a runway is stamped
    free with the time of the tick that releases it, so that in every
    reachable state, and in the state in which [assignRunways] is entered
    and all through it, the stamp is not ahead of the clock and a runway can
    be handed out exactly when it is available. *)
Theorem free_stamp_never_blocks (σ : State) (i : Inputs) (r : Runway) :
  reachable σ ->
  freeTime σ.1 r <= currentSimulationTime σ.1
  /\ eligible σ.1 r = available σ.1 r
  /\ eligible (entering_assignRunways i σ) r
     = available (entering_assignRunways i σ) r
  /\ eligible (assignRunways (entering_assignRunways i σ)) r
     = available (assignRunways (entering_assignRunways i σ)) r.
Proof.
  intros Hr. apply reachable_stamps_past in Hr as H.
  assert (forall s, stamps_past s -> eligible s r = available s r) as He.
  { intros s Hs. unfold eligible. specialize (Hs r).
    destruct (available s r); [|done]. simpl. lia. }
  assert (stamps_past (entering_assignRunways i σ)) as H1.
  { apply generateFlights_stamps_past. intros r'. specialize (H r').
    destruct r'; simpl in *; lia. }
  repeat split; auto. by apply He, assignRunways_stamps_past.
Qed.

Lemma free_stamp_never_blocks_witness :
  let σ := run 28 steady_inputs in
  freeTime σ.1 RWY_B <= currentSimulationTime σ.1
  /\ eligible σ.1 RWY_B = available σ.1 RWY_B
  /\ eligible (entering_assignRunways steady_inputs σ) RWY_B
     = available (entering_assignRunways steady_inputs σ) RWY_B
  /\ eligible (assignRunways (entering_assignRunways steady_inputs σ)) RWY_B
     = available (assignRunways (entering_assignRunways steady_inputs σ)) RWY_B.
Proof.
  apply (free_stamp_never_blocks (run 28 steady_inputs) steady_inputs RWY_B).
  apply reachable_run.
Defined.

(** ** The queue of Runway C *)

Lemma assignRunways_runwayCQueue s :
  runwayCQueue s = [] -> runwayCQueue (assignRunways s) = [].
Proof.
  intros HC. unfold assignRunways.
  set (P := fun s : t => runwayCQueue s = []).
  assert (forall r p s x, P s -> r ≠ NONE -> allFlights s !! p = Some x ->
            Aircraft.assignedRunway (base x) = NONE ->
            eligible s r = true -> P (takeRunway r p s)) as Htake
    by (intros r p s' x H _ _ _ _; by destruct r).
  pose proof (drain_ind P runwayAQueue set_runwayAQueue processRunwayA
    (length (runwayAQueue s)) s [] (fun q s H => H)
    (processRunwayA_ind P Htake) HC) as HA.
  destruct (drain runwayAQueue _ _ _ s []) as [sA tA]. simpl in HA.
  pose proof (drain_ind P runwayBQueue set_runwayBQueue processRunwayB
    (length (runwayBQueue sA)) sA [] (fun q s H => H)
    (processRunwayB_ind P Htake) HA) as HB.
  destruct (drain runwayBQueue _ _ _ sA []) as [sB tB]. simpl in HB.
  unfold P in HB. rewrite HB. simpl.
  apply (foldl_releaseRunway_ind P); [|done].
  intros p s' H. unfold releaseRunway, P. by repeat case_match.
Qed.

Lemma updateSimulation_runwayCQueue s g :
  runwayCQueue s = [] -> runwayCQueue (updateSimulation s g).1 = [].
Proof.
  intros HC. unfold updateSimulation, bind, ret.
  assert (runwayCQueue
            (generateFlights
               (set_currentSimulationTime (currentSimulationTime s + 1) s) g).1
          = []) as H1.
  { apply (generateFlights_ind (fun s _ => runwayCQueue s = [])); try done.
    intros pr ea nb d s' g' H.
    by destruct (spawn_control_like pr ea nb d s' g') as (_ & _ & _ & _ & -> & _). }
  destruct (generateFlights _ g) as [s1 g1]. simpl in H1.
  apply assignRunways_runwayCQueue in H1.
  pose proof (forEach_ind (fun s _ => runwayCQueue s = []) updateFlight
    (activeFlights (assignRunways s1)) (assignRunways s1) g1) as H2.
  unfold updateFlights. destruct (forEach updateFlight _ _ g1) as [s2 g2].
  simpl in *. apply H2; [|done]. clear. intros p s g H.
  destruct (updateFlight_cases p s g) as [[_ ->]|(x & _ & _ & Hc & _)]; [done|].
  cbv zeta in Hc. apply control_fields in Hc as (_ & _ & _ & _ & _ & -> & _).
  done.
Qed.

(** X3. Nothing is ever pushed on the queue of Runway C: the queue is
    empty in every reachable state and when [assignRunways] is entered, so
    that the third loop of [assignRunways] never runs its body and Runway C
    is handed out only from the queues of A and B. *)
Theorem runwayCQueue_always_empty (σ : State) (i : Inputs) :
  reachable σ ->
  runwayCQueue σ.1 = []
  /\ runwayCQueue (entering_assignRunways i σ) = []
  /\ forall s temp,
       runwayCQueue s = [] ->
       drain runwayCQueue set_runwayCQueue processRunwayC
         (length (runwayCQueue s)) s temp = (s, temp).
Proof.
  intros Hr.
  assert (runwayCQueue σ.1 = []) as H.
  { revert σ Hr. apply (reachable_ind_inputs (fun s _ => runwayCQueue s = []));
      try done. intros s g. apply updateSimulation_runwayCQueue. }
  split; [done|]. split.
  - apply (generateFlights_ind (fun s _ => runwayCQueue s = [])); try done.
    intros pr ea nb d s' g' H'.
    by destruct (spawn_control_like pr ea nb d s' g') as (_ & _ & _ & _ & -> & _).
  - intros s temp ->. done.
Qed.

Lemma runwayCQueue_always_empty_witness :
  let σ := run 4 steady_inputs in
  runwayCQueue σ.1 = []
  /\ runwayCQueue (entering_assignRunways steady_inputs σ) = []
  /\ forall s temp,
       runwayCQueue s = [] ->
       drain runwayCQueue set_runwayCQueue processRunwayC
         (length (runwayCQueue s)) s temp = (s, temp).
Proof.
  apply (runwayCQueue_always_empty (run 4 steady_inputs) steady_inputs).
  apply reachable_run.
Defined.

(** ** The ids of the aircraft *)

Lemma spawn_id pr ea nb d s g :
  exists flight,
    allFlights (spawn pr ea nb d s g).1 = allFlights s ++ [flight]
    /\ Aircraft.id (base flight) = Aircraft_nextId g
    /\ Aircraft_nextId (spawn pr ea nb d s g).2 = Aircraft_nextId g + 1.
Proof.
  unfold spawn, bind, ret.
  pose proof (uniform_int_counters 1 100 g) as C1.
  destruct (uniform_int 1 100 g) as [e g1].
  match goal with |- context [uniform_int 0 ?b g1] =>
    pose proof (uniform_int_counters 0 b g1) as C2;
    destruct (uniform_int 0 b g1) as [k g2] end.
  pose proof (system_clock_now_counters g2) as C3.
  destruct (system_clock_now g2) as [now g3].
  unfold counters in *. simpl in *.
  injection C1 as ???. injection C2 as ???. injection C3 as ???.
  destruct d; unfold ArrivalFlight.new, DepartureFlight.new,
    Aircraft.new, next_Aircraft_id, bind, ret; simpl.
  1,2: match goal with |- context [uniform_int ?a ?b ?h] =>
         pose proof (uniform_int_counters a b h) as C4;
         destruct (uniform_int a b h) as [v g4] end;
       unfold counters in C4; simpl in *; injection C4 as ???.
  all: eexists; repeat split; simpl; congruence.
Qed.

Lemma fmap_alter_same {A B} (h : A -> B) (f : A -> A) p (l : list A) :
  (forall x, h (f x) = h x) -> h <$> alter f p l = h <$> l.
Proof.
  intros Hf. apply list_eq. intros i. rewrite !list_lookup_fmap.
  destruct (decide (i = p)) as [->|Hne].
  - rewrite list_lookup_alter_eq. destruct (l !! p); simpl; by rewrite ?Hf.
  - by rewrite list_lookup_alter_ne.
Qed.

Lemma fmap_insert_same {A B} (h : A -> B) p x x' (l : list A) :
  l !! p = Some x -> h x' = h x -> h <$> <[p := x']> l = h <$> l.
Proof.
  intros Hx Hh. rewrite list_fmap_insert, Hh.
  apply list_insert_id. by rewrite list_lookup_fmap, Hx.
Qed.

Lemma ids_in_order_store p f s g :
  (forall b, Aircraft.id (f b) = Aircraft.id b) ->
  ids_in_order s g -> ids_in_order (store p f s) g.
Proof.
  intros Hf [H1 H2]. unfold ids_in_order, store. simpl.
  rewrite length_alter, fmap_alter_same; [done|].
  intros x. destruct x; simpl; apply Hf.
Qed.

Lemma ids_in_order_ext s s' g :
  allFlights s' = allFlights s -> ids_in_order s g -> ids_in_order s' g.
Proof. unfold ids_in_order. by intros ->. Qed.

Lemma updateStatus_id t x g :
  Aircraft.id (base (updateStatus t x g).1) = Aircraft.id (base x)
  /\ Aircraft_nextId (updateStatus t x g).2 = Aircraft_nextId g.
Proof.
  pose proof (updateStatus_cases t x g)
    as (_ & Hn & [[H _]|(_ & _ & _ & avn & H & _)]);
    apply at_rest_fields in H; split; try done; apply H.
Qed.

Lemma updateSimulation_ids_in_order s g :
  ids_in_order s g ->
  ids_in_order (updateSimulation s g).1 (updateSimulation s g).2.
Proof.
  apply (updateSimulation_ind ids_in_order).
  - clear. intros s g. by apply ids_in_order_ext.
  - clear. intros s g. apply (generateFlights_ind ids_in_order).
    1-4: intros v s' g'; by apply ids_in_order_ext.
    intros pr ea nb d s' g' [H1 H2].
    destruct (spawn_id pr ea nb d s' g') as (flight & Hfl & Hid & Hn).
    unfold ids_in_order. rewrite Hfl, Hn, fmap_app, length_app, H1. simpl.
    rewrite Nat2Z.inj_add. simpl. rewrite seqZ_snoc by lia.
    split; [|lia]. rewrite Hid, H2. done.
  - clear. intros s g. apply (assignRunways_ind (fun s => ids_in_order s g)).
    1-3: intros q s'; by apply ids_in_order_ext.
    + intros r p s' x H _ _ _ _. destruct r; try done;
        by apply ids_in_order_store.
    + intros p s' H. unfold releaseRunway. repeat case_match; try done;
        by apply (ids_in_order_store p (Aircraft.set_assignedRunway NONE)).
  - clear. intros p s g [H1 H2].
    destruct (updateFlight_cases p s g) as [[_ ->]|(x & Hx & Hg & _ & Hc)];
      [done|].
    cbv zeta in Hg, Hc.
    destruct (updateStatus_id (currentSimulationTime s) x g) as [Hid Hn].
    unfold ids_in_order. rewrite Hg, Hn.
    destruct Hc as [(-> & _)|(avn & _ & _ & _ & -> & _)];
      rewrite length_insert, (fmap_insert_same _ p x); try done.
    unfold forwarded. by destruct (updateStatus _ x g).1.
  - clear. intros s g. by apply ids_in_order_ext.
Qed.

Lemma reachable_ids_in_order σ : reachable σ -> ids_in_order σ.1 σ.2.
Proof.
  apply (reachable_ind_inputs ids_in_order); try done.
  apply updateSimulation_ids_in_order.
Qed.

(** X4. The ids of the aircraft, unlike those of the notices, are
    unique: [Aircraft::nextId] is the only counter, it starts at 1000 and
    every aircraft constructed is pushed on [allFlights], so that in every
    reachable state the aircraft at position [p] has the id [1000 + p] and
    the counter stands at 1000 plus the number of aircraft. *)
Theorem aircraft_ids_unique (σ : State) (p q : nat) (x y : Flight) :
  reachable σ ->
  allFlights σ.1 !! p = Some x -> allFlights σ.1 !! q = Some y ->
  Aircraft.id (base x) = 1000 + Z.of_nat p
  /\ (Aircraft.id (base x) = Aircraft.id (base y) -> p = q)
  /\ Aircraft_nextId σ.2 = 1000 + Z.of_nat (length (allFlights σ.1)).
Proof.
  intros [H1 H2]%reachable_ids_in_order Hx Hy.
  assert (forall k z, allFlights σ.1 !! k = Some z ->
            Aircraft.id (base z) = 1000 + Z.of_nat k) as Hid.
  { intros k z Hk.
    assert (((fun x => Aircraft.id (base x)) <$> allFlights σ.1) !! k
            = Some (Aircraft.id (base z))) as Hl
      by (by rewrite list_lookup_fmap, Hk).
    rewrite H1 in Hl. apply lookup_seqZ in Hl. lia. }
  split; [by apply Hid|]. split; [|done].
  rewrite (Hid p x Hx), (Hid q y Hy). lia.
Qed.

Lemma aircraft_ids_unique_witness :
  let σ := run 4 steady_inputs in
  (fun x => Aircraft.id (base x)) <$> allFlights σ.1
  = [1000; 1001; 1002; 1003]
  /\ Aircraft_nextId σ.2 = 1000 + Z.of_nat (length (allFlights σ.1)).
Proof.
  split; [vm_compute; reflexivity|].
  assert (exists x, allFlights (run 4 steady_inputs).1 !! 0%nat = Some x)
    as [x Hx] by (vm_compute; eauto).
  apply (aircraft_ids_unique (run 4 steady_inputs) 0 0 x x
           (reachable_run 4 steady_inputs) Hx Hx).
Defined.

(** ** Active and completed aircraft *)

Lemma completed_ext s s' p :
  allFlights s' !! p = allFlights s !! p -> completed s' p = completed s p.
Proof. unfold completed. by intros ->. Qed.

Lemma isCompleted_with_base b x : isCompleted (with_base b x) = isCompleted x.
Proof. by destruct x. Qed.

Lemma completed_store p q f s : completed (store p f s) q = completed s q.
Proof.
  unfold completed, store. simpl.
  destruct (decide (q = p)) as [->|Hne].
  - rewrite list_lookup_alter_eq. destruct (allFlights s !! p); simpl; [|done].
    apply isCompleted_with_base.
  - by rewrite list_lookup_alter_ne.
Qed.

Lemma completed_takeRunway r p q s :
  completed (takeRunway r p s) q = completed s q.
Proof.
  destruct r; simpl; unfold takeRunwayA, takeRunwayB, takeRunwayC;
    rewrite ?completed_store; done.
Qed.

Lemma length_takeRunway r p s :
  length (allFlights (takeRunway r p s)) = length (allFlights s).
Proof.
  destruct r; simpl; unfold takeRunwayA, takeRunwayB, takeRunwayC, store;
    simpl; rewrite ?length_alter; done.
Qed.

Lemma updateStatus_completed t x g :
  isCompleted x = true -> isCompleted (updateStatus t x g).1 = true.
Proof.
  destruct x as [f|f]; unfold updateStatus, bind, ret; simpl.
  - pose proof (Arrival_updateStatus_phase t f g) as H.
    destruct (ArrivalFlight.updateStatus t f g) as [f' g']. simpl in *.
    unfold ArrivalFlight.isCompleted. intros E%bool_decide_eq_true.
    apply bool_decide_eq_true. rewrite E in H.
    destruct H as [H|[(? & _)|[(? & _)|[(? & _)|(? & _)]]]]; done.
  - pose proof (Departure_updateStatus_phase t f g) as H.
    destruct (DepartureFlight.updateStatus t f g) as [f' g']. simpl in *.
    unfold DepartureFlight.isCompleted. intros E%bool_decide_eq_true.
    apply bool_decide_eq_true. rewrite E in H.
    destruct H as [H|[(? & _)|[(? & _)|[(? & _)|(? & _)]]]]; done.
Qed.

Lemma booked_ext s s' :
  activeFlights s' = activeFlights s ->
  completedFlights s' = completedFlights s ->
  length (allFlights s') = length (allFlights s) ->
  (forall p, completed s p = true -> completed s' p = true) ->
  booked s -> booked s'.
Proof.
  intros Ha Hc Hl Hk [H1 H2]. unfold booked. rewrite Ha, Hc, Hl.
  split; [done|]. eapply Forall_impl; [done|]. apply Hk.
Qed.

Lemma filter_completed_split s (l : list nat) :
  filter (fun p => completed s p = false) l
    ++ filter (fun p => completed s p = true) l ≡ₚ l.
Proof.
  induction l as [|p l IH]; [done|].
  rewrite !filter_cons. destruct (completed s p) eqn:E.
  - rewrite decide_False, decide_True by done.
    rewrite <- Permutation_middle. by constructor.
  - rewrite decide_True, decide_False by done. simpl. by constructor.
Qed.

Lemma updateSimulation_booked s g : booked s -> booked (updateSimulation s g).1.
Proof.
  apply (updateSimulation_ind (fun s _ => booked s)).
  - clear. intros s _. by apply booked_ext.
  - clear. intros s g. apply (generateFlights_ind (fun s _ => booked s)).
    1-4: intros v s' _; by apply booked_ext.
    intros pr ea nb d s' g' [H1 H2].
    destruct (spawn_spec pr ea nb d s' g') as (flight & k & -> & _).
    assert (forall p, completed s' p = true ->
              completed (set_allFlights (allFlights s' ++ [flight]) s') p
              = true) as Hk.
    { intros p. unfold completed. simpl.
      destruct (allFlights s' !! p) as [x|] eqn:Hx; [|done].
      by rewrite (lookup_app_l_Some _ _ _ _ Hx). }
    split.
    + replace (activeFlights (enqueue d _ _))
        with (activeFlights s' ++ [length (allFlights s')])
        by (by destruct d).
      replace (completedFlights (enqueue d _ _)) with (completedFlights s')
        by (by destruct d).
      replace (allFlights (enqueue d _ _)) with (allFlights s' ++ [flight])
        by (by destruct d).
      rewrite length_app. simpl. rewrite seq_app. simpl.
      rewrite <- H1, <- !(assoc_L (++)). apply Permutation_app_head.
      apply Permutation_app_comm.
    + replace (completedFlights (enqueue d _ _)) with (completedFlights s')
        by (by destruct d).
      eapply Forall_impl; [done|]. intros p Hp.
      rewrite <- (Hk p Hp). by destruct d.
  - clear. intros s _. apply (assignRunways_ind booked).
    1-3: intros q s'; by apply booked_ext.
    + intros r p s' x H _ _ _ _. revert H. apply booked_ext.
      * by destruct r.
      * by destruct r.
      * apply length_takeRunway.
      * intros q. by rewrite completed_takeRunway.
    + intros p s' H. unfold releaseRunway. repeat case_match; try done;
        revert H; (apply booked_ext; try done;
         [ unfold store; simpl; by rewrite length_alter
         | intros q; rewrite <- (completed_store p q
                                  (Aircraft.set_assignedRunway NONE) s');
           by intros <- ]).
  - clear. intros p s g.
    destruct (updateFlight_cases p s g) as [[_ ->]|(x & Hx & _ & Hc & Hf)];
      [done|].
    cbv zeta in Hc, Hf.
    apply control_fields in Hc as (Ha & Hcm & _).
    pose proof (updateStatus_completed (currentSimulationTime s) x g) as Hk.
    apply booked_ext; try done.
    + destruct Hf as [(-> & _)|(avn & _ & _ & _ & -> & _)];
        by rewrite length_insert.
    + intros q. unfold completed.
      assert (exists x', allFlights (updateFlight p s g).1
                         = <[p := x']> (allFlights s)
                /\ (isCompleted x = true -> isCompleted x' = true))
        as (x' & -> & Hx').
      { destruct Hf as [(-> & _)|(avn & _ & _ & _ & -> & _)];
          eexists; split; try done.
        unfold forwarded. by rewrite isCompleted_with_base. }
      destruct (decide (q = p)) as [->|Hne].
      * rewrite list_lookup_insert_eq by (by eapply lookup_lt_Some).
        rewrite Hx. simpl. done.
      * by rewrite list_lookup_insert_ne.
  - clear. intros s _ [H1 H2]. unfold moveCompletedFlights, booked. simpl.
    split.
    + rewrite <- H1.
      rewrite (Permutation_app_comm (completedFlights s)), (assoc_L (++)).
      apply Permutation_app_tail, filter_completed_split.
    + apply Forall_app. split; [done|].
      apply Forall_forall. by intros p [Hp _]%list_elem_of_filter.
Qed.

Lemma reachable_booked σ : reachable σ -> booked σ.1.
Proof.
  apply (reachable_ind_inputs (fun s _ => booked s)).
  - intros _. by split.
  - done.
  - intros s g. apply updateSimulation_booked.
Qed.

Lemma tick_active_not_completed s g :
  Forall (fun p => completed (updateSimulation s g).1 p = false)
    (activeFlights (updateSimulation s g).1).
Proof.
  unfold updateSimulation, bind, ret.
  destruct (generateFlights _ g) as [s1 g1].
  destruct (updateFlights (assignRunways s1) g1) as [s2 g2]. simpl.
  apply Forall_forall. by intros p [Hp _]%list_elem_of_filter.
Qed.

(** X5. No aircraft is lost or listed twice: in every reachable state
    the lists [activeFlights] and [completedFlights] together hold every
    aircraft of [allFlights] exactly once; the completed ones have reached
    their last phase (At Gate for an arrival, Cruise for a departure) and at
    the end of a tick no active aircraft has. *)
Theorem active_and_completed_partition (σ : State) :
  reachable σ ->
  activeFlights σ.1 ++ completedFlights σ.1
    ≡ₚ seq 0 (length (allFlights σ.1))
  /\ (forall p, p ∈ completedFlights σ.1 -> completed σ.1 p = true)
  /\ (forall p, p ∈ activeFlights σ.1 -> completed σ.1 p = false).
Proof.
  intros Hr. destruct (reachable_booked σ Hr) as [H1 H2].
  split; [done|]. split; [by apply Forall_forall|].
  apply Forall_forall. destruct Hr as [i|i [s g] _]; [by constructor|].
  apply tick_active_not_completed.
Qed.

Lemma active_and_completed_partition_witness :
  let σ := run 70 steady_inputs in
  (activeFlights σ.1, completedFlights σ.1) = ([3]%nat, [2; 0; 1]%nat)
  /\ activeFlights σ.1 ++ completedFlights σ.1
       ≡ₚ seq 0 (length (allFlights σ.1))
  /\ (forall p, p ∈ completedFlights σ.1 -> completed σ.1 p = true)
  /\ (forall p, p ∈ activeFlights σ.1 -> completed σ.1 p = false).
Proof.
  split; [vm_compute; reflexivity|].
  apply (active_and_completed_partition (run 70 steady_inputs)).
  apply reachable_run.
Defined.

(** ** The schedule of [generateFlights] *)

Lemma spawn_scheduled pr ea nb d s g :
  let s' := (spawn pr ea nb d s g).1 in
  currentSimulationTime s' = currentSimulationTime s
  /\ lastNorthArrival s' = lastNorthArrival s
  /\ lastSouthArrival s' = lastSouthArrival s
  /\ lastEastDeparture s' = lastEastDeparture s
  /\ lastWestDeparture s' = lastWestDeparture s
  /\ length (allFlights s') = S (length (allFlights s)).
Proof.
  destruct (spawn_spec pr ea nb d s g) as (flight & k & -> & _).
  repeat split; try (by destruct d).
  replace (allFlights (enqueue d _ _)) with (allFlights s ++ [flight])
    by (by destruct d).
  rewrite length_app. simpl. lia.
Qed.

Lemma scheduled_ext T tN tS tE tW s s' :
  currentSimulationTime s' = currentSimulationTime s ->
  lastNorthArrival s' = lastNorthArrival s ->
  lastSouthArrival s' = lastSouthArrival s ->
  lastEastDeparture s' = lastEastDeparture s ->
  lastWestDeparture s' = lastWestDeparture s ->
  length (allFlights s') = length (allFlights s) ->
  scheduled T tN tS tE tW s -> scheduled T tN tS tE tW s'.
Proof. unfold scheduled. by intros -> -> -> -> -> ->. Qed.

Lemma schedule_step first interval t :
  (first, interval) = (1, 180) \/ (first, interval) = (2, 120)
  \/ (first, interval) = (3, 150) \/ (first, interval) = (4, 240) ->
  0 <= t ->
  let c := (t + 1 - lastSpawn first interval t >=? interval)
           || (t + 1 =? first) in
  lastSpawn first interval (t + 1)
  = (if c then t + 1 else lastSpawn first interval t)
  /\ spawnCount first interval (t + 1)
     = spawnCount first interval t + (if c then 1 else 0).
Proof.
  intros H Ht. unfold lastSpawn, spawnCount.
  destruct H as [H|[H|[H|H]]]; injection H as -> ->; cbv zeta;
    destruct (t <? _) eqn:E1; destruct (t + 1 <? _) eqn:E2;
    destruct (_ >=? _) eqn:E3; destruct (t + 1 =? _) eqn:E4;
    simpl orb; cbv iota; Z.to_euclidean_division_equations; lia.
Qed.

Ltac schedule_block Hstep :=
  let HL := fresh "HL" in
  let HC := fresh "HC" in
  let Ec := fresh "Ec" in
  let HT := fresh "HT" in
  let HN := fresh "HN" in
  let HS := fresh "HS" in
  let HE := fresh "HE" in
  let HW := fresh "HW" in
  let Hl := fresh "Hl" in
  match goal with
  | H : scheduled _ _ _ _ _ _ |- _ =>
      destruct H as (HT & HN & HS & HE & HW & Hl)
  end;
  destruct Hstep as [HL HC]; cbv zeta in HL, HC;
  match goal with |- context [if ?c then _ else _] => destruct c eqn:Ec end;
  [ unfold scheduled;
    match goal with |- context [spawn ?a ?b ?c ?d ?s ?g] =>
      destruct (spawn_scheduled a b c d s g) as (-> & -> & -> & -> & -> & ->)
    end;
    simpl; rewrite Nat2Z.inj_succ
  | unfold ret, scheduled; simpl ];
  rewrite ?HT, ?HN, ?HS, ?HE, ?HW in Ec; rewrite ?HT, ?HN, ?HS, ?HE, ?HW;
  rewrite Ec in HL, HC; repeat split; try done; lia.

Lemma generateFlights_scheduled t s g :
  0 <= t -> scheduled (t + 1) t t t t s ->
  scheduled (t + 1) (t + 1) (t + 1) (t + 1) (t + 1) (generateFlights s g).1.
Proof.
  intros Ht H. unfold generateFlights.
  apply (bind_ind (fun s _ => scheduled (t + 1) (t + 1) t t t s)).
  { schedule_block
      (schedule_step 1 ARRIVAL_NORTH_INTERVAL t (or_introl eq_refl) Ht). }
  clear s g H. intros s g H.
  apply (bind_ind (fun s _ => scheduled (t + 1) (t + 1) (t + 1) t t s)).
  { schedule_block
      (schedule_step 2 ARRIVAL_SOUTH_INTERVAL t
         (or_intror (or_introl eq_refl)) Ht). }
  clear s g H. intros s g H.
  apply (bind_ind (fun s _ => scheduled (t + 1) (t + 1) (t + 1) (t + 1) t s)).
  { schedule_block
      (schedule_step 3 DEPARTURE_EAST_INTERVAL t
         (or_intror (or_intror (or_introl eq_refl))) Ht). }
  clear s g H. intros s g H.
  schedule_block
    (schedule_step 4 DEPARTURE_WEST_INTERVAL t
       (or_intror (or_intror (or_intror eq_refl))) Ht).
Qed.

Lemma assignRunways_scheduled T tN tS tE tW s :
  scheduled T tN tS tE tW s -> scheduled T tN tS tE tW (assignRunways s).
Proof.
  apply (assignRunways_ind (scheduled T tN tS tE tW)).
  1-3: intros q s'; by apply scheduled_ext.
  - intros r p s' x H _ _ _ _. revert H.
    apply scheduled_ext; try (by destruct r). apply length_takeRunway.
  - intros p s' H. unfold releaseRunway. repeat case_match; try done;
      revert H; (apply scheduled_ext; try done);
      unfold store; simpl; by rewrite length_alter.
Qed.

Lemma updateFlight_scheduled T tN tS tE tW p s g :
  scheduled T tN tS tE tW s -> scheduled T tN tS tE tW (updateFlight p s g).1.
Proof.
  destruct (updateFlight_cases p s g) as [[_ ->]|(x & Hx & _ & Hc & Hf)];
    [done|].
  cbv zeta in Hc, Hf.
  apply control_fields
    in Hc as (_ & _ & Ht & _ & _ & _ & _ & _ & _ & HN & HS & HE & HW).
  apply scheduled_ext; try done.
  destruct Hf as [(-> & _)|(avn & _ & _ & _ & -> & _)];
    by rewrite length_insert.
Qed.

Lemma updateSimulation_scheduled t s g :
  0 <= t -> scheduled t t t t t s ->
  scheduled (t + 1) (t + 1) (t + 1) (t + 1) (t + 1) (updateSimulation s g).1.
Proof.
  intros Ht H. unfold updateSimulation, bind, ret.
  assert (scheduled (t + 1) t t t t
            (set_currentSimulationTime (currentSimulationTime s + 1) s)) as H0.
  { destruct H as (HT & H). unfold scheduled. simpl. by rewrite HT. }
  pose proof (generateFlights_scheduled t _ g Ht H0) as H1.
  destruct (generateFlights _ g) as [s1 g1]. simpl in H1.
  apply assignRunways_scheduled in H1.
  pose proof (forEach_ind
    (fun s _ => scheduled (t + 1) (t + 1) (t + 1) (t + 1) (t + 1) s)
    updateFlight (activeFlights (assignRunways s1)) (assignRunways s1) g1) as H2.
  unfold updateFlights. destruct (forEach updateFlight _ _ g1) as [s2 g2].
  simpl in *. revert H2. intros H2.
  assert (scheduled (t + 1) (t + 1) (t + 1) (t + 1) (t + 1) s2) as H3.
  { apply H2; [|done]. intros p s' g'. apply updateFlight_scheduled. }
  revert H3. by apply scheduled_ext.
Qed.

Lemma run_scheduled n i :
  let t := Z.of_nat n in scheduled t t t t t (run n i).1.
Proof.
  induction n as [|n IH].
  - vm_compute. repeat split; reflexivity.
  - cbv zeta in *. rewrite Nat2Z.inj_succ. unfold Z.succ. simpl.
    apply updateSimulation_scheduled; [lia|done].
Qed.

(** X6. The traffic does not depend on the random draws: [generateFlights]
    creates an aircraft from the North at the tick 1 and every 180 ticks
    after it, from the South at 2 and every 120, to the East at 3 and every
    150 and to the West at 4 and every 240. After [n] calls of
    [updateSimulation] the clock shows [n] and the store holds the aircraft
    of that schedule; the 300 ticks of a whole simulation create exactly
    nine aircraft. *)
Theorem flights_generated_on_schedule (n : nat) (i : Inputs) :
  let s := (run n i).1 in
  currentSimulationTime s = Z.of_nat n
  /\ Z.of_nat (length (allFlights s)) = flightsGenerated (Z.of_nat n)
  /\ lastNorthArrival s = lastSpawn 1 180 (Z.of_nat n)
  /\ lastSouthArrival s = lastSpawn 2 120 (Z.of_nat n)
  /\ lastEastDeparture s = lastSpawn 3 150 (Z.of_nat n)
  /\ lastWestDeparture s = lastSpawn 4 240 (Z.of_nat n)
  /\ length (allFlights (run (Z.to_nat SIMULATION_TIME) i).1) = 9%nat.
Proof.
  pose proof (run_scheduled n i) as (HT & HN & HS & HE & HW & Hl).
  repeat split; try done.
  pose proof (run_scheduled (Z.to_nat SIMULATION_TIME) i) as (_ & _ & _ & _ & _ & Hl').
  apply Nat2Z.inj. rewrite Hl'. reflexivity.
Qed.

(** ** The phases follow the clock *)

Lemma Arrival_advance_clock f g :
  let r := ArrivalFlight.advance f g in
  (ArrivalFlight.state r.1, ArrivalFlight.stateTime r.1)
  = match ArrivalFlight.state f with
    | ArrivalState.HOLDING =>
        if (ArrivalFlight.stateTime f >=? ArrivalFlight.HOLDING_TIME)
           && bool_decide
                (Aircraft.assignedRunway (ArrivalFlight.base f) ≠ NONE)
        then (ArrivalState.APPROACH, 0)
        else (ArrivalState.HOLDING, ArrivalFlight.stateTime f)
    | ArrivalState.APPROACH =>
        if ArrivalFlight.stateTime f >=? ArrivalFlight.APPROACH_TIME
        then (ArrivalState.LANDING, 0)
        else (ArrivalState.APPROACH, ArrivalFlight.stateTime f)
    | ArrivalState.LANDING =>
        if ArrivalFlight.stateTime f >=? ArrivalFlight.LANDING_TIME
        then (ArrivalState.TAXI, 0)
        else (ArrivalState.LANDING, ArrivalFlight.stateTime f)
    | ArrivalState.TAXI =>
        if ArrivalFlight.stateTime f >=? ArrivalFlight.TAXI_TIME
        then (ArrivalState.AT_GATE, 0)
        else (ArrivalState.TAXI, ArrivalFlight.stateTime f)
    | ArrivalState.AT_GATE =>
        (ArrivalState.AT_GATE, ArrivalFlight.stateTime f)
    end.
Proof.
  unfold ArrivalFlight.advance.
  destruct f as [b st n]; destruct st; unfold bind, ret; simpl;
    repeat (case_match; simpl); try done; simpl in *; congruence.
Qed.

Lemma Departure_advance_clock f g :
  let r := DepartureFlight.advance f g in
  (DepartureFlight.state r.1, DepartureFlight.stateTime r.1)
  = match DepartureFlight.state f with
    | DepartureState.AT_GATE =>
        if bool_decide
             (Aircraft.assignedRunway (DepartureFlight.base f) ≠ NONE)
        then (DepartureState.TAXI, 0)
        else (DepartureState.AT_GATE, DepartureFlight.stateTime f)
    | DepartureState.TAXI =>
        if DepartureFlight.stateTime f >=? DepartureFlight.TAXI_TIME
        then (DepartureState.TAKEOFF_ROLL, 0)
        else (DepartureState.TAXI, DepartureFlight.stateTime f)
    | DepartureState.TAKEOFF_ROLL =>
        if DepartureFlight.stateTime f >=? DepartureFlight.TAKEOFF_TIME
        then (DepartureState.CLIMB, 0)
        else (DepartureState.TAKEOFF_ROLL, DepartureFlight.stateTime f)
    | DepartureState.CLIMB =>
        if DepartureFlight.stateTime f >=? DepartureFlight.CLIMB_TIME
        then (DepartureState.CRUISE, 0)
        else (DepartureState.CLIMB, DepartureFlight.stateTime f)
    | DepartureState.CRUISE =>
        (DepartureState.CRUISE, DepartureFlight.stateTime f)
    end.
Proof.
  unfold DepartureFlight.advance.
  destruct f as [b st n]; destruct st; unfold bind, ret; simpl;
    repeat (case_match; simpl); try done; simpl in *; congruence.
Qed.

Lemma Arrival_updateStatus_clock t f g :
  let f0 := {| ArrivalFlight.base := ArrivalFlight.base f;
               ArrivalFlight.state := ArrivalFlight.state f;
               ArrivalFlight.stateTime := ArrivalFlight.stateTime f + 1 |} in
  let r := ArrivalFlight.updateStatus t f g in
  (ArrivalFlight.state r.1, ArrivalFlight.stateTime r.1)
  = (ArrivalFlight.state (ArrivalFlight.advance f0 g).1,
     ArrivalFlight.stateTime (ArrivalFlight.advance f0 g).1).
Proof.
  cbv zeta. unfold ArrivalFlight.updateStatus, bind.
  destruct (ArrivalFlight.advance _ g) as [f1 g1]. cbn [fst snd].
  match goal with |- context [ArrivalFlight.injectViolation ?f2 g1] =>
    assert (ArrivalFlight.state f2 = ArrivalFlight.state f1
            /\ ArrivalFlight.stateTime f2 = ArrivalFlight.stateTime f1)
      as [S2 T2] by (by destruct (decide _));
    pose proof (Arrival_injectViolation_frame f2 g1) as (_ & _ & S3 & T3);
    destruct (ArrivalFlight.injectViolation f2 g1) as [f3 g2]
  end.
  pose proof (Arrival_checkViolation_cases f3 g2) as (S4 & T4 & _).
  destruct (ArrivalFlight.checkViolation f3 g2) as [f4 g3].
  simpl in *. congruence.
Qed.

Lemma Departure_updateStatus_clock t f g :
  let f0 := {| DepartureFlight.base := DepartureFlight.base f;
               DepartureFlight.state := DepartureFlight.state f;
               DepartureFlight.stateTime := DepartureFlight.stateTime f + 1 |} in
  let r := DepartureFlight.updateStatus t f g in
  (DepartureFlight.state r.1, DepartureFlight.stateTime r.1)
  = (DepartureFlight.state (DepartureFlight.advance f0 g).1,
     DepartureFlight.stateTime (DepartureFlight.advance f0 g).1).
Proof.
  cbv zeta. unfold DepartureFlight.updateStatus, bind.
  destruct (DepartureFlight.advance _ g) as [f1 g1]. cbn [fst snd].
  match goal with |- context [DepartureFlight.injectViolation ?f2 g1] =>
    assert (DepartureFlight.state f2 = DepartureFlight.state f1
            /\ DepartureFlight.stateTime f2 = DepartureFlight.stateTime f1)
      as [S2 T2] by (by destruct (decide _));
    pose proof (Departure_injectViolation_frame f2 g1) as (_ & _ & S3 & T3);
    destruct (DepartureFlight.injectViolation f2 g1) as [f3 g2]
  end.
  pose proof (Departure_checkViolation_cases f3 g2) as (S4 & T4 & _).
  destruct (DepartureFlight.checkViolation f3 g2) as [f4 g3].
  simpl in *. congruence.
Qed.

(** X7. The speed violations never delay nor advance an aircraft. An
    arrival leaves Holding at the first call of [updateStatus] at which it
    has spent 20 ticks there and has a runway, and from then on its phase
    depends on the number of calls only: 15 calls in Approach, 10 in
    Landing, 15 in Taxi, then At Gate, 40 calls in all. *)
Theorem arrival_follows_the_clock (t n : Z) (f : ArrivalFlight.t)
    (g : Globals) :
  let f' := (ArrivalFlight.updateStatus t f g).1 in
  (ArrivalFlight.state f = ArrivalState.HOLDING ->
   (ArrivalFlight.state f', ArrivalFlight.stateTime f')
   = if (ArrivalFlight.stateTime f + 1 >=? 20)
        && bool_decide
             (Aircraft.assignedRunway (ArrivalFlight.base f) ≠ NONE)
     then arrivalClock 0
     else (ArrivalState.HOLDING, ArrivalFlight.stateTime f + 1))
  /\ (0 <= n ->
      (ArrivalFlight.state f, ArrivalFlight.stateTime f) = arrivalClock n ->
      (ArrivalFlight.state f', ArrivalFlight.stateTime f')
      = arrivalClock (n + 1)).
Proof.
  cbv zeta. rewrite Arrival_updateStatus_clock, Arrival_advance_clock. simpl.
  split.
  - by intros ->.
  - intros Hn. unfold arrivalClock, ArrivalFlight.APPROACH_TIME,
      ArrivalFlight.LANDING_TIME, ArrivalFlight.TAXI_TIME.
    intros E. repeat case_match; simplify_eq; try done; try lia;
      f_equal; lia.
Qed.

Lemma arrival_follows_the_clock_witness :
  let f := landing_arrival in
  let f' := (ArrivalFlight.updateStatus 6 f (start landing_inputs)).1 in
  (ArrivalFlight.state f', ArrivalFlight.stateTime f') = arrivalClock (20 + 1).
Proof.
  apply (arrival_follows_the_clock 6 20 landing_arrival (start landing_inputs));
    [lia|reflexivity].
Defined.

(** X8. A departure leaves the gate at the first call of [updateStatus]
    at which it has a runway, and from then on its phase depends on the
    number of calls only: 15 calls in Taxi, 10 in Takeoff Roll, 20 in Climb,
    then Cruise, 45 calls in all. *)
Theorem departure_follows_the_clock (t n : Z) (f : DepartureFlight.t)
    (g : Globals) :
  let f' := (DepartureFlight.updateStatus t f g).1 in
  (DepartureFlight.state f = DepartureState.AT_GATE ->
   (DepartureFlight.state f', DepartureFlight.stateTime f')
   = if bool_decide
          (Aircraft.assignedRunway (DepartureFlight.base f) ≠ NONE)
     then departureClock 0
     else (DepartureState.AT_GATE, DepartureFlight.stateTime f + 1))
  /\ (0 <= n ->
      (DepartureFlight.state f, DepartureFlight.stateTime f)
      = departureClock n ->
      (DepartureFlight.state f', DepartureFlight.stateTime f')
      = departureClock (n + 1)).
Proof.
  cbv zeta. rewrite Departure_updateStatus_clock, Departure_advance_clock.
  simpl. split.
  - by intros ->.
  - intros Hn. unfold departureClock, DepartureFlight.TAXI_TIME,
      DepartureFlight.TAKEOFF_TIME, DepartureFlight.CLIMB_TIME.
    intros E. repeat case_match; simplify_eq; try done; try lia;
      f_equal; lia.
Qed.

Lemma departure_follows_the_clock_witness :
  let f := climbing_departure in
  let f' := (DepartureFlight.updateStatus 50 f (start steady_inputs)).1 in
  (DepartureFlight.state f', DepartureFlight.stateTime f')
  = departureClock (44 + 1).
Proof.
  apply (departure_follows_the_clock 50 44 climbing_departure
           (start steady_inputs)); [lia|reflexivity].
Defined.

(** ** The aircraft with the emergency flag *)

Lemma updateStatus_emergency_quiet t x g :
  Aircraft.isEmergency (base x) = true -> emergency_quiet x ->
  emergency_quiet (updateStatus t x g).1.
Proof.
  intros He Hq _. destruct (Hq He) as (Hb & Hty & Hpr & Hvs & Hav & Hcv).
  destruct (updateStatus_isEmergency t x g He Hb) as (Hb' & He' & Hcv' & Hc).
  pose proof (updateStatus_cases t x g)
    as (_ & _ & [[Hr _]|(_ & Ca & Cd & _)]).
  - split; [done|].
    assert (Aircraft.priority (base (updateStatus t x g).1)
            = Aircraft.priority (base x)) as ->
      by (by apply (f_equal Aircraft.priority) in Hr).
    apply at_rest_fields in Hr as (_ & _ & -> & -> & -> & _ & _ & -> & _).
    done.
  - unfold counters in Hc. injection Hc as _ Ca' Cd'.
    destruct (is_arrival x); lia.
Qed.

Lemma emergency_quiet_with_base (f : Aircraft.t -> Aircraft.t) x :
  (forall b, f b = Aircraft.set_currentViolation None
                     (Aircraft.set_hasActiveViolation false b)
             \/ exists r, f b = Aircraft.set_assignedRunway r b) ->
  emergency_quiet x -> emergency_quiet (with_base (f (base x)) x).
Proof.
  intros Hf Hq. unfold emergency_quiet.
  assert (base (with_base (f (base x)) x) = f (base x)) as ->
    by (by destruct x).
  assert (in_band x -> Aircraft.currentSpeed (f (base x))
                         = Aircraft.currentSpeed (base x)
                       -> Aircraft.maintainViolationSpeed (f (base x))
                          = Aircraft.maintainViolationSpeed (base x)
                       -> in_band (with_base (f (base x)) x)) as Hband.
  { destruct x as [[b st n]|[b st n]]; unfold in_band; simpl;
      by intros ? -> ->. }
  destruct (Hf (base x)) as [Hr|[r Hr]]; rewrite Hr in *; simpl;
    intros He; destruct (Hq He) as (Hb & ? & ? & ? & ? & ?);
    repeat split; try done; by apply Hband.
Qed.

Lemma emergency_quiet_store p f s :
  (forall b, f b = Aircraft.set_currentViolation None
                     (Aircraft.set_hasActiveViolation false b)
             \/ exists r, f b = Aircraft.set_assignedRunway r b) ->
  Forall emergency_quiet (allFlights s) ->
  Forall emergency_quiet (allFlights (store p f s)).
Proof.
  intros Hf H. unfold store. simpl. apply Forall_alter; [done|].
  intros x _ Hx. by apply emergency_quiet_with_base.
Qed.

Lemma spawn_emergency_quiet pr ea nb d s g :
  Forall emergency_quiet (allFlights s) ->
  Forall emergency_quiet (allFlights (spawn pr ea nb d s g).1).
Proof.
  intros H.
  pose proof (spawn_emergencies_in_band pr ea nb d s g) as Hb.
  destruct (spawn_priority pr ea nb d s g) as (flight & Hfl & Hpr & Hty & _).
  destruct (spawn_spec pr ea nb d s g)
    as (flight' & k & Hs & _ & Hav & Hcv & Hvs & _).
  assert (flight' = flight) as ->.
  { rewrite Hs in Hfl.
    assert (allFlights s ++ [flight'] = allFlights s ++ [flight]) as E
      by (by destruct d).
    by apply app_inv_head in E as [= ->]. }
  rewrite Hfl. apply Forall_app. split; [done|]. constructor; [|done].
  intros He. split; [|by rewrite Hpr, He; auto].
  assert (emergencies_in_band s) as Hin.
  { unfold emergencies_in_band.
    eapply Forall_impl; [exact H|]. intros x Hq Hx. by apply Hq. }
  specialize (Hb Hin). unfold emergencies_in_band in Hb.
  rewrite Hfl, Forall_app, Forall_singleton in Hb. by apply Hb.
Qed.

Lemma updateFlight_emergency_quiet p s g :
  Forall emergency_quiet (allFlights s) ->
  Forall emergency_quiet (allFlights (updateFlight p s g).1).
Proof.
  intros H.
  destruct (updateFlight_cases p s g) as [[_ ->]|(x & Hx & _ & _ & Hf)];
    [done|].
  cbv zeta in Hf.
  pose proof (Forall_lookup_1 _ _ _ _ H Hx) as Hq.
  assert (emergency_quiet (updateStatus (currentSimulationTime s) x g).1)
    as Hq'.
  { intros He.
    assert (Aircraft.isEmergency (base x) = true) as He0.
    { pose proof (updateStatus_cases (currentSimulationTime s) x g)
        as (_ & _ & [[Hr _]|(_ & _ & _ & avn & Hr & _)]);
        apply at_rest_fields in Hr as (_ & _ & _ & _ & _ & _ & Hr & _);
        simpl in Hr; congruence. }
    by apply (updateStatus_emergency_quiet _ _ _ He0 Hq). }
  destruct Hf as [(-> & _)|(avn & _ & _ & _ & -> & _)];
    apply Forall_insert; try done.
  unfold forwarded.
  apply (emergency_quiet_with_base
           (fun b => Aircraft.set_currentViolation None
                       (Aircraft.set_hasActiveViolation false b)));
    [|done]. intros b. by left.
Qed.

Lemma reachable_emergency_quiet σ :
  reachable σ -> Forall emergency_quiet (allFlights σ.1).
Proof.
  apply (reachable_ind_inputs
           (fun s _ => Forall emergency_quiet (allFlights s))).
  - intros _. constructor.
  - done.
  - intros s g.
    apply (updateSimulation_ind
             (fun s _ => Forall emergency_quiet (allFlights s))).
    + done.
    + clear. intros s g.
      apply (generateFlights_ind
               (fun s _ => Forall emergency_quiet (allFlights s)));
        try done. intros. by apply spawn_emergency_quiet.
    + clear. intros s _.
      apply (assignRunways_ind
               (fun s => Forall emergency_quiet (allFlights s))); try done.
      * intros r p s' x Hs' _ _ _ _.
        destruct r; try done; simpl;
          unfold takeRunwayA, takeRunwayB, takeRunwayC;
          apply emergency_quiet_store; try done; intros b; right; eauto.
      * intros p s' Hs'. unfold releaseRunway. repeat case_match; try done;
          apply (emergency_quiet_store p (Aircraft.set_assignedRunway NONE));
          try done; intros b; right; eauto.
    + clear. intros p s g. apply updateFlight_emergency_quiet.
    + done.
Qed.

(** X9. The emergency flag is never noticed. In every reachable state
    an aircraft whose [isEmergency] flag is set is typed
    Emergency and has the priority 3; its speed is inside the band of its
    phase and is not pinned; no phase of it is marked as violated and no
    notice is pending for it: the injection and the detector have never
    written a notice for it. *)
Theorem flagged_emergency_never_noticed (σ : State) (p : nat) (x : Flight) :
  reachable σ -> allFlights σ.1 !! p = Some x ->
  Aircraft.isEmergency (base x) = true ->
  Aircraft.type (base x) = EMERGENCY /\ Aircraft.priority (base x) = 3
  /\ in_band x
  /\ Aircraft.violatedStates (base x) = ∅
  /\ Aircraft.hasActiveViolation (base x) = false
  /\ Aircraft.currentViolation (base x) = None.
Proof.
  intros Hr Hx He.
  pose proof (Forall_lookup_1 _ _ _ _ (reachable_emergency_quiet σ Hr) Hx) as H.
  destruct (H He) as (? & ? & ? & ? & ? & ?). done.
Qed.

Lemma flagged_emergency_never_noticed_witness :
  exists x,
    allFlights (run 30 cargo_inputs).1 !! 0%nat = Some x
    /\ phase x = ArrivalPhase ArrivalState.APPROACH
    /\ Aircraft.type (base x) = EMERGENCY /\ Aircraft.priority (base x) = 3
    /\ in_band x
    /\ Aircraft.violatedStates (base x) = ∅
    /\ Aircraft.hasActiveViolation (base x) = false
    /\ Aircraft.currentViolation (base x) = None.
Proof.
  assert (exists x, allFlights (run 30 cargo_inputs).1 !! 0%nat = Some x
                    /\ phase x = ArrivalPhase ArrivalState.APPROACH
                    /\ Aircraft.isEmergency (base x) = true)
    as (x & Hx & Hph & He) by (vm_compute; eauto).
  exists x. split; [exact Hx|]. split; [exact Hph|].
  exact (flagged_emergency_never_noticed (run 30 cargo_inputs) 0 x
           (reachable_run 30 cargo_inputs) Hx He).
Defined.

(** ** The speeds of the aircraft *)

Ltac speed_constants :=
  unfold HOLDING_MIN_SPEED, HOLDING_MAX_SPEED, APPROACH_MIN_SPEED,
    APPROACH_MAX_SPEED, LANDING_START_SPEED, LANDING_END_SPEED,
    TAXI_MIN_SPEED, TAXI_MAX_SPEED, GATE_MAX_SPEED, TAKEOFF_MAX_SPEED,
    CLIMB_MIN_SPEED, CLIMB_MAX_SPEED, CRUISE_MIN_SPEED, CRUISE_MAX_SPEED,
    MAX_VIOLATION_SPEED_EXCESS, VIOLATION_PROBABILITY,
    ArrivalFlight.LANDING_TIME, ArrivalFlight.HOLDING_TIME,
    ArrivalFlight.APPROACH_TIME, ArrivalFlight.TAXI_TIME,
    DepartureFlight.TAXI_TIME, DepartureFlight.TAKEOFF_TIME,
    DepartureFlight.CLIMB_TIME in *.

Lemma landingRamp_bounds n :
  0 <= n -> 30 <= landingRamp n <= 240 /\ (5 < n -> landingRamp n <= 114).
Proof.
  intros Hn. unfold landingRamp. speed_constants.
  rewrite Z.quot_div_nonneg by lia.
  Z.to_euclidean_division_equations. lia.
Qed.

Lemma Arrival_advance_plausible f g :
  plausible (Arr f) ->
  let f0 := {| ArrivalFlight.base := ArrivalFlight.base f;
               ArrivalFlight.state := ArrivalFlight.state f;
               ArrivalFlight.stateTime := ArrivalFlight.stateTime f + 1 |} in
  let f1 := (ArrivalFlight.advance f0 g).1 in
  plausible (Arr f1)
  /\ (ArrivalFlight.state f1 ≠ ArrivalFlight.state f ->
      Aircraft.maintainViolationSpeed (ArrivalFlight.base f1) = false).
Proof.
  unfold plausible, ArrivalFlight.advance; simpl.
  destruct f as [b st n]; simpl. intros (Hp & Hv).
  destruct (Aircraft.maintainViolationSpeed b) eqn:Em;
    destruct st; unfold bind, ret; simpl; repeat (case_match; simpl);
    draw_ranges; simpl in *; rewrite ?Em; fold (landingRamp (n + 1));
    try (destruct (landingRamp_bounds (n + 1)) as [? ?]; [lia|]);
    speed_constants; repeat split; try done; try lia.
Qed.

Lemma Arrival_injectViolation_plausible f g :
  plausible (Arr f) -> plausible (Arr (ArrivalFlight.injectViolation f g).1).
Proof.
  unfold plausible, ArrivalFlight.injectViolation; simpl.
  destruct f as [b st n]; simpl. intros (Hp & Hv).
  destruct (Aircraft.maintainViolationSpeed b) eqn:Em;
    rewrite ?andb_false_r; simpl.
  - rewrite Hp by done. unfold ret; simpl. rewrite Em.
    split; [done|exact Hv].
  - destruct (negb (Aircraft.hasActiveViolation b)
              && negb (Aircraft.isEmergency b)); simpl;
      [|unfold ret; simpl; rewrite Em; by destruct st].
    destruct st; unfold bind, ret; simpl; repeat (case_match; simpl);
      draw_ranges; simpl in *; rewrite ?Em;
      try (destruct (landingRamp_bounds n) as [? ?]; [lia|]);
      speed_constants; repeat split; try done; try lia.
    all: Z.to_euclidean_division_equations; lia.
Qed.

Lemma AVN_new_speeds id al fn ty v lo hi g :
  let avn := (AVN.new id al fn ty v lo hi g).1 in
  AVN.recordedSpeed avn = v /\ AVN.permissibleSpeedMin avn = lo
  /\ AVN.permissibleSpeedMax avn = hi.
Proof. by destruct (AVN_new_fields id al fn ty v lo hi g) as (_&_&_&_&?&?&?&_). Qed.

Lemma Arrival_checkViolation_notice f g :
  plausible (Arr f) ->
  let r := ArrivalFlight.checkViolation f g in
  r.1 = f
  \/ exists avn,
       ArrivalFlight.state r.1 = ArrivalFlight.state f
       /\ ArrivalFlight.stateTime r.1 = ArrivalFlight.stateTime f
       /\ ArrivalFlight.base r.1
          = flag avn (ArrivalFlight.getStateString f) (ArrivalFlight.base f)
       /\ issued (ArrivalFlight.base f) avn /\ genuine avn.
Proof.
  unfold plausible, ArrivalFlight.checkViolation; simpl.
  destruct f as [b st n]; simpl. intros (Hp & Hv).
  destruct (decide _) as [Hin|Hin]; [by left|].
  match goal with |- context [match ?e with (_, _) => _ end] =>
    destruct e as [[viol lo] hi] eqn:Ev end.
  destruct viol; [|by left]. right.
  unfold bind, next_arrival_avnId.
  match goal with |- context [AVN.new ?a ?b ?c ?d ?e ?x ?y ?h] =>
    pose proof (AVN_new_speeds a b c d e x y h) as (Hs & Hlo & Hhi);
    destruct (AVN.new a b c d e x y h) as [avn g'] eqn:En end.
  simpl in *. exists avn. do 3 (split; [done|]). split.
  - eexists _, _, _, _. by rewrite En.
  - unfold genuine. rewrite Hs, Hlo, Hhi. clear Hs Hlo Hhi En.
    unfold noticeBands.
    destruct (Aircraft.maintainViolationSpeed b), st; simpl in *;
      repeat case_match; simplify_eq;
      try (destruct (landingRamp_bounds n) as [? ?]; [lia|]);
      speed_constants; try lia; (split; [repeat constructor|lia]).
Qed.

Lemma Departure_advance_plausible f g :
  plausible (Dep f) ->
  let f0 := {| DepartureFlight.base := DepartureFlight.base f;
               DepartureFlight.state := DepartureFlight.state f;
               DepartureFlight.stateTime := DepartureFlight.stateTime f + 1 |} in
  let f1 := (DepartureFlight.advance f0 g).1 in
  plausible (Dep f1)
  /\ (DepartureFlight.state f1 ≠ DepartureFlight.state f ->
      Aircraft.maintainViolationSpeed (DepartureFlight.base f1) = false).
Proof.
  unfold plausible, DepartureFlight.advance; simpl.
  destruct f as [b st n]; simpl. intros (Hp & Hv).
  destruct (Aircraft.maintainViolationSpeed b) eqn:Em;
    destruct st; unfold bind, ret; simpl; repeat (case_match; simpl);
    draw_ranges; simpl in *; rewrite ?Em;
    speed_constants; repeat split; try done; try lia.
Qed.

Lemma Departure_injectViolation_plausible f g :
  plausible (Dep f) ->
  plausible (Dep (DepartureFlight.injectViolation f g).1).
Proof.
  unfold plausible, DepartureFlight.injectViolation; simpl.
  destruct f as [b st n]; simpl. intros (Hp & Hv).
  destruct (Aircraft.maintainViolationSpeed b) eqn:Em;
    rewrite ?andb_false_r; simpl.
  - rewrite Hp by done. unfold ret; simpl. rewrite Em.
    split; [done|exact Hv].
  - destruct (negb (Aircraft.hasActiveViolation b)
              && negb (Aircraft.isEmergency b)); simpl;
      [|unfold ret; simpl; rewrite Em; by destruct st].
    destruct st; unfold bind, ret; simpl; repeat (case_match; simpl);
      draw_ranges; simpl in *; rewrite ?Em;
      speed_constants; repeat split; try done; try lia.
    all: Z.to_euclidean_division_equations; lia.
Qed.

Lemma Departure_checkViolation_notice f g :
  plausible (Dep f) ->
  let r := DepartureFlight.checkViolation f g in
  r.1 = f
  \/ exists avn,
       DepartureFlight.state r.1 = DepartureFlight.state f
       /\ DepartureFlight.stateTime r.1 = DepartureFlight.stateTime f
       /\ DepartureFlight.base r.1
          = flag avn (DepartureFlight.getStateString f)
              (DepartureFlight.base f)
       /\ issued (DepartureFlight.base f) avn /\ genuine avn.
Proof.
  unfold plausible, DepartureFlight.checkViolation; simpl.
  destruct f as [b st n]; simpl. intros (Hp & Hv).
  destruct (decide _) as [Hin|Hin]; [by left|].
  match goal with |- context [match ?e with (_, _) => _ end] =>
    destruct e as [[viol lo] hi] eqn:Ev end.
  destruct viol; [|by left]. right.
  unfold bind, next_departure_avnId.
  match goal with |- context [AVN.new ?a ?b ?c ?d ?e ?x ?y ?h] =>
    pose proof (AVN_new_speeds a b c d e x y h) as (Hs & Hlo & Hhi);
    destruct (AVN.new a b c d e x y h) as [avn g'] eqn:En end.
  simpl in *. exists avn. do 3 (split; [done|]). split.
  - eexists _, _, _, _. by rewrite En.
  - unfold genuine. rewrite Hs, Hlo, Hhi. clear Hs Hlo Hhi En.
    unfold noticeBands.
    destruct (Aircraft.maintainViolationSpeed b), st; simpl in *;
      repeat case_match; simplify_eq;
      speed_constants; try lia; (split; [repeat constructor|lia]).
Qed.

(** ** Notices, as they reach the ledger *)

Lemma plausible_same x y :
  Aircraft.currentSpeed (base y) = Aircraft.currentSpeed (base x) ->
  Aircraft.maintainViolationSpeed (base y)
  = Aircraft.maintainViolationSpeed (base x) ->
  Aircraft.violationSpeed (base y) = Aircraft.violationSpeed (base x) ->
  phase y = phase x ->
  match x, y with
  | Arr f, Arr f' => ArrivalFlight.stateTime f' = ArrivalFlight.stateTime f
  | Dep f, Dep f' => True
  | _, _ => False
  end ->
  plausible x -> plausible y.
Proof.
  unfold plausible.
  destruct x as [[b st n]|[b st n]], y as [[b' st' n']|[b' st' n']];
    simpl; intros -> -> -> [= ->]; try done. by intros ->.
Qed.

Lemma plausible_with_base (f : Aircraft.t -> Aircraft.t) x :
  (forall b, Aircraft.currentSpeed (f b) = Aircraft.currentSpeed b
     /\ Aircraft.maintainViolationSpeed (f b)
        = Aircraft.maintainViolationSpeed b
     /\ Aircraft.violationSpeed (f b) = Aircraft.violationSpeed b) ->
  plausible x -> plausible (with_base (f (base x)) x).
Proof.
  intros Hf. destruct (Hf (base x)) as (Hv & Hm & Hs).
  apply plausible_same; destruct x; simpl in *; done.
Qed.

Lemma issued_same b b' avn :
  Aircraft.airline b' = Aircraft.airline b ->
  Aircraft.flightNumber b' = Aircraft.flightNumber b ->
  Aircraft.type b' = Aircraft.type b ->
  Aircraft.currentSpeed b' = Aircraft.currentSpeed b ->
  issued b avn -> issued b' avn.
Proof. unfold issued. by intros -> -> -> ->. Qed.

Lemma Arrival_updateStatus_plausible t f g :
  plausible (Arr f) ->
  let r := ArrivalFlight.updateStatus t f g in
  plausible (Arr r.1)
  /\ (at_rest (ArrivalFlight.base r.1) = at_rest (ArrivalFlight.base f)
      \/ exists avn,
           Aircraft.hasActiveViolation (ArrivalFlight.base r.1) = true
           /\ Aircraft.currentViolation (ArrivalFlight.base r.1) = Some avn
           /\ issued (ArrivalFlight.base r.1) avn /\ genuine avn).
Proof.
  intros Hpl. cbv zeta. unfold ArrivalFlight.updateStatus, bind.
  pose proof (Arrival_advance_plausible f g Hpl) as [H1 Hm1].
  match goal with |- context [ArrivalFlight.advance ?f0 g] =>
    pose proof (Arrival_advance_frame f0 g) as [R1 _];
    destruct (ArrivalFlight.advance f0 g) as [f1 g1]
  end.
  cbn [fst snd ArrivalFlight.state ArrivalFlight.base] in *.
  assert ((if decide (ArrivalFlight.state f ≠ ArrivalFlight.state f1)
           then ArrivalFlight.set_maintainViolationSpeed false f1 else f1)
          = f1) as ->.
  { destruct (decide _) as [Hne|]; [|done].
    assert (Aircraft.maintainViolationSpeed (ArrivalFlight.base f1) = false)
      as Hm by (apply Hm1; congruence).
    destruct f1 as [[] ? ?]; simpl in *. by rewrite Hm. }
  pose proof (Arrival_injectViolation_plausible f1 g1 H1) as H3.
  pose proof (Arrival_injectViolation_frame f1 g1) as (R3 & _).
  destruct (ArrivalFlight.injectViolation f1 g1) as [f3 g2].
  cbn [fst snd] in *.
  pose proof (Arrival_checkViolation_notice f3 g2 H3) as H4.
  destruct (ArrivalFlight.checkViolation f3 g2) as [f4 g3].
  cbn [fst snd] in *.
  destruct H4 as [->|(avn & S4 & T4 & B4 & I4 & G4)].
  - split; [done|]. left. congruence.
  - split.
    + revert H3. apply plausible_same; simpl; rewrite ?B4, ?S4; try done.
    + right. exists avn. rewrite B4. do 2 (split; [done|]). split; [|done].
      revert I4. by apply issued_same.
Qed.

Lemma Departure_updateStatus_plausible t f g :
  plausible (Dep f) ->
  let r := DepartureFlight.updateStatus t f g in
  plausible (Dep r.1)
  /\ (at_rest (DepartureFlight.base r.1) = at_rest (DepartureFlight.base f)
      \/ exists avn,
           Aircraft.hasActiveViolation (DepartureFlight.base r.1) = true
           /\ Aircraft.currentViolation (DepartureFlight.base r.1) = Some avn
           /\ issued (DepartureFlight.base r.1) avn /\ genuine avn).
Proof.
  intros Hpl. cbv zeta. unfold DepartureFlight.updateStatus, bind.
  pose proof (Departure_advance_plausible f g Hpl) as [H1 Hm1].
  match goal with |- context [DepartureFlight.advance ?f0 g] =>
    pose proof (Departure_advance_frame f0 g) as [R1 _];
    destruct (DepartureFlight.advance f0 g) as [f1 g1]
  end.
  cbn [fst snd DepartureFlight.state DepartureFlight.base] in *.
  assert ((if decide (DepartureFlight.state f ≠ DepartureFlight.state f1)
           then DepartureFlight.set_maintainViolationSpeed false f1 else f1)
          = f1) as ->.
  { destruct (decide _) as [Hne|]; [|done].
    assert (Aircraft.maintainViolationSpeed (DepartureFlight.base f1) = false)
      as Hm by (apply Hm1; congruence).
    destruct f1 as [[] ? ?]; simpl in *. by rewrite Hm. }
  pose proof (Departure_injectViolation_plausible f1 g1 H1) as H3.
  pose proof (Departure_injectViolation_frame f1 g1) as (R3 & _).
  destruct (DepartureFlight.injectViolation f1 g1) as [f3 g2].
  cbn [fst snd] in *.
  pose proof (Departure_checkViolation_notice f3 g2 H3) as H4.
  destruct (DepartureFlight.checkViolation f3 g2) as [f4 g3].
  cbn [fst snd] in *.
  destruct H4 as [->|(avn & S4 & T4 & B4 & I4 & G4)].
  - split; [done|]. left. congruence.
  - split.
    + revert H3. apply plausible_same; simpl; rewrite ?B4, ?S4; try done.
    + right. exists avn. rewrite B4. do 2 (split; [done|]). split; [|done].
      revert I4. by apply issued_same.
Qed.

Lemma updateStatus_plausible t x g :
  plausible x ->
  let r := updateStatus t x g in
  plausible r.1
  /\ (at_rest (base r.1) = at_rest (base x)
      \/ exists avn,
           Aircraft.hasActiveViolation (base r.1) = true
           /\ Aircraft.currentViolation (base r.1) = Some avn
           /\ issued (base r.1) avn /\ genuine avn).
Proof.
  destruct x as [f|f]; intros Hpl; cbv zeta; unfold updateStatus, bind, ret.
  - pose proof (Arrival_updateStatus_plausible t f g Hpl) as H.
    by destruct (ArrivalFlight.updateStatus t f g).
  - pose proof (Departure_updateStatus_plausible t f g Hpl) as H.
    by destruct (DepartureFlight.updateStatus t f g).
Qed.

Lemma spawn_plausible pr ea nb d s g :
  exists flight,
    allFlights (spawn pr ea nb d s g).1 = allFlights s ++ [flight]
    /\ plausible flight.
Proof.
  unfold spawn, bind, ret.
  destruct (uniform_int 1 100 g) as [e g1].
  destruct (uniform_int 0 _ g1) as [k g2].
  destruct (system_clock_now g2) as [now g3].
  destruct d; unfold ArrivalFlight.new, DepartureFlight.new,
    Aircraft.new, next_Aircraft_id, bind, ret; simpl.
  1,2: match goal with |- context [uniform_int ?a ?b ?h] =>
         pose proof (uniform_int_range a b h) as R;
         destruct (uniform_int a b h) as [v g4] end; simpl in R.
  all: eexists; split; [reflexivity|]; unfold plausible; simpl;
    unfold HOLDING_MIN_SPEED, HOLDING_MAX_SPEED, GATE_MAX_SPEED in *;
    repeat split; try done; lia.
Qed.

(** *** The records of the airlines *)

Lemma AirlineMap_update_keys k f (m : AirlineMap.t) :
  (AirlineMap.update k f m).*1 = m.*1.
Proof.
  induction m as [|[k0 v] m IH]; [done|]. cbn [AirlineMap.update].
  destruct (String.eqb k k0); rewrite !fmap_cons; [done|].
  by rewrite IH.
Qed.

Lemma AirlineMap_update_own k avn (m : AirlineMap.t) :
  AVN.airline avn = k ->
  Forall (fun pair => Forall (fun avn => AVN.airline avn = pair.1)
                        (Airline.violations pair.2)) m ->
  Forall (fun pair => Forall (fun avn => AVN.airline avn = pair.1)
                        (Airline.violations pair.2))
    (AirlineMap.update k (Airline.addViolation avn) m).
Proof.
  intros Hk. induction 1 as [|[k0 v] m Hv Hm IH]; simpl; [done|].
  destruct (String.eqb k k0) eqn:E; constructor; try done. simpl in *.
  apply String.eqb_eq in E. apply Forall_app. split; [done|].
  constructor; [congruence|done].
Qed.

Lemma AirlineMap_update_concat k avn (m : AirlineMap.t) :
  is_Some (AirlineMap.find k m) ->
  concat (Airline.violations
            <$> (AirlineMap.update k (Airline.addViolation avn) m).*2)
  ≡ₚ concat (Airline.violations <$> m.*2) ++ [avn].
Proof.
  induction m as [|[k0 v] m IH]; [by intros [? ?]|].
  cbn [AirlineMap.update AirlineMap.find].
  destruct (String.eqb k k0) eqn:E; intros Hf;
    rewrite !fmap_cons, !concat_cons; cbn [snd Airline.violations
      Airline.addViolation].
  - rewrite <- !(assoc_L (++)). apply Permutation_app_head.
    apply Permutation_app_comm.
  - rewrite IH by done. by rewrite (assoc_L (++)).
Qed.

(** *** What a tick keeps *)

Lemma kept_ext s s' :
  allFlights s' = allFlights s -> airlines s' = airlines s ->
  allAVNs s' = allAVNs s -> avnWritePipe s' = avnWritePipe s ->
  kept s -> kept s'.
Proof. unfold kept, records_ok. by intros -> -> -> ->. Qed.

Lemma kept_store p f s :
  (forall b, Aircraft.currentSpeed (f b) = Aircraft.currentSpeed b
     /\ Aircraft.maintainViolationSpeed (f b)
        = Aircraft.maintainViolationSpeed b
     /\ Aircraft.violationSpeed (f b) = Aircraft.violationSpeed b) ->
  kept s -> kept (store p f s).
Proof.
  intros Hf (H1 & H2). split; [|done]. unfold store. simpl.
  apply Forall_alter; [done|]. intros x _. by apply plausible_with_base.
Qed.

Lemma assignRunways_kept s : kept s -> kept (assignRunways s).
Proof.
  apply (assignRunways_ind kept).
  1-3: intros q s'; by apply kept_ext.
  - intros r p s' x H _ _ _ _.
    destruct r; try done; simpl; unfold takeRunwayA, takeRunwayB, takeRunwayC;
      apply kept_store; try done; revert H; by apply kept_ext.
  - intros p s' H. unfold releaseRunway. repeat case_match; try done;
      (eapply kept_ext;
       [..|by apply (kept_store p (Aircraft.set_assignedRunway NONE))]);
      done.
Qed.

Lemma spawn_kept pr ea nb d s g : kept s -> kept (spawn pr ea nb d s g).1.
Proof.
  intros (H1 & H2 & H3 & H4).
  destruct (spawn_plausible pr ea nb d s g) as (flight & Hfl & Hpl).
  destruct (spawn_control_like pr ea nb d s g)
    as (_ & _ & _ & _ & _ & _ & Ha & Hv & Hp).
  unfold kept, records_ok. rewrite Hfl, Ha, Hv, Hp. repeat split; try done;
    try apply H4. apply Forall_app. split; [done|by constructor].
Qed.

Lemma updateFlight_kept p s g :
  ledger_ok s g -> kept s -> kept (updateFlight p s g).1.
Proof.
  intros (_ & Hall & _) (H1 & H2 & H3 & Hkeys & Hown & Hcat).
  destruct (updateFlight_cases p s g) as [[_ ->]|(x & Hx & _ & _ & Hf)];
    [done|].
  cbv zeta in Hf.
  pose proof (Forall_lookup_1 _ _ _ _ Hall Hx) as [Hknown Hquiet].
  pose proof (Forall_lookup_1 _ _ _ _ H1 Hx) as Hpl.
  pose proof (updateStatus_plausible (currentSimulationTime s) x g Hpl)
    as [Hpl' Hcase].
  set (x' := (updateStatus (currentSimulationTime s) x g).1) in *.
  destruct Hf as [(Hfl & Ha & Hv & Hp & _)
                 |(avn & Eact & Ecur & Hfind & Hfl & Ha & Hv & Hp)].
  - unfold kept, records_ok. rewrite Hfl, Ha, Hv, Hp.
    repeat split; try done. by apply Forall_insert.
  - destruct Hcase as [Hr|(avn' & _ & Ecur' & Hiss & Hgen)].
    { apply at_rest_fields in Hr as (_ & _ & Hact & Hcv & _).
      destruct Hquiet; congruence. }
    assert (avn' = avn) as -> by congruence.
    destruct Hiss as (id & lo & hi & g0 & Havn).
    destruct (AVN_new_fields id (Aircraft.airline (base x'))
                (Aircraft.flightNumber (base x')) (Aircraft.type (base x'))
                (Aircraft.currentSpeed (base x')) lo hi g0)
      as (_ & Hal & Hfn & Hty & Hsp & _).
    rewrite <- Havn in Hal, Hfn, Hty, Hsp.
    unfold kept, records_ok. rewrite Hfl, Ha, Hv, Hp.
    repeat split.
    + apply Forall_insert; [done|]. unfold forwarded.
      by apply (plausible_with_base
                  (fun b => Aircraft.set_currentViolation None
                              (Aircraft.set_hasActiveViolation false b))).
    + apply Forall_app. split; [done|]. constructor; [|done].
      split; [|done]. unfold as_constructed. eauto 10.
    + rewrite fmap_app, H3. simpl. do 2 f_equal.
      unfold message_of, notice_message. by rewrite Hal, Hfn, Hty, Hsp.
    + by rewrite AirlineMap_update_keys.
    + by apply AirlineMap_update_own.
    + rewrite AirlineMap_update_concat by done. by rewrite Hcat.
Qed.

Lemma updateSimulation_kept s g :
  ledger_ok s g /\ kept s ->
  ledger_ok (updateSimulation s g).1 (updateSimulation s g).2
  /\ kept (updateSimulation s g).1.
Proof.
  apply (updateSimulation_ind (fun s g => ledger_ok s g /\ kept s)).
  - clear. intros s g [H1 H2]. split.
    + revert H1. by apply ledger_ok_ext.
    + revert H2. by apply kept_ext.
  - clear. intros s g.
    apply (generateFlights_ind (fun s g => ledger_ok s g /\ kept s)).
    1-4: intros v s' g' [H1 H2]; split;
      [revert H1; by apply ledger_ok_ext|revert H2; by apply kept_ext].
    intros pr ea nb d s' g' [H1 H2]. split;
      [by apply spawn_ledger_ok|by apply spawn_kept].
  - clear. intros s g [H1 H2]. split;
      [by apply assignRunways_ledger_ok|by apply assignRunways_kept].
  - clear. intros p s g [H1 H2]. split;
      [by apply updateFlight_ledger_ok|by apply updateFlight_kept].
  - clear. intros s g [H1 H2]. split;
      [revert H1; by apply ledger_ok_ext|revert H2; by apply kept_ext].
Qed.

Lemma reachable_kept σ : reachable σ -> kept σ.1.
Proof.
  intros Hr.
  enough (ledger_ok σ.1 σ.2 /\ kept σ.1) as [_ H] by done.
  revert σ Hr.
  apply (reachable_ind_inputs (fun s g => ledger_ok s g /\ kept s)).
  - intros i. split; [apply new_ledger_ok|].
    split; [constructor|]. split; [constructor|]. split; [done|].
    split; [done|]. split; [vm_compute; repeat constructor|].
    vm_compute. constructor.
  - by intros i s g [H1 H2].
  - apply updateSimulation_kept.
Qed.

(** X10. The speed of an aircraft never leaves the envelope of its
    phase: in every reachable state a speed that is not pinned is inside the
    band the detector accepts for the phase, and a pinned one is at most 40
    beyond it; during Landing and at the gate the speed stays under what the
    detector accepts, pinned or not. No aircraft is ever faster than 940. *)
Theorem speeds_stay_in_envelope (σ : State) (p : nat) (x : Flight) :
  reachable σ -> allFlights σ.1 !! p = Some x ->
  plausible x /\ Aircraft.currentSpeed (base x) <= CRUISE_MAX_SPEED + 40.
Proof.
  intros Hr Hx. destruct (reachable_kept σ Hr) as (H & _).
  pose proof (Forall_lookup_1 _ _ _ _ H Hx) as Hpl. split; [done|].
  destruct Hpl as [_ Hv]. revert Hv.
  destruct x as [[b st n]|[b st n]]; simpl;
    destruct (Aircraft.maintainViolationSpeed b); destruct st;
    intros Hv; try (destruct (landingRamp_bounds n) as [? _]; [lia|]);
    speed_constants; lia.
Qed.

Lemma speeds_stay_in_envelope_witness :
  exists x,
    allFlights (run 1 airforce_inputs).1 !! 0%nat = Some x
    /\ Aircraft.currentSpeed (base x) = 605
    /\ plausible x /\ Aircraft.currentSpeed (base x) <= CRUISE_MAX_SPEED + 40.
Proof.
  assert (exists x, allFlights (run 1 airforce_inputs).1 !! 0%nat = Some x
                    /\ Aircraft.currentSpeed (base x) = 605)
    as (x & Hx & Hv) by (vm_compute; eauto).
  exists x. split; [exact Hx|]. split; [exact Hv|].
  exact (speeds_stay_in_envelope (run 1 airforce_inputs) 0 x
           (reachable_run 1 airforce_inputs) Hx).
Defined.




(** X12. Every notice of the ledger has been announced to the notice
    generator, once and in the order of the ledger: what [updateFlights] has
    written to the pipe is, notice by notice, the message that carries the id
    of the notice, its airline cut to 31 characters and its flight number
    cut to 15, the recorded speed as the amount, the band, and "COMMERCIAL"
    for a Commercial aircraft and "CARGO" for any other, Emergency
    included. *)
Theorem pipe_mirrors_ledger (σ : State) :
  reachable σ -> avnWritePipe σ.1 = notice_message <$> allAVNs σ.1.
Proof. intros Hr. by destruct (reachable_kept σ Hr) as (_ & _ & H & _). Qed.

Lemma pipe_mirrors_ledger_witness :
  let s := (run 1 airforce_inputs).1 in
  (fun m => (IPCMessage.avnId m, IPCMessage.airline m,
             IPCMessage.flightNumber m, IPCMessage.details m,
             IPCMessage.minSpeed m, IPCMessage.maxSpeed m))
    <$> avnWritePipe s
  = [(1000, "Pakistan Airforce", "Pa-1000", "CARGO", 400, 600)]
  /\ avnWritePipe s = notice_message <$> allAVNs s.
Proof.
  split; [vm_compute; reflexivity|].
  apply (pipe_mirrors_ledger (run 1 airforce_inputs)), reachable_run.
Defined.

(** X13. The records of the airlines and the ledger hold the same
    notices. In every reachable state the registry holds the six airlines
    it was constructed with, in the order of their names; the record of an
    airline holds notices of that airline only; and the records together
    hold exactly the notices of [allAVNs]. *)
Theorem airline_records_match_ledger (σ : State) :
  reachable σ ->
  (airlines σ.1).*1
  = ["AghaKhan Air Ambulance"; "AirBlue"; "Blue Dart"; "FedEx"; "PIA";
     "Pakistan Airforce"]
  /\ (forall k a avn,
        (k, a) ∈ airlines σ.1 -> avn ∈ Airline.violations a ->
        AVN.airline avn = k)
  /\ concat (Airline.violations <$> (airlines σ.1).*2) ≡ₚ allAVNs σ.1.
Proof.
  intros Hr. destruct (reachable_kept σ Hr) as (_ & _ & _ & Hk & Ho & Hc).
  split; [by rewrite Hk|]. split; [|done].
  intros k a avn Hka Havn. rewrite Forall_forall in Ho.
  specialize (Ho (k, a) Hka). rewrite Forall_forall in Ho. by apply Ho.
Qed.

Lemma airline_records_match_ledger_witness :
  let s := (run 1 airforce_inputs).1 in
  (fun pair => (pair.1, AVN.id <$> Airline.violations pair.2)) <$> airlines s
  = [("AghaKhan Air Ambulance", []); ("AirBlue", []); ("Blue Dart", []);
     ("FedEx", []); ("PIA", []); ("Pakistan Airforce", [1000])]
  /\ concat (Airline.violations <$> (airlines s).*2) ≡ₚ allAVNs s.
Proof.
  split; [vm_compute; reflexivity|].
  apply (airline_records_match_ledger (run 1 airforce_inputs)), reachable_run.
Defined.

(** ** The payment of notices *)

Lemma first_with_id_find avnId l i avn :
  first_with_id avnId l i avn <->
  list_find (fun avn => AVN.id avn = avnId) l = Some (i, avn).
Proof. unfold first_with_id. by rewrite list_find_Some. Qed.

Lemma processAVNPayment_marks_first_aux avnId amount l i avn :
  first_with_id avnId l i avn ->
  Double.geb amount (AVN.totalAmount avn) = true ->
  processAVNPayment avnId amount l
  = (<[i := AVN.set_status PAID avn]> l, PaymentProcessed)
  /\ list_find (fun avn => AVN.id avn = avnId)
       (<[i := AVN.set_status PAID avn]> l)
     = Some (i, AVN.set_status PAID avn).
Proof.
  intros Hf Hge. pose proof Hf as (Hi & Hid & Hmin).
  apply first_with_id_find in Hf as Hfind. split.
  - unfold processAVNPayment. rewrite Hfind, Hge. f_equal.
    apply list_eq. intros j. destruct (decide (j = i)) as [->|Hne].
    + rewrite list_lookup_alter_eq, Hi.
      by rewrite list_lookup_insert_eq by (by eapply lookup_lt_Some).
    + by rewrite list_lookup_alter_ne, list_lookup_insert_ne.
  - apply list_find_Some. split; [|split; [done|]].
    + by rewrite list_lookup_insert_eq by (by eapply lookup_lt_Some).
    + intros j y Hj Hlt. rewrite list_lookup_insert_ne in Hj by lia.
      by apply (Hmin j).
Qed.

(** X14. What [processAVNPayment] refuses. On an id that no notice of
    the ledger carries, the empty ledger included, it reports that the
    notice was not found; on an amount below the total of the first notice
    with the id, or on an amount that is not a number, it reports an
    insufficient payment. In both cases the ledger is left as it was. *)
Theorem processAVNPayment_refusals (avnId : Z) (amount : Double.t)
    (l : list AVN.t) (i : nat) (avn : AVN.t) :
  (Forall (fun avn => AVN.id avn ≠ avnId) l ->
   processAVNPayment avnId amount l = (l, NotFound))
  /\ processAVNPayment avnId amount [] = ([], NotFound)
  /\ (first_with_id avnId l i avn ->
      Double.geb amount (AVN.totalAmount avn) = false ->
      processAVNPayment avnId amount l = (l, InsufficientPayment))
  /\ (first_with_id avnId l i avn ->
      processAVNPayment avnId S754_nan l = (l, InsufficientPayment)).
Proof.
  unfold processAVNPayment. repeat split.
  - intros H. apply (list_find_None (fun avn => AVN.id avn = avnId)) in H.
    by rewrite H.
  - intros H%first_with_id_find Hlt. by rewrite H, Hlt.
  - intros H%first_with_id_find. rewrite H.
    by destruct (AVN.totalAmount avn).
Qed.

(** X15. What a payment changes. When [amount] covers the total of the
    first notice with the id, [processAVNPayment] marks that notice paid and
    changes nothing else: the other notices, and the other notices with the
    same id among them, keep their status, and every notice keeps its id and
    its amounts. It does so again, with the same report, when the notice is
    paid already: a second payment is never refused. *)
Theorem processAVNPayment_marks_first (avnId : Z) (amount : Double.t)
    (l : list AVN.t) (i : nat) (avn : AVN.t) :
  first_with_id avnId l i avn ->
  Double.geb amount (AVN.totalAmount avn) = true ->
  let r := processAVNPayment avnId amount l in
  r = (<[i := AVN.set_status PAID avn]> l, PaymentProcessed)
  /\ processAVNPayment avnId amount r.1 = r
  /\ (forall j, j ≠ i -> r.1 !! j = l !! j)
  /\ AVN.id <$> r.1 = AVN.id <$> l
  /\ AVN.totalAmount <$> r.1 = AVN.totalAmount <$> l.
Proof.
  intros Hf Hge. pose proof Hf as (Hi & Hid & Hmin). cbv zeta.
  destruct (processAVNPayment_marks_first_aux avnId amount l i avn Hf Hge)
    as [E Hfind'].
  rewrite E. cbn [fst]. repeat split.
  - unfold processAVNPayment. rewrite Hfind'.
    cbn [AVN.totalAmount AVN.set_status]. rewrite Hge. f_equal.
    apply list_eq. intros j. destruct (decide (j = i)) as [->|Hne].
    + rewrite list_lookup_alter_eq.
      by rewrite list_lookup_insert_eq by (by eapply lookup_lt_Some).
    + by rewrite list_lookup_alter_ne.
  - intros j Hne. by rewrite list_lookup_insert_ne.
  - by apply (fmap_insert_same AVN.id i avn).
  - by apply (fmap_insert_same AVN.totalAmount i avn).
Qed.

Lemma processAVNPayment_marks_first_witness :
  exists avn,
    let l := allAVNs (run 1 airforce_inputs).1 in
    first_with_id 1000 l 0 avn
    /\ Double.geb (AVN.totalAmount avn) (AVN.totalAmount avn) = true
    /\ processAVNPayment 1000 (AVN.totalAmount avn) l
       = (<[0%nat := AVN.set_status PAID avn]> l, PaymentProcessed).
Proof.
  assert (exists avn,
            list_find (fun avn => AVN.id avn = 1000)
              (allAVNs (run 1 airforce_inputs).1) = Some (0%nat, avn)
            /\ Double.geb (AVN.totalAmount avn) (AVN.totalAmount avn) = true)
    as (avn & Hfind & Hge) by (vm_compute; eauto).
  exists avn. cbv zeta.
  pose proof (proj2 (first_with_id_find 1000
                       (allAVNs (run 1 airforce_inputs).1) 0 avn) Hfind)
    as Hf.
  split; [exact Hf|]. split; [exact Hge|].
  exact (proj1 (processAVNPayment_marks_first 1000 (AVN.totalAmount avn)
                  (allAVNs (run 1 airforce_inputs).1) 0 avn Hf Hge)).
Defined.

Lemma pay_frame l π :
  AVN.id <$> pay l π = AVN.id <$> l
  /\ forall j b,
       l !! j = Some b ->
       (exists i a, (i < j)%nat /\ l !! i = Some a /\ AVN.id a = AVN.id b) ->
       pay l π !! j = Some b.
Proof.
  assert (forall avnId amount,
            AVN.id <$> (processAVNPayment avnId amount l).1 = AVN.id <$> l
            /\ forall j b,
                 l !! j = Some b ->
                 (exists i a, (i < j)%nat /\ l !! i = Some a
                              /\ AVN.id a = AVN.id b) ->
                 (processAVNPayment avnId amount l).1 !! j = Some b) as Hcall.
  { intros avnId amount. unfold processAVNPayment.
    destruct (list_find _ l) as [[k y]|] eqn:Hfind; [|done].
    destruct (Double.geb _ _); [|done]. cbn [fst].
    apply list_find_Some in Hfind as (Hk & Hid & Hmin). split.
    - by apply fmap_alter_same.
    - intros j b Hj (i & a & Hlt & Hi & Hab).
      rewrite list_lookup_alter_ne; [done|]. intros <-.
      assert (b = y) as -> by congruence.
      apply (Hmin i a Hi Hlt). congruence. }
  destruct π as [avnId confirm|avnId amount]; [|apply Hcall].
  unfold pay, main_payAVN.
  destruct (list_find _ l) as [[k y]|]; [|done].
  destruct (decide _); [done|]. destruct confirm; [|done]. apply Hcall.
Qed.

(** X16. A notice that stands in the ledger behind another notice with
    the same id can never be paid: the menu of [main] and
    [processAVNPayment] both stop at the first notice with the id, so that
    whatever payments are made, in whatever order and for whatever amounts,
    the later notice is left exactly as it was. The notices of arrivals
    and those of departures are numbered apart, both from 1000 on, so this
    is the lot of one notice of every such pair. *)
Theorem shadowed_notice_never_paid (l : list AVN.t) (i j : nat)
    (a b : AVN.t) (payments : list Payment) :
  l !! i = Some a -> l !! j = Some b -> (i < j)%nat ->
  AVN.id a = AVN.id b ->
  foldl pay l payments !! j = Some b.
Proof.
  intros Hi Hj Hlt Hab. revert l a Hi Hj Hab.
  induction payments as [|π πs IH]; intros l a Hi Hj Hab; [done|].
  simpl. destruct (pay_frame l π) as [Hids Hkeep].
  assert (exists a', pay l π !! i = Some a' /\ AVN.id a' = AVN.id a)
    as (a' & Hi' & Ha').
  { assert ((AVN.id <$> pay l π) !! i = Some (AVN.id a)) as H
      by (by rewrite Hids, list_lookup_fmap, Hi).
    rewrite list_lookup_fmap in H.
    destruct (pay l π !! i) as [a'|]; [|done]. exists a'. split; [done|].
    by injection H. }
  apply (IH _ a'); [done| |congruence].
  apply Hkeep; [done|]. by exists i, a.
Qed.

Lemma shadowed_notice_never_paid_witness :
  exists a b,
    let l := allAVNs (run 3 collision_inputs).1 in
    l !! 0%nat = Some a /\ l !! 1%nat = Some b
    /\ (AVN.id a, AVN.flightNumber a) = (1000, "PI-1000")
    /\ (AVN.id b, AVN.flightNumber b, AVN.status b) = (1000, "PI-2002", UNPAID)
    /\ foldl pay l [ByMenu 1000 true; ByCall 1000 (Double.of_int 900000);
                    ByMenu 1000 true]
         !! 1%nat = Some b.
Proof.
  assert (exists a b,
            allAVNs (run 3 collision_inputs).1 !! 0%nat = Some a
            /\ allAVNs (run 3 collision_inputs).1 !! 1%nat = Some b
            /\ (AVN.id a, AVN.flightNumber a) = (1000, "PI-1000")
            /\ (AVN.id b, AVN.flightNumber b, AVN.status b)
               = (1000, "PI-2002", UNPAID)
            /\ AVN.id a = AVN.id b)
    as (a & b & Ha & Hb & Ea & Eb & Hab)
    by (vm_compute; eexists _, _; repeat split; reflexivity).
  exists a, b. cbv zeta.
  split; [exact Ha|]. split; [exact Hb|]. split; [exact Ea|].
  split; [exact Eb|].
  exact (shadowed_notice_never_paid (allAVNs (run 3 collision_inputs).1)
           0 1 a b _ Ha Hb (Nat.lt_0_succ 0) Hab).
Defined.




(** ** The notice generator and the payment process *)











Lemma paid_again avn : AVN.status avn = PAID -> AVN.set_status PAID avn = avn.
Proof. destruct avn; simpl; by intros ->. Qed.













